(** * download_hsc_pipeline.py: batch download, split and catalog of HSC images

    A shallow embedding of [src/download_hsc_pipeline.py] and the properties
    its specification states about it.

    Conventions of the embedding.
    - A Python [str] whose code points are all below 256 is a [string], code
      point for code point.  On that domain [\d] is the ASCII digits and the
      white space of [str.strip] is the twelve characters of [isspace].
    - Python [int] is [Z]; [//] and [%] are [Z.div] and [Z.modulo] (both
      floor towards minus infinity, like Python's).
    - [None] is [None]: an optional argument is an [option].
    - What an API endpoint answers is a [json] value of any shape; the
      code's operations on it ([in], iteration, indexing, [+]) are those of
      [PyJson], with the [TypeError] or [KeyError] that Python raises.
    - Exceptions are the constructors of [exn]; a computation that may raise
      returns [result].
    - Calls that leave the process (directories, files, network, terminal,
      clock) are recorded in order as a list of [event], at the moment they
      are issued; what the outside world answers is read from a [world]:
      creating a directory, opening the URL list, a request, opening a
      container and any write to disk may raise, a removal may fail (the
      code catches that); printing and sleeping return. *)

From Stdlib Require Import ZArith List String Ascii Bool Lia.
Import ListNotations.

#[local] Open Scope list_scope.
#[local] Open Scope string_scope.

(* ------------------------------------------------------------------ *)
(** ** Exceptions and fallible values *)

Inductive exn : Type :=
| IndexError
| ValueError
| OSError
| ConnectionError
| HTTPError
| JSONDecodeError
| TypeError
| KeyError
| RequestException
| SystemExit (message : string).

Definition result (A : Type) : Type := (exn + A)%type.

Module Res.
Definition ret {A} (a : A) : result A := inr a.
Definition raise {A} (e : exn) : result A := inl e.
Definition bind {A B} (m : result A) (f : A -> result B) : result B :=
  match m with
  | inl e => inl e
  | inr a => f a
  end.
End Res.

(* ------------------------------------------------------------------ *)
(** ** Python strings *)

Module PyStr.

Definition code (c : ascii) : N := N_of_ascii c.

(** [str.isspace] on one character, for code points below 256. *)
Definition isspace (c : ascii) : bool :=
  let n := code c in
  ((9 <=? n) && (n <=? 13) || (28 <=? n) && (n <=? 32)
   || (n =? 133) || (n =? 160))%N.

(** [\d] of the [re] module, and [str.isdecimal], below 256. *)
Definition isdigit (c : ascii) : bool :=
  let n := code c in ((48 <=? n) && (n <=? 57))%N.

Definition digit_value (c : ascii) : Z := Z.of_N (code c) - 48.

(** Truth value of a string: the empty string is false. *)
Definition truthy (s : string) : bool :=
  match s with
  | EmptyString => false
  | String _ _ => true
  end.

Section Strip.
Variable drop : ascii -> bool.

Fixpoint lstrip_by (s : string) : string :=
  match s with
  | EmptyString => EmptyString
  | String c r => if drop c then lstrip_by r else s
  end.

Fixpoint rstrip_by (s : string) : string :=
  match s with
  | EmptyString => EmptyString
  | String c r =>
      let r' := rstrip_by r in
      if drop c && negb (truthy r') then EmptyString else String c r'
  end.

Definition strip_by (s : string) : string := rstrip_by (lstrip_by s).
End Strip.

(** [s.strip()] *)
Definition strip : string -> string := strip_by isspace.

(** [s.split(sep)] for a one-character separator: never the empty list. *)
Fixpoint split (sep : ascii) (s : string) : list string :=
  match s with
  | EmptyString => [EmptyString]
  | String c r =>
      if Ascii.eqb c sep then EmptyString :: split sep r
      else match split sep r with
           | [] => [String c EmptyString]
           | p :: ps => String c p :: ps
           end
  end.

(** [needle in hay] *)
Fixpoint contains (needle hay : string) : bool :=
  String.prefix needle hay
  || match hay with
     | EmptyString => false
     | String _ r => contains needle r
     end.

(** The white space that [int(s)] skips at both ends: the C [isspace]
    set, plus the two non-ASCII spaces below 256 (which the conversion
    first rewrites to a blank).  The separators 28..31 are not skipped. *)
Definition int_space (c : ascii) : bool :=
  let n := code c in
  ((9 <=? n) && (n <=? 13) || (n =? 32) || (n =? 133) || (n =? 160))%N.

(** Decimal digits with single underscores between digits.
    [seen] tells whether the previous character was a digit. *)
Fixpoint int_digits (acc : Z) (seen : bool) (s : string) : option Z :=
  match s with
  | EmptyString => if seen then Some acc else None
  | String c r =>
      if isdigit c then int_digits (10 * acc + digit_value c) true r
      else if Ascii.eqb c "_" && seen then int_digits acc false r
      else None
  end.

(** [int(s)] in base ten (without the interpreter's optional limit on
    the number of digits): [ValueError] on anything but an optionally
    signed decimal literal surrounded by white space. *)
Definition int (s : string) : result Z :=
  let body := strip_by int_space s in
  let parsed :=
    match body with
    | String "+" r => int_digits 0 false r
    | String "-" r => option_map Z.opp (int_digits 0 false r)
    | _ => int_digits 0 false body
    end in
  match parsed with
  | Some z => inr z
  | None => inl ValueError
  end.

End PyStr.

(* ------------------------------------------------------------------ *)
(** ** Python lists: indexing and slicing with integer bounds *)

Module PyList.
Section WithElem.
Context {A : Type}.

Definition len (l : list A) : Z := Z.of_nat (List.length l).

(** [l[i]]: negative indices count from the end; [IndexError] outside. *)
Definition getitem (l : list A) (i : Z) : result A :=
  let j := (if i <? 0 then i + len l else i)%Z in
  if ((j <? 0) || (len l <=? j))%Z then inl IndexError
  else match nth_error l (Z.to_nat j) with
       | Some a => inr a
       | None => inl IndexError
       end.

(** How a slice bound is clamped into [0, len]. *)
Definition clamp (n : Z) (i : Z) : Z :=
  (if i <? 0 then Z.max 0 (i + n) else Z.min i n)%Z.

(** [l[lo:hi]] *)
Definition slice (l : list A) (lo hi : Z) : list A :=
  let a := clamp (len l) lo in
  let b := clamp (len l) hi in
  firstn (Z.to_nat (b - a)) (skipn (Z.to_nat a) l).

(** [l[lo:]] *)
Definition slice_from (l : list A) (lo : Z) : list A :=
  skipn (Z.to_nat (clamp (len l) lo)) l.
End WithElem.
End PyList.

(* ------------------------------------------------------------------ *)
(** ** The pure parts of [download_and_split_hsc_images] *)

(** Lines 149-154: the batch window over the loaded URL list. *)
Definition select_batch (urls : list string) (BATCH_START BATCH_SIZE : option Z)
  : list string :=
  let BATCH_START := match BATCH_START with None => 0%Z | Some s => s end in
  match BATCH_SIZE with
  | None => PyList.slice_from urls BATCH_START
  | Some size => PyList.slice urls BATCH_START (BATCH_START + size)
  end.

(** The longest run of digits at the front of [s]. *)
Fixpoint take_digits (s : string) : string :=
  match s with
  | EmptyString => EmptyString
  | String c r => if PyStr.isdigit c then String c (take_digits r) else EmptyString
  end.

(** [re.search(r'(v\d+)', fn)], group 1 of the leftmost match: the first
    [v] that a digit follows, with the longest run of digits after it. *)
Fixpoint search_version (fn : string) : option string :=
  match fn with
  | EmptyString => None
  | String c r =>
      if Ascii.eqb c "v" && PyStr.truthy (take_digits r)
      then Some (String "v" (take_digits r))
      else search_version r
  end.

(** Lines 163-170, the nested helper [parse_url]. *)
Definition parse_url (u : string) : result (string * string * string) :=
  let parts := PyStr.split "/" u in
  Res.bind (PyList.getitem parts 6) (fun snapshot =>
  Res.bind (PyList.getitem parts 8) (fun subhalo =>
  Res.bind (PyList.getitem parts (-1)) (fun fn =>
  let v_match := search_version fn in
  let version := match v_match with Some g => g | None => "v?" end in
  Res.ret (snapshot, subhalo, version)))).

(** Line 177 *)
Definition fname_parent (snapshot subhalo version : string) : string :=
  snapshot ++ "_" ++ subhalo ++ "_" ++ version ++ "_parent.fits".

(** Line 200 *)
Definition out_name (snapshot subhalo filt version : string) : string :=
  snapshot ++ "_" ++ subhalo ++ "_" ++ filt ++ "_" ++ version
           ++ "_hsc_realistic.fits".

(** Line 190 *)
Definition target_ext (filt : string) : string := "SUBARU_HSC." ++ filt.

(** Line 189 *)
Definition filters : list string := ["G"; "R"; "I"; "Z"; "Y"].

(** Line 206, on the two integers. *)
Definition obj_id (snapshot subhalo : Z) : Z :=
  (snapshot * 1000000 + subhalo)%Z.

(** [os.path.join(a, b)] on POSIX. *)
Definition ends_with_slash (s : string) : bool :=
  match PyList.getitem (list_ascii_of_string s) (-1) with
  | inr c => Ascii.eqb c "/"
  | inl _ => false
  end.

Definition path_join (a b : string) : string :=
  if String.prefix "/" b then b
  else if negb (PyStr.truthy a) || ends_with_slash a then a ++ b
  else a ++ "/" ++ b.

(** [x or y] on optional strings: [None] and the empty string are false. *)
Definition truthy_opt (o : option string) : bool :=
  match o with
  | Some s => PyStr.truthy s
  | None => false
  end.

Definition py_or (x y : option string) : option string :=
  if truthy_opt x then x else y.

(** Lines 230-237.  [environ] is [os.environ.get('TNG_API_KEY')]. *)
Definition requires_an_api_key (command_name : string) : string :=
  command_name ++ " requires an API key. Provide --api-key or set the TNG_API_KEY environment variable.".

Definition _resolve_api_key (environ : option string)
    (explicit : option string) (command_name : string)
  : result (option string) :=
  let api_key := py_or explicit environ in
  if negb (truthy_opt api_key)
  then Res.raise (SystemExit (requires_an_api_key command_name))
  else Res.ret api_key.

(* ------------------------------------------------------------------ *)
(** ** The outside world *)

(** A FITS header card value, and an HDU as the splitter uses it: its
    header (keyword, value) in file order, and its image data. *)
Inductive card : Type :=
| CardStr (s : string)
| CardInt (z : Z)
| CardBool (b : bool).

Record hdu : Type := HDU { data : list Z; header : list (string * card) }.

(** [fits.PrimaryHDU(data=..., header=...)] *)
Definition PrimaryHDU (data : list Z) (header : list (string * card)) : hdu :=
  HDU data header.

(** [header.get(key, default)]: the first card of that keyword. *)
Fixpoint header_get (h : list (string * card)) (key : string) (default : card)
  : card :=
  match h with
  | [] => default
  | (k, v) :: r => if String.eqb k key then v else header_get r key default
  end.

(** [value == s] for a string [s]: other types never equal a string. *)
Definition card_eq_str (v : card) (s : string) : bool :=
  match v with
  | CardStr t => String.eqb t s
  | _ => false
  end.

(** What was streamed to the parent path: a FITS container, or bytes that
    [fits.open] rejects. *)
Inductive content : Type :=
| Fits (hdul : list hdu)
| NotFits.

(** What [requests.get] meets: no response at all, or a response with
    its [status_code] and its body. *)
Inductive response : Type :=
| Unreachable
| Status (status_code : Z) (body : content).

(** Whether [Response.raise_for_status] raises: it does for a status from
    400 to 599 (client and server errors), and for no other. *)
Definition raises_for_status (status_code : Z) : bool :=
  ((400 <=? status_code) && (status_code <? 600))%Z.

#[local] Set Warnings "-register-all".

(** A value decoded from JSON, as [Response.json] returns it: [None], a
    [bool], an [int], a [float] (kept as it is written), a [str], a
    [list], or a [dict] given by its items in insertion order (the keys
    of a dict are distinct). *)
Inductive json : Type :=
| JNull
| JBool (b : bool)
| JInt (z : Z)
| JFloat (literal : string)
| JStr (s : string)
| JList (elements : list json)
| JDict (items : list (string * json)).

(** What the code does with such values. *)
Module PyJson.

(** [x == v] for a string [x]: only a string is equal to a string. *)
Definition eq_str (x : string) (v : json) : bool :=
  match v with
  | JStr s => String.eqb x s
  | _ => false
  end.

(** The value under a key of a dict. *)
Definition lookup (items : list (string * json)) (key : string)
  : option json :=
  match find (fun kv => String.eqb (fst kv) key) items with
  | Some kv => Some (snd kv)
  | None => None
  end.

(** What [for u in v] and [l += v] go through: the elements of a list,
    the keys of a dict, the characters of a string; nothing else is
    iterable. *)
Definition iterate (v : json) : result (list json) :=
  match v with
  | JList elements => inr elements
  | JDict items => inr (map (fun kv => JStr (fst kv)) items)
  | JStr s =>
      inr (map (fun c => JStr (String c EmptyString)) (list_ascii_of_string s))
  | _ => inl TypeError
  end.

(** [x in v] for a string [x]: a substring of a string, an element of a
    list, a key of a dict. *)
Definition contains (x : string) (v : json) : result bool :=
  match v with
  | JStr s => inr (PyStr.contains x s)
  | JList elements => inr (existsb (eq_str x) elements)
  | JDict items => inr (existsb (fun kv => String.eqb x (fst kv)) items)
  | _ => inl TypeError
  end.

(** [v[key]] for a string [key]: only a dict is indexed by a string. *)
Definition getitem (v : json) (key : string) : result json :=
  match v with
  | JDict items =>
      match lookup items key with
      | Some value => inr value
      | None => inl KeyError
      end
  | _ => inl TypeError
  end.

(** [[u for u in l if x in u]] *)
Fixpoint keep (x : string) (l : list json) : result (list json) :=
  match l with
  | [] => inr []
  | u :: r =>
      Res.bind (contains x u) (fun found =>
      Res.bind (keep x r) (fun kept =>
      Res.ret (if found then u :: kept else kept)))
  end.

End PyJson.

(** What [requests.get] meets at an API endpoint: no response at all, or
    a response with its [status_code] and its body decoded as JSON
    ([None] when the body is not JSON). *)
Inductive api_reply : Type :=
| ApiUnreachable
| ApiStatus (status_code : Z) (body : option json).

(** One row of the catalog, a Python [dict] in insertion order. *)
Inductive pyval : Type :=
| PInt (z : Z)
| PStr (s : string).

Definition row : Type := list (string * pyval).

Inductive message : Type :=
| NoUrls
| Downloading (fname parent_dir : string)
| NoExtension (target_ext fname : string)
| Wrote (out_name : string)
| Removed (fname : string)
| CouldNotRemove (fname : string)
| WroteCatalog (entries : nat) (catalog_path : string).

Inductive event : Type :=
| MakeDirs (dir : string)
| Printed (m : message)
| HttpGet (url : string) (api_key : option string)
| WriteFile (path : string) (body : content)
| WriteFits (path : string) (h : hdu) (overwrite : bool)
| Remove (path : string)
| Sleep
| WriteTable (path : string) (names : list string) (rows : list row)
             (overwrite : bool)
| WriteLines (path : string) (lines : list string).

(** The answers of the outside world.  Downloads and removals are numbered
    by the position of their item in the batch, so that the same URL may be
    answered differently at different times.  [write_fails] tells of a
    write to disk (a parent file, a split image, a table, a text file)
    whether the library call raises, and what. *)
Record world : Type := {
  environ_TNG_API_KEY : option string;
  makedirs_ok : string -> bool;
  read_lines : string -> option (list string);
  download : nat -> string -> response;
  remove_ok : nat -> string -> bool;
  write_fails : event -> option exn;
  endpoint : string -> api_reply
}.


(* ------------------------------------------------------------------ *)
(** ** Computations: a trace of events and a result or an exception *)

Definition M (A : Type) : Type := (list event * result A)%type.

Definition ret {A} (a : A) : M A := ([], inr a).
Definition raise {A} (e : exn) : M A := ([], inl e).
Definition emit (e : event) : M unit := ([e], inr tt).
Definition lift {A} (r : result A) : M A := ([], r).

Definition bind {A B} (m : M A) (f : A -> M B) : M B :=
  match m with
  | (t, inl e) => (t, inl e)
  | (t, inr a) => let (t', r) := f a in ((t ++ t')%list, r)
  end.

Notation "x <- c ;; k" := (bind c (fun x => k))
  (at level 61, c at next level, right associativity).
Notation "' pat <- c ;; k" := (bind c (fun x => match x with pat => k end))
  (at level 61, pat pattern, c at next level, right associativity).
Notation "c ;; k" := (bind c (fun _ => k))
  (at level 61, right associativity).

(** A write to disk: the call is recorded, then it returns or raises. *)
Definition write (w : world) (e : event) : M unit :=
  emit e ;;
  match write_fails w e with
  | None => ret tt
  | Some x => raise x
  end.

Definition trace {A} (m : M A) : list event := fst m.
Definition outcome {A} (m : M A) : result A := snd m.

(** [for x in l: s = body x s], with the position of [x] from [i] on. *)
Fixpoint for_each {A St} (body : nat -> A -> St -> M St) (i : nat)
    (l : list A) (s : St) : M St :=
  match l with
  | [] => ret s
  | a :: r => s' <- body i a s ;; for_each body (S i) r s'
  end.

(* ------------------------------------------------------------------ *)
(** ** [download_and_split_hsc_images] *)

Record config : Type := {
  split_output_dir : string;
  URL_LIST : string;
  BATCH_START : option Z;
  BATCH_SIZE : option Z;
  API_KEY : option string;
  remove_parent : bool;
  catalog_path : option string;
  parent_file_only : bool;
  parent_output_dir : option string
}.

(** Line 225 *)
Definition catalog_names : list string := ["object_id"; "filename"; "filter"].

(** Lines 207-211 *)
Definition catalog_entry (obj : Z) (name filt : string) : row :=
  [("object_id", PInt obj); ("filename", PStr name); ("filter", PStr filt)].

(** Line 192: the test of one HDU against the wanted extension name. *)
Definition has_extname (target : string) (h : hdu) : bool :=
  card_eq_str (header_get (header h) "EXTNAME" (CardStr "")) target.

(** Line 148: the stripped, non-empty lines of the URL list. *)
Definition load_urls (f : list string) : list string :=
  map PyStr.strip (filter (fun u => PyStr.truthy (PyStr.strip u)) f).

Section Pipeline.
Variable w : world.
Variable cfg : config.

(** Line 139 *)
Definition parent_dir : string :=
  match parent_output_dir cfg with
  | Some d => if PyStr.truthy d then d else split_output_dir cfg
  | None => split_output_dir cfg
  end.

Definition os_makedirs (dir : string) : M unit :=
  emit (MakeDirs dir) ;;
  if makedirs_ok w dir then ret tt else raise OSError.

Definition open_url_list (path : string) : M (list string) :=
  match read_lines w path with
  | Some f => ret f
  | None => raise OSError
  end.

(** Lines 139-154: directories, URL list, batch window. *)
Definition resolve_batch : M (list string) :=
  os_makedirs parent_dir ;;
  (if negb (parent_file_only cfg) then os_makedirs (split_output_dir cfg)
   else ret tt) ;;
  f <- open_url_list (URL_LIST cfg) ;;
  let urls := load_urls f in
  ret (select_batch urls (BATCH_START cfg) (BATCH_SIZE cfg)).

(** Line 160 *)
Definition no_entries : option (list row) :=
  if truthy_opt (catalog_path cfg) then Some [] else None.

(** Lines 180-181 *)
Definition requests_get (i : nat) (url : string) : M content :=
  emit (HttpGet url (API_KEY cfg)) ;;
  match download w i url with
  | Unreachable => raise ConnectionError
  | Status status_code body =>
      if raises_for_status status_code then raise HTTPError else ret body
  end.

(** Line 188 *)
Definition fits_open (body : content) : M (list hdu) :=
  match body with
  | Fits hdul => ret hdul
  | NotFits => raise OSError
  end.

(** Lines 190-211: the body of the loop over the five filters. *)
Definition split_filter (snapshot subhalo version : string)
    (hdul : list hdu) (_ : nat) (filt : string)
    (catalog_entries : option (list row)) : M (option (list row)) :=
  match find (has_extname (target_ext filt)) hdul with
  | None =>
      emit (Printed (NoExtension (target_ext filt)
                       (fname_parent snapshot subhalo version))) ;;
      ret catalog_entries
  | Some sci_hdu =>
      let new_hdu := PrimaryHDU (data sci_hdu) (header sci_hdu) in
      let name := out_name snapshot subhalo filt version in
      let out_path := path_join (split_output_dir cfg) name in
      write w (WriteFits out_path new_hdu true) ;;
      emit (Printed (Wrote name)) ;;
      match catalog_entries with
      | Some rows =>
          s <- lift (PyStr.int snapshot) ;;
          h <- lift (PyStr.int subhalo) ;;
          ret (Some (rows ++ [catalog_entry (obj_id s h) name filt])%list)
      | None => ret None
      end
  end.

(** Lines 214-219 *)
Definition cleanup (i : nat) (parent_path fname : string) : M unit :=
  if remove_parent cfg then
    emit (Remove parent_path) ;;
    if remove_ok w i parent_path then emit (Printed (Removed fname))
    else emit (Printed (CouldNotRemove fname))
  else ret tt.

(** Lines 174-222: the body of the main loop, for the item at position
    [i] of the batch. *)
Definition process_item (i : nat) (url : string)
    (catalog_entries : option (list row)) : M (option (list row)) :=
  ' (snapshot, subhalo, version) <- lift (parse_url url) ;;
  let fname := fname_parent snapshot subhalo version in
  let parent_path := path_join parent_dir fname in
  emit (Printed (Downloading fname parent_dir)) ;;
  body <- requests_get i url ;;
  write w (WriteFile parent_path body) ;;
  if negb (parent_file_only cfg) then
    hdul <- fits_open body ;;
    catalog_entries <-
      for_each (split_filter snapshot subhalo version hdul) 0 filters
               catalog_entries ;;
    cleanup i parent_path fname ;;
    emit Sleep ;;
    ret catalog_entries
  else ret catalog_entries.

(** Lines 224-227.  [catalog_entries] is a list only when [catalog_path]
    is a non-empty string, which is then the path written. *)
Definition write_catalog (catalog_entries : option (list row)) : M unit :=
  match catalog_entries, catalog_path cfg with
  | Some rows, Some path =>
      if negb (parent_file_only cfg) then
        write w (WriteTable path catalog_names rows true) ;;
        emit (Printed (WroteCatalog (List.length rows) path))
      else ret tt
  | _, _ => ret tt
  end.

(** Lines 156-227: what is done with the selected batch. *)
Definition run_batch (batch : list string) : M unit :=
  match batch with
  | [] => emit (Printed NoUrls)
  | _ :: _ =>
      let catalog_entries := no_entries in
      catalog_entries <- for_each process_item 0 batch catalog_entries ;;
      write_catalog catalog_entries
  end.

Definition download_and_split_hsc_images : M unit :=
  batch <- resolve_batch ;;
  run_batch batch.

End Pipeline.

(* ------------------------------------------------------------------ *)
(** ** [make_list_of_urls] and [main] *)

Definition newline : string := String (ascii_of_nat 10) EmptyString.

Section Fetch.
Variable w : world.
Variable API_KEY : option string.

(** Lines 49-52.  A URL that is not a string is turned into text by
    [requests]; that text is no http URL, and the call raises before
    anything is sent ([InvalidURL], [MissingSchema] or [InvalidSchema],
    each a [RequestException]). *)
Definition get_endpoint (url : json) : M json :=
  match url with
  | JStr u =>
      emit (HttpGet u API_KEY) ;;
      match endpoint w u with
      | ApiUnreachable => raise ConnectionError
      | ApiStatus status_code body =>
          if raises_for_status status_code then raise HTTPError
          else match body with
               | Some v => ret v
               | None => raise JSONDecodeError
               end
      end
  | _ => raise RequestException
  end.

(** Line 58, one round of the loop: [all_urls += get_endpoint(url)['files']]. *)
Definition collect (_ : nat) (url : json) (all_urls : list json)
  : M (list json) :=
  reply <- get_endpoint url ;;
  files <- lift (PyJson.getitem reply "files") ;;
  more <- lift (PyJson.iterate files) ;;
  ret (all_urls ++ more)%list.

(** Lines 61-62: the lines written until the loop ends or meets a [u]
    that is not a string, for which [u + '\n'] raises [TypeError]. *)
Fixpoint text_lines (all_urls : list json) : list string * result unit :=
  match all_urls with
  | [] => ([], inr tt)
  | JStr u :: r =>
      let (lines, loop_end) := text_lines r in
      ((u ++ newline) :: lines, loop_end)
  | _ :: _ => ([], inl TypeError)
  end.

(** Lines 60-62: the file is opened, which empties it, and holds the
    lines written when it is closed, whether or not the loop raised. *)
Definition write_lines (output_path : string) (all_urls : list json)
  : M unit :=
  let (lines, loop_end) := text_lines all_urls in
  write w (WriteLines output_path lines) ;;
  lift loop_end.

(** Lines 54-62 *)
Definition make_list_of_urls
    (BASE_API_URL ENDING SNAPSHOT_FILTER output_path : string) : M unit :=
  snapshot_urls <- get_endpoint (JStr (BASE_API_URL ++ ENDING)) ;;
  filtered <-
    lift (Res.bind (PyJson.iterate snapshot_urls)
                   (PyJson.keep SNAPSHOT_FILTER)) ;;
  all_urls <- for_each collect 0 filtered [] ;;
  write_lines output_path all_urls.
End Fetch.

(** The parsed command line: one of the two subcommands with its options. *)
Inductive args : Type :=
| Fetch (api_key : option string)
        (base_api_url ending snapshot_filter output_path : string)
| Split (options : config).

Definition with_api_key (api_key : option string) (c : config) : config :=
  {| split_output_dir := split_output_dir c;
     URL_LIST := URL_LIST c;
     BATCH_START := BATCH_START c;
     BATCH_SIZE := BATCH_SIZE c;
     API_KEY := api_key;
     remove_parent := remove_parent c;
     catalog_path := catalog_path c;
     parent_file_only := parent_file_only c;
     parent_output_dir := parent_output_dir c |}.

(** Lines 333-359 *)
Definition main (w : world) (a : args) : M unit :=
  match a with
  | Fetch k base_api_url ending snapshot_filter output_path =>
      api_key <- lift (_resolve_api_key (environ_TNG_API_KEY w) k "fetch") ;;
      make_list_of_urls w api_key base_api_url ending snapshot_filter
                        output_path
  | Split options =>
      api_key <-
        lift (_resolve_api_key (environ_TNG_API_KEY w) (API_KEY options)
                               "split") ;;
      download_and_split_hsc_images w (with_api_key api_key options)
  end.

(** The option [--api-key] of either subcommand, and the subcommand's name. *)
Definition explicit_key (a : args) : option string :=
  match a with
  | Fetch k _ _ _ _ => k
  | Split options => API_KEY options
  end.

Definition command_of (a : args) : string :=
  match a with
  | Fetch _ _ _ _ _ => "fetch"
  | Split _ => "split"
  end.

(* ------------------------------------------------------------------ *)
(** ** Vocabulary of the specification *)

(** The final path segment of a locator. *)
Definition final_segment (u : string) : string :=
  last (PyStr.split "/" u) EmptyString.

(** A string of the shape [v<digits>]: a [v], then one digit or more. *)
Fixpoint all_digits (s : string) : bool :=
  match s with
  | EmptyString => true
  | String c r => PyStr.isdigit c && all_digits r
  end.

Definition version_tag (m : string) : Prop :=
  exists ds, m = String "v" ds /\ ds <> EmptyString /\ all_digits ds = true.

(** [fn] contains a substring of the shape [v<digits>]. *)
Definition has_version_tag (fn : string) : Prop :=
  exists pre m post, fn = pre ++ m ++ post /\ version_tag m.

(** The statuses of a response: a success is any 2xx; a client or server
    error is any 4xx or 5xx. *)
Definition success_status (status_code : Z) : Prop :=
  (200 <= status_code < 300)%Z.

Definition error_status (status_code : Z) : Prop :=
  (400 <= status_code < 600)%Z.

(** The name of an extension, as the header of the HDU gives it: the
    first card of keyword [EXTNAME] holds the string [name]. *)
Definition extension_named (name : string) (h : hdu) : Prop :=
  exists before after,
    header h = (before ++ ("EXTNAME", CardStr name) :: after)%list
    /\ forall c, In c before -> fst c <> "EXTNAME".

(** The five bands, and a container that holds an extension for a band:
    one of its HDUs is named [SUBARU_HSC.<band>]. *)
Definition five_bands : list string := ["G"; "R"; "I"; "Z"; "Y"].

Definition has_band (band : string) (hdul : list hdu) : Prop :=
  exists h, In h hdul /\ extension_named ("SUBARU_HSC." ++ band) h.

(** The events that write a catalog table, fetch a URL, write a split image. *)
Definition is_write_table (e : event) : bool :=
  match e with
  | WriteTable _ _ _ _ => true
  | _ => false
  end.

Definition is_http_get (e : event) : bool :=
  match e with
  | HttpGet _ _ => true
  | _ => false
  end.

Definition is_write_fits (e : event) : bool :=
  match e with
  | WriteFits _ _ _ => true
  | _ => false
  end.

(** A container in which none of the five filters has an extension. *)
Definition no_filter_found (hdul : list hdu) : bool :=
  forallb (fun filt =>
             match find (has_extname (target_ext filt)) hdul with
             | None => true
             | Some _ => false
             end) filters.

(** The number of events of one kind in a trace, and a bound on it for a
    computation. *)
Definition count (K : event -> bool) (t : list event) : nat :=
  List.length (filter K t).

Definition bounded (K : event -> bool) (n : nat) {A} (m : M A) : Prop :=
  (count K (trace m) <= n)%nat.

(** The warning of line 196 for one filter. *)
Definition warning (snapshot subhalo version filt : string) : event :=
  Printed (NoExtension (target_ext filt)
             (fname_parent snapshot subhalo version)).

(** The events of an item whose container has none of the five filters. *)
Definition bandless_trace (w : world) (cfg : config) (i : nat)
    (u snapshot subhalo version : string) (hdul : list hdu) : list event :=
  let fname := fname_parent snapshot subhalo version in
  let parent_path := path_join (parent_dir cfg) fname in
  ([Printed (Downloading fname (parent_dir cfg));
    HttpGet u (API_KEY cfg);
    WriteFile parent_path (Fits hdul)]
   ++ map (warning snapshot subhalo version) filters
   ++ trace (cleanup w cfg i parent_path fname)
   ++ [Sleep])%list.

(** An item at position [n] that parses, is downloaded and stored, and
    whose container has none of the five filters. *)
Definition bandless_item (w : world) (cfg : config) (n : nat) (u : string)
  : Prop :=
  exists snapshot subhalo version hdul,
    parse_url u = inr (snapshot, subhalo, version)
    /\ (exists status_code,
          download w n u = Status status_code (Fits hdul)
          /\ ~ error_status status_code)
    /\ write_fails w (WriteFile (path_join (parent_dir cfg)
                                   (fname_parent snapshot subhalo version))
                                (Fits hdul)) = None
    /\ no_filter_found hdul = true.

(** Every catalog table that a run writes has the given column names, in
    that order, and replaces what was at its path. *)
Definition catalog_columns_are (names : list string) (w : world) (cfg : config)
  : Prop :=
  forall path names' rows overwrite,
    In (WriteTable path names' rows overwrite)
       (trace (download_and_split_hsc_images w cfg)) ->
    names' = names /\ overwrite = true.

(* ------------------------------------------------------------------ *)
(** ** Scenarios *)

Module Scenario.

Definition url_v2 : string :=
  "https://www.tng-project.org/api/TNG50-1/snapshots/72/subhalos/0/skirt/skirt_images_hsc_realistic_v2.fits".

Definition url_unversioned : string :=
  "https://www.tng-project.org/api/TNG50-1/snapshots/72/subhalos/5/skirt/skirt_images_hsc_realistic.fits".

(** A container with an image for filter G only, and one with none. *)
Definition hdu_G : hdu :=
  HDU [1; 2; 3]%Z
    [("XTENSION", CardStr "IMAGE"); ("EXTNAME", CardStr "SUBARU_HSC.G")].

Definition only_G : content := Fits [hdu_G].
Definition no_band : content := Fits [HDU [] [("SIMPLE", CardBool true)]].

(** A URL list of the two locators (with a blank line between them), and
    a server described by [answer]. *)
Definition server (answer : nat -> string -> response) : world :=
  {| environ_TNG_API_KEY := None;
     makedirs_ok := fun _ => true;
     read_lines := fun _ => Some [url_v2 ++ newline; newline;
                                  url_unversioned ++ newline];
     download := answer;
     remove_ok := fun _ _ => true;
     write_fails := fun _ => None;
     endpoint := fun _ => ApiUnreachable |}.

Definition always (c : content) : nat -> string -> response :=
  fun _ _ => Status 200 c.

(** The first download succeeds, every later one is refused. *)
Definition first_only (c : content) : nat -> string -> response :=
  fun i _ => match i with
             | O => Status 200 c
             | S _ => Status 404 NotFits
             end.

Definition with_catalog (start : Z) : config :=
  {| split_output_dir := "split_images";
     URL_LIST := "urls.txt";
     BATCH_START := Some start;
     BATCH_SIZE := None;
     API_KEY := Some "key";
     remove_parent := true;
     catalog_path := Some "split_images/catalog.fits";
     parent_file_only := false;
     parent_output_dir := None |}.

End Scenario.

(* ------------------------------------------------------------------ *)
(** ** Further vocabulary *)

(** Whether the character [c] occurs in [s]. *)
Fixpoint has_char (c : ascii) (s : string) : bool :=
  match s with
  | EmptyString => false
  | String x r => Ascii.eqb x c || has_char c r
  end.

(** The lines that iterating over a text file of content [s] yields:
    each line keeps its end, and the three line ends (LF, CR, CR LF) all
    read as LF. *)
Fixpoint readlines (s : string) : list string :=
  match s with
  | EmptyString => []
  | String c r =>
      if Ascii.eqb c (ascii_of_nat 10) then newline :: readlines r
      else if Ascii.eqb c (ascii_of_nat 13) then
        match r with
        | String c' r' =>
            if Ascii.eqb c' (ascii_of_nat 10) then newline :: readlines r'
            else newline :: readlines r
        | EmptyString => [newline]
        end
      else match readlines r with
           | [] => [String c EmptyString]
           | l :: ls => String c l :: ls
           end
  end.

(** The content of the file that lines 60-62 write. *)
Definition written_text (lines : list string) : string :=
  fold_right append EmptyString lines.

(** Lines 182-222 of a round, after the download: storing, splitting,
    cleaning up, pausing. *)
Definition after_download (w : world) (cfg : config) (i : nat)
    (snapshot subhalo version : string) (entries : option (list row))
    (body : content) : M (option (list row)) :=
  let fname := fname_parent snapshot subhalo version in
  let parent_path := path_join (parent_dir cfg) fname in
  write w (WriteFile parent_path body) ;;
  if negb (parent_file_only cfg) then
    hdul <- fits_open body ;;
    catalog_entries <-
      for_each (split_filter w cfg snapshot subhalo version hdul) 0 filters
               entries ;;
    cleanup w cfg i parent_path fname ;;
    emit Sleep ;;
    ret catalog_entries
  else ret entries.

(** A string that does not start with a character to drop. *)
Definition tight_front (drop : ascii -> bool) (s : string) : Prop :=
  match s with
  | EmptyString => True
  | String c _ => drop c = false
  end.

(** A line break inside a string. *)
Definition has_line_break (s : string) : bool :=
  has_char (ascii_of_nat 10) s || has_char (ascii_of_nat 13) s.

(** The directory part that [path_join] puts before a relative name. *)
Definition dir_prefix (d : string) : string :=
  if negb (PyStr.truthy d) || ends_with_slash d then d else d ++ "/".

(** More kinds of events. *)
Definition is_sleep (e : event) : bool :=
  match e with
  | Sleep => true
  | _ => false
  end.

Definition is_remove (e : event) : bool :=
  match e with
  | Remove _ => true
  | _ => false
  end.

Definition is_write_lines (e : event) : bool :=
  match e with
  | WriteLines _ _ => true
  | _ => false
  end.

Definition is_write_file (e : event) : bool :=
  match e with
  | WriteFile _ _ => true
  | _ => false
  end.

Definition is_makedirs (e : event) : bool :=
  match e with
  | MakeDirs _ => true
  | _ => false
  end.

(** The URLs requested in a trace, in order. *)
Definition fetched (t : list event) : list string :=
  flat_map (fun e => match e with
                     | HttpGet url _ => [url]
                     | _ => []
                     end) t.

(** The same world, with other answers to [os.remove]. *)
Definition with_remove_ok (w : world) (answers : nat -> string -> bool)
  : world :=
  {| environ_TNG_API_KEY := environ_TNG_API_KEY w;
     makedirs_ok := makedirs_ok w;
     read_lines := read_lines w;
     download := download w;
     remove_ok := answers;
     write_fails := write_fails w;
     endpoint := endpoint w |}.

(** A trace with the two reports of lines 217 and 219 read as one. *)
Definition removal_report (e : event) : event :=
  match e with
  | Printed (CouldNotRemove fname) => Printed (Removed fname)
  | _ => e
  end.

(** Two computations that end alike and whose traces differ at most in
    which of the two removal reports is printed. *)
Definition alike {A} (m m' : M A) : Prop :=
  outcome m = outcome m'
  /\ map removal_report (trace m) = map removal_report (trace m').

(** Whether every removal in [t] is of a path that [t], or [written]
    before it, has written as a parent file. *)
Fixpoint removes_own_files (written : list string) (t : list event) : bool :=
  match t with
  | [] => true
  | WriteFile path _ :: r => removes_own_files (path :: written) r
  | Remove path :: r =>
      existsb (String.eqb path) written && removes_own_files written r
  | _ :: r => removes_own_files written r
  end.

(** The endpoint at [url] answers with the JSON value [v]: a response
    whose status is no client or server error and whose body decodes to
    [v]. *)
Definition answers (w : world) (url : string) (v : json) : Prop :=
  exists status_code,
    endpoint w url = ApiStatus status_code (Some v)
    /\ ~ error_status status_code.

(** The endpoint at [url] answers with a listing of the files [files]: a
    JSON object whose ["files"] is that list of strings. *)
Definition lists (w : world) (url : string) (files : list string) : Prop :=
  exists items,
    answers w url (JDict items)
    /\ PyJson.lookup items "files" = Some (JList (map JStr files)).

(** The same for a listing whose ["files"] is a list of any values. *)
Definition holds (w : world) (url : string) (entries : list json) : Prop :=
  exists items,
    answers w url (JDict items)
    /\ PyJson.lookup items "files" = Some (JList entries).

(** The endpoint at [url] does not answer: no response, a client or
    server error status, or a body that is not JSON. *)
Definition unanswered (w : world) (url : string) : Prop :=
  endpoint w url = ApiUnreachable
  \/ exists status_code body,
       endpoint w url = ApiStatus status_code body
       /\ (error_status status_code \/ body = None).

(** A row of the catalog and the split image [e] that it records, for an
    item with the given parts: the row holds, under the keys [object_id],
    [filename] and [filter] in that order, the identifier made of the two
    integers of the item, the name of the file that [e] writes in the
    split directory, and the band for which the extension copied by [e]
    is named. *)
Definition row_of_item (cfg : config) (snapshot subhalo version : string)
    (r : row) (e : event) : Prop :=
  exists s h filt ext,
    PyStr.int snapshot = inr s
    /\ PyStr.int subhalo = inr h
    /\ In filt five_bands
    /\ r = [("object_id", PInt (obj_id s h));
            ("filename", PStr (out_name snapshot subhalo filt version));
            ("filter", PStr filt)]
    /\ e = WriteFits (path_join (split_output_dir cfg)
                        (out_name snapshot subhalo filt version))
                     (PrimaryHDU (data ext) (header ext)) true
    /\ extension_named ("SUBARU_HSC." ++ filt) ext.

(** How the catalog entries [s'] after a stretch [t] of the run relate to
    the entries [s] before it: nothing when no catalog is kept; otherwise
    the old rows, then one new row per split image written in [t], in the
    order of the writes, each new row related by [P] to its image. *)
Definition extends (P : row -> event -> Prop) (s : option (list row))
    (t : list event) (s' : option (list row)) : Prop :=
  match s with
  | Some rows =>
      exists added,
        s' = Some (rows ++ added)%list
        /\ Forall2 P added (filter is_write_fits t)
  | None => s' = None
  end.

(** A row and the split image it records, for the locator [u]. *)
Definition row_of_url (cfg : config) (u : string) (r : row) (e : event)
  : Prop :=
  exists snapshot subhalo version,
    parse_url u = inr (snapshot, subhalo, version)
    /\ row_of_item cfg snapshot subhalo version r e.

(** A row and the split image it records, for some locator of [batch]. *)
Definition row_of_batch (cfg : config) (batch : list string) (r : row)
    (e : event) : Prop :=
  exists u, In u batch /\ row_of_url cfg u r e.

(** An event that, if it is a request, carries the key [key]. *)
Definition carries (key : option string) (e : event) : Prop :=
  forall url k, e = HttpGet url k -> k = key.

(** A split image written for an extension of a container that the world
    served to some request: the image is at the path built from the
    locator, filter and version, it is made of that extension's data and
    header, the extension is named for the filter, and the write
    overwrites. *)
Definition split_image_of (w : world) (cfg : config) (e : event) : Prop :=
  forall path image overwrite,
    e = WriteFits path image overwrite ->
    overwrite = true
    /\ exists i u snapshot subhalo version status_code hdul filt ext,
         parse_url u = inr (snapshot, subhalo, version)
         /\ download w i u = Status status_code (Fits hdul)
         /\ ~ error_status status_code
         /\ In filt filters
         /\ In ext hdul
         /\ header_get (header ext) "EXTNAME" (CardStr "")
            = CardStr ("SUBARU_HSC." ++ filt)
         /\ image = PrimaryHDU (data ext) (header ext)
         /\ path = path_join (split_output_dir cfg)
                     (out_name snapshot subhalo filt version).

(** The same world, in which no URL list can be opened. *)
Definition without_url_list (w : world) : world :=
  {| environ_TNG_API_KEY := environ_TNG_API_KEY w;
     makedirs_ok := makedirs_ok w;
     read_lines := fun _ => None;
     download := download w;
     remove_ok := remove_ok w;
     write_fails := write_fails w;
     endpoint := endpoint w |}.


(* ------------------------------------------------------------------ *)
(** * Properties *)

(** ** The embedding on concrete inputs *)

Example split_examples :
  map (PyStr.split "/") ["a/b//c/"; ""; "/"]
  = [["a"; "b"; ""; "c"; ""]; [""]; [""; ""]].
Proof. reflexivity. Qed.

Example strip_example : PyStr.strip ("  a b " ++ newline) = "a b".
Proof. reflexivity. Qed.

Example int_examples :
  map PyStr.int [" 72"; "-7"; "+7"; "0_7"; "007"; "7_"; "_7"; "7__0"; ""; "+";
                 "- 7"; "0x10"]
  = [inr 72%Z; inr (-7)%Z; inr 7%Z; inr 7%Z; inr 7%Z; inl ValueError;
     inl ValueError; inl ValueError; inl ValueError; inl ValueError;
     inl ValueError; inl ValueError].
Proof. reflexivity. Qed.

Example search_version_examples :
  map search_version ["vv12v3"; "v_v"; "V2"; "skirt_images_hsc_realistic_v2.fits"]
  = [Some "v12"; None; None; Some "v2"].
Proof. reflexivity. Qed.

Example slice_examples :
  let l := [0; 1; 2; 3; 4]%Z in
  PyList.slice_from l 2 = [2; 3; 4]%Z
  /\ PyList.slice_from l 7 = []
  /\ PyList.slice_from l (-2) = [3; 4]%Z
  /\ PyList.slice l 1 3 = [1; 2]%Z
  /\ PyList.slice l (-1) 0 = []
  /\ PyList.slice l (-3) (-1) = [2; 3]%Z
  /\ PyList.slice l (-9) 2 = [0; 1]%Z.
Proof. repeat split. Qed.

Example getitem_examples :
  map (PyList.getitem ["a"; "b"; "c"]) [0; 2; 3; -1; -3; -4]%Z
  = [inr "a"; inr "c"; inl IndexError; inr "c"; inr "a"; inl IndexError].
Proof. reflexivity. Qed.

Example path_join_examples :
  map (fun ab => path_join (fst ab) (snd ab))
      [("a", "b"); ("a/", "b"); ("", "b"); ("a", "/b"); ("a", "")]
  = ["a/b"; "a/b"; "b"; "/b"; "a/"].
Proof. reflexivity. Qed.

Example parse_url_example :
  parse_url Scenario.url_v2 = inr ("72", "0", "v2").
Proof. reflexivity. Qed.

Example load_urls_example :
  load_urls [Scenario.url_v2 ++ newline; newline; "  "; " x "]
  = [Scenario.url_v2; "x"].
Proof. reflexivity. Qed.

(** A whole run: two items, the first with an image for filter G. *)
Example run_example :
  download_and_split_hsc_images
    (Scenario.server
       (fun i _ => match i with
                   | O => Status 200 Scenario.only_G
                   | S _ => Status 200 Scenario.no_band
                   end))
    (Scenario.with_catalog 0)
  = ([MakeDirs "split_images"; MakeDirs "split_images";
      Printed (Downloading "72_0_v2_parent.fits" "split_images");
      HttpGet Scenario.url_v2 (Some "key");
      WriteFile "split_images/72_0_v2_parent.fits" Scenario.only_G;
      WriteFits "split_images/72_0_G_v2_hsc_realistic.fits" Scenario.hdu_G true;
      Printed (Wrote "72_0_G_v2_hsc_realistic.fits");
      Printed (NoExtension "SUBARU_HSC.R" "72_0_v2_parent.fits");
      Printed (NoExtension "SUBARU_HSC.I" "72_0_v2_parent.fits");
      Printed (NoExtension "SUBARU_HSC.Z" "72_0_v2_parent.fits");
      Printed (NoExtension "SUBARU_HSC.Y" "72_0_v2_parent.fits");
      Remove "split_images/72_0_v2_parent.fits";
      Printed (Removed "72_0_v2_parent.fits");
      Sleep;
      Printed (Downloading "72_5_v?_parent.fits" "split_images");
      HttpGet Scenario.url_unversioned (Some "key");
      WriteFile "split_images/72_5_v?_parent.fits" Scenario.no_band;
      Printed (NoExtension "SUBARU_HSC.G" "72_5_v?_parent.fits");
      Printed (NoExtension "SUBARU_HSC.R" "72_5_v?_parent.fits");
      Printed (NoExtension "SUBARU_HSC.I" "72_5_v?_parent.fits");
      Printed (NoExtension "SUBARU_HSC.Z" "72_5_v?_parent.fits");
      Printed (NoExtension "SUBARU_HSC.Y" "72_5_v?_parent.fits");
      Remove "split_images/72_5_v?_parent.fits";
      Printed (Removed "72_5_v?_parent.fits");
      Sleep;
      WriteTable "split_images/catalog.fits"
        ["object_id"; "filename"; "filter"]
        [[("object_id", PInt 72000000);
          ("filename", PStr "72_0_G_v2_hsc_realistic.fits");
          ("filter", PStr "G")]]
        true;
      Printed (WroteCatalog 1 "split_images/catalog.fits")],
     inr tt).
Proof. reflexivity. Qed.

(** Only the parents: no split directory, no split, no pause, no catalog. *)
Example parent_only_example :
  download_and_split_hsc_images
    (Scenario.server (Scenario.always Scenario.only_G))
    {| split_output_dir := "split_images";
       URL_LIST := "urls.txt";
       BATCH_START := Some 1%Z;
       BATCH_SIZE := Some 1%Z;
       API_KEY := Some "key";
       remove_parent := true;
       catalog_path := Some "catalog.fits";
       parent_file_only := true;
       parent_output_dir := Some "parents/" |}
  = ([MakeDirs "parents/";
      Printed (Downloading "72_5_v?_parent.fits" "parents/");
      HttpGet Scenario.url_unversioned (Some "key");
      WriteFile "parents/72_5_v?_parent.fits" Scenario.only_G],
     inr tt).
Proof. reflexivity. Qed.

(** ** The object identifier of a catalog row *)

(** C2: for every snapshot id and every subhalo id in [0, 999_999], the
    identifier [snapshot_id * 1_000_000 + subhalo_id] decodes back:
    floor division by 1_000_000 gives the snapshot id and the remainder
    gives the subhalo id. *)
Theorem obj_id_round_trip (snapshot_id subhalo_id : Z) :
  (0 <= subhalo_id <= 999999)%Z ->
  (obj_id snapshot_id subhalo_id / 1000000 = snapshot_id
   /\ obj_id snapshot_id subhalo_id mod 1000000 = subhalo_id)%Z.
Proof.
  intros Hrange. unfold obj_id. split.
  - symmetry. apply Z.div_unique with (r := subhalo_id); lia.
  - symmetry. apply Z.mod_unique with (q := snapshot_id); lia.
Qed.

Lemma obj_id_round_trip_witness :
  (obj_id 72 999999 / 1000000 = 72 /\ obj_id 72 999999 mod 1000000 = 999999)%Z.
Proof. apply (obj_id_round_trip 72 999999). lia. Defined.

(** ** The batch window *)

Section BatchWindow.
Context {A : Type}.
Implicit Types l : list A.

Lemma clamp_nonneg l (i : Z) :
  (0 <= i)%Z -> PyList.clamp (PyList.len l) i = Z.min i (PyList.len l).
Proof.
  intros Hi. unfold PyList.clamp.
  destruct (Z.ltb_spec i 0); [lia | reflexivity].
Qed.

Lemma slice_from_nonneg l (lo : Z) :
  (0 <= lo)%Z -> PyList.slice_from l lo = skipn (Z.to_nat lo) l.
Proof.
  intros Hlo. unfold PyList.slice_from. rewrite clamp_nonneg by assumption.
  unfold PyList.len. destruct (Z.le_gt_cases lo (Z.of_nat (List.length l))).
  - now rewrite Z.min_l.
  - rewrite Z.min_r, Nat2Z.id by lia.
    rewrite !skipn_all2; [reflexivity | lia | lia].
Qed.

Lemma slice_nonneg l (lo n : Z) :
  (0 <= lo)%Z -> (0 <= n)%Z ->
  PyList.slice l lo (lo + n) = firstn (Z.to_nat n) (skipn (Z.to_nat lo) l).
Proof.
  intros Hlo Hn. unfold PyList.slice.
  rewrite !clamp_nonneg by lia. unfold PyList.len.
  set (total := Z.of_nat (List.length l)).
  destruct (Z.le_gt_cases lo total) as [Hin | Hout].
  - rewrite (Z.min_l lo) by assumption.
    destruct (Z.le_gt_cases (lo + n) total) as [Hfit | Hclip].
    + rewrite Z.min_l by assumption. f_equal. lia.
    + rewrite Z.min_r by lia.
      rewrite !firstn_all2; [reflexivity | | ];
        rewrite length_skipn; subst total; lia.
  - rewrite !Z.min_r by lia. subst total.
    rewrite Nat2Z.id, !skipn_all2 by lia.
    now rewrite !firstn_nil.
Qed.
End BatchWindow.

(** C3: for a non-negative start and a size that is positive or [None], the
    batch is the contiguous run of the URL list from [start], at most [size]
    long; its length is [max 0 (min size (total - start))] (with no [min]
    for [None]) when [start < total], and [0] otherwise; a start at or past
    the end gives the empty batch.  [select_batch] is a total function, so
    no start raises. *)
Theorem select_batch_window (urls : list string) (start : Z) (size : option Z) :
  (0 <= start)%Z ->
  (forall n, size = Some n -> 0 < n)%Z ->
  let total := PyList.len urls in
  let batch := select_batch urls (Some start) size in
  batch = firstn (match size with
                  | Some n => Z.to_nat n
                  | None => List.length urls
                  end) (skipn (Z.to_nat start) urls)
  /\ (forall i : nat, (i < List.length batch)%nat ->
        nth_error batch i = nth_error urls (Z.to_nat start + i))
  /\ PyList.len batch =
       (if start <? total
        then Z.max 0 (match size with
                      | Some n => Z.min n (total - start)
                      | None => total - start
                      end)
        else 0)%Z
  /\ ((total <= start)%Z -> batch = []).
Proof.
  intros Hstart Hsize total batch.
  assert (Hshape : batch = firstn (match size with
                                   | Some n => Z.to_nat n
                                   | None => List.length urls
                                   end) (skipn (Z.to_nat start) urls)).
  { subst batch. unfold select_batch. destruct size as [n | ].
    - specialize (Hsize n eq_refl). apply slice_nonneg; lia.
    - rewrite slice_from_nonneg by assumption.
      symmetry. apply firstn_all2. rewrite length_skipn. lia. }
  split; [exact Hshape | ]. split; [ | split].
  - intros i Hi. rewrite Hshape in Hi |- *.
    rewrite nth_error_firstn.
    rewrite length_firstn in Hi.
    destruct (Nat.ltb_spec i (match size with
                              | Some n => Z.to_nat n
                              | None => List.length urls
                              end)); [ | lia].
    now rewrite nth_error_skipn.
  - rewrite Hshape. unfold PyList.len.
    rewrite length_firstn, length_skipn. fold total.
    subst total. unfold PyList.len.
    destruct (Z.ltb_spec start (Z.of_nat (List.length urls)));
      destruct size as [n | ]; try specialize (Hsize n eq_refl); lia.
  - intros Hout. rewrite Hshape. subst total. unfold PyList.len in Hout.
    rewrite skipn_all2 by lia. apply firstn_nil.
Qed.

Lemma select_batch_window_witness :
  select_batch ["a"; "b"; "c"] (Some 1%Z) (Some 1%Z) = ["b"].
Proof.
  destruct (select_batch_window ["a"; "b"; "c"] 1 (Some 1%Z)) as [H _].
  - lia.
  - intros n Hn. injection Hn as <-. lia.
  - exact H.
Defined.

(** An omitted start is start 0 (lines 149-150). *)
Lemma select_batch_default_start (urls : list string) (size : option Z) :
  select_batch urls None size = select_batch urls (Some 0%Z) size.
Proof. reflexivity. Qed.

(** ** The credential *)

Lemma truthy_opt_false (o : option string) :
  truthy_opt o = false <-> o = None \/ o = Some EmptyString.
Proof.
  split.
  - destruct o as [[ | c r] | ]; cbn; intros H;
      [right; reflexivity | discriminate | left; reflexivity].
  - intros [-> | ->]; reflexivity.
Qed.

Lemma truthy_opt_true (o : option string) :
  truthy_opt o = true <-> exists k, o = Some k /\ k <> EmptyString.
Proof.
  split.
  - destruct o as [[ | c r] | ]; cbn; intros H; try discriminate.
    exists (String c r). split; [reflexivity | discriminate].
  - intros [k [-> Hk]]. destruct k; [contradiction | reflexivity].
Qed.

(** Whatever [_resolve_api_key] returns is a non-empty string. *)
Lemma resolve_api_key_nonempty environ explicit command_name r :
  _resolve_api_key environ explicit command_name = inr r ->
  exists k, r = Some k /\ k <> EmptyString.
Proof.
  unfold _resolve_api_key.
  destruct (truthy_opt (py_or explicit environ)) eqn:Htruth; cbn.
  - intros [= <-]. now apply truthy_opt_true.
  - discriminate.
Qed.

(** An explicit non-empty key wins over the environment. *)
Lemma resolve_api_key_explicit environ k command_name :
  k <> EmptyString ->
  _resolve_api_key environ (Some k) command_name = inr (Some k).
Proof. destruct k; [contradiction | reflexivity]. Qed.

(** C10: an explicit key that is [None] or the empty string counts as
    absent: the result is the one for no explicit key at all, read from
    TNG_API_KEY.  If that variable is unset or empty too, [SystemExit] is
    raised, and [main] then ends with it before any event (no request, no
    file, no directory); if the variable is a non-empty string, that
    string is returned. *)
Theorem resolve_api_key_fallback
    (environ explicit : option string) (command_name : string) :
  explicit = None \/ explicit = Some EmptyString ->
  _resolve_api_key environ explicit command_name
    = _resolve_api_key environ None command_name
  /\ (environ = None \/ environ = Some EmptyString ->
      _resolve_api_key environ explicit command_name
        = inl (SystemExit (requires_an_api_key command_name))
      /\ forall (w : world) (a : args),
           explicit_key a = explicit ->
           environ_TNG_API_KEY w = environ ->
           main w a = ([], inl (SystemExit (requires_an_api_key (command_of a)))))
  /\ (forall k, environ = Some k -> k <> EmptyString ->
      _resolve_api_key environ explicit command_name = inr (Some k)).
Proof.
  intros Habsent.
  assert (Hor : py_or explicit environ = environ).
  { unfold py_or. apply truthy_opt_false in Habsent. now rewrite Habsent. }
  unfold _resolve_api_key. rewrite Hor. cbn [py_or truthy_opt].
  split; [reflexivity | split].
  - intros Hunset. apply truthy_opt_false in Hunset as Hfalse.
    rewrite Hfalse. cbn. split; [reflexivity | ].
    intros w a Ha Hw. unfold main.
    destruct a as [k b e f o | options]; cbn in Ha |- *;
      unfold _resolve_api_key; rewrite Ha, Hw, Hor, Hfalse; reflexivity.
  - intros k -> Hk. destruct k; [contradiction | reflexivity].
Qed.

Lemma resolve_api_key_fallback_witness :
  _resolve_api_key (Some "secret") (Some "") "split" = inr (Some "secret")
  /\ _resolve_api_key None (Some "") "split"
     = inl (SystemExit (requires_an_api_key "split")).
Proof.
  split.
  - apply (resolve_api_key_fallback (Some "secret") (Some "") "split").
    + right; reflexivity.
    + reflexivity.
    + discriminate.
  - apply (resolve_api_key_fallback None (Some "") "split").
    + right; reflexivity.
    + left; reflexivity.
Defined.

(** ** The locator parser *)

Section Indexing.
Context {A : Type}.
Implicit Types l : list A.

(** [l[n]] for a position [n] counted from the front. *)
Lemma getitem_nth l (n : nat) a :
  nth_error l n = Some a -> PyList.getitem l (Z.of_nat n) = inr a.
Proof.
  intros Hnth. unfold PyList.getitem, PyList.len.
  assert (n < List.length l)%nat by (apply nth_error_Some; congruence).
  destruct (Z.ltb_spec (Z.of_nat n) 0); [lia | ].
  destruct (Z.ltb_spec (Z.of_nat n) 0); [lia | ].
  destruct (Z.leb_spec (Z.of_nat (List.length l)) (Z.of_nat n)); [lia | ].
  cbn. now rewrite Nat2Z.id, Hnth.
Qed.

(** [l[n]] raises when the list is too short. *)
Lemma getitem_short l (n : nat) :
  (List.length l <= n)%nat -> PyList.getitem l (Z.of_nat n) = inl IndexError.
Proof.
  intros Hlen. unfold PyList.getitem, PyList.len.
  destruct (Z.ltb_spec (Z.of_nat n) 0); [lia | ].
  destruct (Z.ltb_spec (Z.of_nat n) 0); [lia | ].
  destruct (Z.leb_spec (Z.of_nat (List.length l)) (Z.of_nat n)); [ | lia].
  reflexivity.
Qed.

(** [l[-1]] is the last element of a non-empty list. *)
Lemma getitem_last l d :
  l <> [] -> PyList.getitem l (-1) = inr (last l d).
Proof.
  intros Hne. destruct (exists_last Hne) as [front [a ->]].
  rewrite last_last. unfold PyList.getitem, PyList.len.
  rewrite length_app. cbn [List.length].
  change (-1 <? 0)%Z with true. cbv iota.
  destruct (Z.ltb_spec (-1 + Z.of_nat (List.length front + 1)) 0); [lia | ].
  destruct (Z.leb_spec (Z.of_nat (List.length front + 1))
              (-1 + Z.of_nat (List.length front + 1))); [lia | ].
  cbn [orb].
  replace (Z.to_nat (-1 + Z.of_nat (List.length front + 1)))
    with (List.length front) by lia.
  now rewrite nth_error_app2, Nat.sub_diag by lia.
Qed.
End Indexing.

Lemma split_nonempty (sep : ascii) (s : string) : PyStr.split sep s <> [].
Proof.
  destruct s as [ | c r]; cbn; [discriminate | ].
  destruct (Ascii.eqb c sep); [discriminate | ].
  destruct (PyStr.split sep r); discriminate.
Qed.

Lemma take_digits_split (s : string) :
  all_digits (take_digits s) = true
  /\ exists post, s = take_digits s ++ post.
Proof.
  induction s as [ | c r [IHd [post IHp]]]; cbn.
  - split; [reflexivity | now exists EmptyString].
  - destruct (PyStr.isdigit c) eqn:Hc; cbn.
    + rewrite Hc, IHd. split; [reflexivity | ].
      exists post. now rewrite <- IHp.
    + split; [reflexivity | now exists (String c r)].
Qed.

Lemma search_version_finds (pre : string) (d : ascii) (rest : string) :
  PyStr.isdigit d = true ->
  search_version (pre ++ String "v" (String d rest)) <> None.
Proof.
  intros Hd. induction pre as [ | c pre IH]; cbn.
  - rewrite Hd. cbn. discriminate.
  - destruct (Ascii.eqb c "v" && _); [discriminate | exact IH].
Qed.

(** [re.search] finds nothing exactly when no substring has the shape
    [v<digits>]. *)
Lemma search_version_none (fn : string) :
  search_version fn = None <-> ~ has_version_tag fn.
Proof.
  split.
  - intros Hnone (pre & m & post & -> & ds & -> & Hds & Hall).
    destruct ds as [ | d ds]; [contradiction | ].
    cbn in Hall. apply andb_prop in Hall as [Hd _].
    now apply (search_version_finds pre d (ds ++ post)).
  - induction fn as [ | c r IH]; intros Hno; [reflexivity | ].
    cbn. destruct (Ascii.eqb c "v" && PyStr.truthy (take_digits r)) eqn:Hhead.
    + exfalso. apply Hno.
      apply andb_prop in Hhead as [Hc Hrun].
      apply Ascii.eqb_eq in Hc as ->.
      destruct (take_digits_split r) as [Hall [post Hpost]].
      exists EmptyString, (String "v" (take_digits r)), post. split.
      * cbn. now rewrite <- Hpost.
      * exists (take_digits r). repeat split; [ | exact Hall].
        intros Hempty. now rewrite Hempty in Hrun.
    + apply IH. intros (pre & m & post & -> & Htag).
      apply Hno. now exists (String c pre), m, post.
Qed.

Lemma prefix_app (n post : string) : String.prefix n (n ++ post) = true.
Proof.
  induction n as [ | c n IH]; cbn; [now destruct post | ].
  destruct (ascii_dec c c); [exact IH | contradiction].
Qed.

Lemma contains_app (n pre post : string) :
  PyStr.contains n (pre ++ n ++ post) = true.
Proof.
  induction pre as [ | c pre IH].
  - cbn [append]. destruct (n ++ post) eqn:E; cbn [PyStr.contains];
      rewrite <- E, prefix_app; reflexivity.
  - cbn [append PyStr.contains]. rewrite IH. apply orb_true_r.
Qed.

Lemma append_assoc (a b c : string) : (a ++ b) ++ c = a ++ (b ++ c).
Proof. induction a as [ | x a IH]; cbn; [reflexivity | now rewrite IH]. Qed.

(** What [parse_url] returns on a locator of nine components or more. *)
Lemma parse_url_ok (u snapshot subhalo : string) :
  nth_error (PyStr.split "/" u) 6 = Some snapshot ->
  nth_error (PyStr.split "/" u) 8 = Some subhalo ->
  parse_url u
    = inr (snapshot, subhalo,
           match search_version (final_segment u) with
           | Some g => g
           | None => "v?"
           end).
Proof.
  intros H6 H8. unfold parse_url.
  apply getitem_nth in H6, H8.
  change (Z.of_nat 6) with 6%Z in H6. change (Z.of_nat 8) with 8%Z in H8.
  rewrite H6, H8. cbn [Res.bind].
  rewrite (getitem_last _ EmptyString (split_nonempty _ _)).
  reflexivity.
Qed.

(** A locator of fewer than nine components makes [parse_url] raise. *)
Lemma parse_url_short (u : string) :
  (List.length (PyStr.split "/" u) <= 8)%nat -> parse_url u = inl IndexError.
Proof.
  intros Hlen. unfold parse_url.
  apply getitem_short in Hlen. change (Z.of_nat 8) with 8%Z in Hlen.
  destruct (nth_error (PyStr.split "/" u) 6) as [snapshot | ] eqn:H6.
  - apply getitem_nth in H6. change (Z.of_nat 6) with 6%Z in H6.
    rewrite H6. cbn [Res.bind]. now rewrite Hlen.
  - apply nth_error_None, getitem_short in H6.
    change (Z.of_nat 6) with 6%Z in H6. now rewrite H6.
Qed.

(** ** Computations *)

Section Computations.
Context {A B : Type}.

Lemma bind_ok (t : list event) (a : A) (f : A -> M B) :
  bind (t, inr a) f = ((t ++ trace (f a))%list, outcome (f a)).
Proof. cbn. now destruct (f a). Qed.

Lemma bind_raise (t : list event) (e : exn) (f : A -> M B) :
  bind (t, inl e) f = (t, inl e).
Proof. reflexivity. Qed.

Lemma trace_bind (m : M A) (f : A -> M B) :
  trace (bind m f)
  = (trace m ++ match outcome m with
                | inr a => trace (f a)
                | inl _ => []
                end)%list.
Proof.
  destruct m as [t [e | a]]; cbn.
  - now rewrite app_nil_r.
  - now destruct (f a).
Qed.

Lemma outcome_bind (m : M A) (f : A -> M B) :
  outcome (bind m f)
  = match outcome m with
    | inr a => outcome (f a)
    | inl e => inl e
    end.
Proof. destruct m as [t [e | a]]; cbn; [reflexivity | now destruct (f a)]. Qed.
End Computations.

Lemma M_eta {A} (m : M A) : m = (trace m, outcome m).
Proof. now destruct m. Qed.

(** ** Extension names *)

Lemma card_eq_str_true (v : card) (s : string) :
  card_eq_str v s = true -> v = CardStr s.
Proof.
  destruct v as [t | z | b]; cbn; try discriminate.
  intros Heq. apply String.eqb_eq in Heq. now subst.
Qed.

(** The test of line 192 holds of an HDU exactly when the HDU is named
    as wanted (the wanted name is never empty). *)
Lemma has_extname_named (name : string) (h : hdu) :
  name <> EmptyString ->
  has_extname name h = true -> extension_named name h.
Proof.
  intros Hname. unfold has_extname, extension_named.
  induction (header h) as [ | [k v] r IH]; cbn [header_get].
  - cbn. destruct name; [now destruct Hname | discriminate].
  - destruct (String.eqb k "EXTNAME") eqn:Hk.
    + intros Hv. apply card_eq_str_true in Hv. apply String.eqb_eq in Hk.
      subst. exists [], r. split; [reflexivity | intros c []].
    + intros Hr. destruct (IH Hr) as (before & after & -> & Hbefore).
      exists ((k, v) :: before), after. split; [reflexivity | ].
      intros c [<- | Hc]; [ | now apply Hbefore].
      cbn. intros ->. discriminate.
Qed.

Lemma named_has_extname (name : string) (h : hdu) :
  extension_named name h -> has_extname name h = true.
Proof.
  unfold has_extname, extension_named.
  intros (before & after & -> & Hbefore).
  induction before as [ | [k v] before IH]; cbn [app header_get].
  - cbn. apply String.eqb_refl.
  - destruct (String.eqb k "EXTNAME") eqn:Hk.
    + apply String.eqb_eq in Hk.
      now destruct (Hbefore (k, v) (or_introl eq_refl)).
    + apply IH. intros c Hc. apply Hbefore. now right.
Qed.

(** The search of lines 191-194 in a container that has the band finds
    an HDU of the container named for the band. *)
Lemma find_band (band : string) (hdul : list hdu) :
  has_band band hdul ->
  exists sci_hdu,
    find (has_extname (target_ext band)) hdul = Some sci_hdu
    /\ In sci_hdu hdul
    /\ extension_named ("SUBARU_HSC." ++ band) sci_hdu.
Proof.
  intros (h & Hin & Hnamed). apply named_has_extname in Hnamed.
  destruct (find (has_extname (target_ext band)) hdul) as [sci_hdu | ]
    eqn:Hfind.
  - exists sci_hdu. split; [reflexivity | ].
    apply find_some in Hfind as [Hsci Htest]. split; [exact Hsci | ].
    apply has_extname_named; [discriminate | exact Htest].
  - apply (find_none _ _ Hfind) in Hin. unfold target_ext in Hin.
    congruence.
Qed.

(** The search in a container that lacks the band finds nothing. *)
Lemma find_no_band (band : string) (hdul : list hdu) :
  ~ has_band band hdul ->
  find (has_extname (target_ext band)) hdul = None.
Proof.
  intros Hlacks.
  destruct (find (has_extname (target_ext band)) hdul) as [h | ] eqn:Hfind;
    [ | reflexivity].
  apply find_some in Hfind as [Hin Htest]. destruct Hlacks.
  exists h. split; [exact Hin | ].
  apply has_extname_named; [discriminate | exact Htest].
Qed.

(** ** Requests and their status *)

Lemma raises_for_status_error (status_code : Z) :
  error_status status_code -> raises_for_status status_code = true.
Proof. unfold error_status, raises_for_status. lia. Qed.

Lemma raises_for_status_other (status_code : Z) :
  ~ error_status status_code -> raises_for_status status_code = false.
Proof. unfold error_status, raises_for_status. lia. Qed.

Lemma requests_get_passes (w : world) (cfg : config) (i : nat) (u : string)
    (status_code : Z) (body : content) :
  download w i u = Status status_code body ->
  ~ error_status status_code ->
  requests_get w cfg i u = ([HttpGet u (API_KEY cfg)], inr body).
Proof.
  intros Hget Hcode. unfold requests_get.
  now rewrite Hget, (raises_for_status_other _ Hcode).
Qed.

Lemma requests_get_refused (w : world) (cfg : config) (i : nat) (u : string)
    (status_code : Z) (body : content) :
  download w i u = Status status_code body ->
  error_status status_code ->
  requests_get w cfg i u = ([HttpGet u (API_KEY cfg)], inl HTTPError).
Proof.
  intros Hget Hcode. unfold requests_get.
  now rewrite Hget, (raises_for_status_error _ Hcode).
Qed.

Lemma count_app K (t t' : list event) :
  count K (t ++ t') = (count K t + count K t')%nat.
Proof. unfold count. now rewrite filter_app, length_app. Qed.

Lemma count_0 K (t : list event) : (count K t <= 0)%nat -> filter K t = [].
Proof. unfold count. destruct (filter K t); cbn; [reflexivity | lia]. Qed.

Section Bounds.
Variable K : event -> bool.

Lemma bounded_ret {A} (a : A) n : bounded K n (ret a).
Proof. unfold bounded; cbn; lia. Qed.

Lemma bounded_raise {A} (e : exn) n : bounded K n (@raise A e).
Proof. unfold bounded; cbn; lia. Qed.

Lemma bounded_lift {A} (r : result A) n : bounded K n (lift r).
Proof. unfold bounded; cbn; lia. Qed.

Lemma bounded_emit_other e n : K e = false -> bounded K n (emit e).
Proof. intros He. unfold bounded, count; cbn. rewrite He. cbn; lia. Qed.

Lemma bounded_emit e n : bounded K (S n) (emit e).
Proof. unfold bounded, count; cbn. destruct (K e); cbn; lia. Qed.

Lemma bounded_write w e n : K e = false -> bounded K n (write w e).
Proof.
  intros He. unfold bounded, count, write.
  destruct (write_fails w e); cbn; rewrite He; cbn; lia.
Qed.

Lemma bounded_bind {A B} (m : M A) (f : A -> M B) (n n' k : nat) :
  bounded K n m -> (forall a, bounded K n' (f a)) -> (n + n' <= k)%nat ->
  bounded K k (bind m f).
Proof.
  unfold bounded. intros Hm Hf Hk.
  rewrite trace_bind, count_app.
  destruct (outcome m) as [e | a]; [cbn; lia | ].
  specialize (Hf a). lia.
Qed.

Lemma bounded_bind_0 {A B} (m : M A) (f : A -> M B) :
  bounded K 0 m -> (forall a, bounded K 0 (f a)) -> bounded K 0 (bind m f).
Proof. intros Hm Hf. now apply bounded_bind with (n := 0) (n' := 0). Qed.

Lemma bounded_for_each {A St} (body : nat -> A -> St -> M St) (c : nat) :
  (forall i a s, bounded K c (body i a s)) ->
  forall l i s, bounded K (c * List.length l) (for_each body i l s).
Proof.
  intros Hbody. induction l as [ | a r IH]; intros i s; cbn [for_each].
  - apply bounded_ret.
  - apply bounded_bind with (n := c) (n' := c * List.length r).
    + apply Hbody.
    + intros s'. apply IH.
    + cbn [List.length]. lia.
Qed.

Lemma bounded_for_each_0 {A St} (body : nat -> A -> St -> M St) :
  (forall i a s, bounded K 0 (body i a s)) ->
  forall l i s, bounded K 0 (for_each body i l s).
Proof.
  intros Hbody l i s.
  now apply (bounded_for_each body 0 Hbody l i s).
Qed.
End Bounds.

(** Discharges [bounded K 0 m] when no event that [m] can emit is of kind
    [K], going through binds, loops and case distinctions. *)
Ltac quiet :=
  repeat first
    [ apply bounded_ret
    | apply bounded_raise
    | apply bounded_lift
    | apply bounded_emit_other; reflexivity
    | apply bounded_write; reflexivity
    | apply bounded_for_each_0; intros ? ? ?
    | apply bounded_bind_0; [ | intros ? ]
    | match goal with
      | |- bounded _ _ (match ?x with _ => _ end) => destruct x
      end ].

Section Loops.
Context {A St : Type}.
Variable body : nat -> A -> St -> M St.

Lemma for_each_app (l l' : list A) (i : nat) (s : St) :
  for_each body i (l ++ l') s
  = bind (for_each body i l s)
         (fun s' => for_each body (i + List.length l) l' s').
Proof.
  revert i s. induction l as [ | a r IH]; intros i s; cbn [for_each app].
  - cbn. rewrite Nat.add_0_r. now destruct (for_each body i l' s).
  - destruct (body i a s) as [t [e | s']]; [reflexivity | ].
    rewrite !bind_ok, IH. cbn [List.length].
    replace (i + S (List.length r))%nat with (S i + List.length r)%nat by lia.
    destruct (for_each body (S i) r s') as [t' [e | s'']].
    + cbn. reflexivity.
    + rewrite !bind_ok. cbn [trace outcome fst snd].
      now rewrite bind_ok, app_assoc.
Qed.

(** A property of the loop state that each round keeps holds at the end. *)
Lemma for_each_invariant (P : St -> Prop) :
  (forall i a s s', P s -> outcome (body i a s) = inr s' -> P s') ->
  forall l i s s',
    P s -> outcome (for_each body i l s) = inr s' -> P s'.
Proof.
  intros Hkeep. induction l as [ | a r IH]; intros i s s' Hs; cbn [for_each].
  - cbn. now intros [= <-].
  - rewrite outcome_bind.
    destruct (outcome (body i a s)) as [e | s1] eqn:Hround; [discriminate | ].
    apply IH. now apply (Hkeep i a s).
Qed.

(** When the round of the item at position [n] cannot succeed, the loop
    does what it does on the list cut after that item. *)
Lemma for_each_cut (u : A) :
  forall l n i s,
    nth_error l n = Some u ->
    (forall s', exists e, outcome (body (i + n) u s') = inl e) ->
    for_each body i l s = for_each body i (firstn (S n) l) s.
Proof.
  induction l as [ | a r IH]; intros n i s Hnth Hfail; [reflexivity | ].
  destruct n as [ | n]; cbn in Hnth |- *.
  - injection Hnth as ->. rewrite Nat.add_0_r in Hfail.
    destruct (Hfail s) as [e He].
    destruct (body i u s) as [t [e' | s']]; [reflexivity | discriminate].
  - destruct (body i a s) as [t [e | s1]]; [reflexivity | ].
    rewrite !bind_ok. rewrite (IH n (S i) s1 Hnth); [reflexivity | ].
    intros s'. replace (S i + n)%nat with (i + S n)%nat by lia.
    apply Hfail.
Qed.

(** When the round of the item at position [n] cannot succeed, the loop
    ends with an exception, and of every kind of event of which a round
    emits at most [c], it has emitted at most [c * (n + 1)]. *)
Lemma for_each_stops (K : event -> bool) (c : nat) (u : A) :
  (forall i a s, bounded K c (body i a s)) ->
  forall l n i s,
    nth_error l n = Some u ->
    (forall s', exists e, outcome (body (i + n) u s') = inl e) ->
    (exists e, outcome (for_each body i l s) = inl e)
    /\ bounded K (c * (n + 1)) (for_each body i l s).
Proof.
  intros Hbody. induction l as [ | a r IH]; intros n i s Hnth Hfail.
  - destruct n; discriminate.
  - cbn [for_each]. destruct n as [ | n]; cbn in Hnth.
    + injection Hnth as ->. rewrite Nat.add_0_r in Hfail.
      destruct (Hfail s) as [e He]. split.
      * exists e. now rewrite outcome_bind, He.
      * unfold bounded. rewrite trace_bind, He, app_nil_r.
        specialize (Hbody i u s). unfold bounded in Hbody. lia.
    + assert (Hfail' : forall s', exists e,
                 outcome (body (S i + n) u s') = inl e).
      { intros s'. replace (S i + n)%nat with (i + S n)%nat by lia.
        apply Hfail. }
      split.
      * rewrite outcome_bind. destruct (outcome (body i a s)) as [e | s1].
        -- now exists e.
        -- apply (IH n (S i) s1 Hnth Hfail').
      * apply bounded_bind with (n := c) (n' := (c * (n + 1))%nat).
        -- apply Hbody.
        -- intros s1. apply (IH n (S i) s1 Hnth Hfail').
        -- lia.
Qed.
End Loops.

(** ** The band splitter *)

Section Splitter.
Variable w : world.
Variable cfg : config.

Lemma split_filter_missing snapshot subhalo version hdul k filt entries :
  find (has_extname (target_ext filt)) hdul = None ->
  split_filter w cfg snapshot subhalo version hdul k filt entries
  = ([warning snapshot subhalo version filt], inr entries).
Proof. intros Hfind. unfold split_filter. now rewrite Hfind. Qed.

Lemma split_all_missing snapshot subhalo version hdul l k entries :
  (forall filt, In filt l ->
     find (has_extname (target_ext filt)) hdul = None) ->
  for_each (split_filter w cfg snapshot subhalo version hdul) k l entries
  = (map (warning snapshot subhalo version) l, inr entries).
Proof.
  revert k. induction l as [ | filt r IH]; intros k Hnone; cbn [for_each map].
  - reflexivity.
  - rewrite split_filter_missing by (apply Hnone; now left).
    rewrite bind_ok, IH by (intros f Hf; apply Hnone; now right).
    reflexivity.
Qed.

Lemma no_filter_found_spec hdul :
  no_filter_found hdul = true ->
  forall filt, In filt filters ->
    find (has_extname (target_ext filt)) hdul = None.
Proof.
  unfold no_filter_found. intros Hall filt Hin.
  rewrite forallb_forall in Hall. specialize (Hall filt Hin).
  now destruct (find (has_extname (target_ext filt)) hdul).
Qed.

Lemma cleanup_ok i parent_path fname :
  outcome (cleanup w cfg i parent_path fname) = inr tt.
Proof.
  unfold cleanup. destruct (remove_parent cfg); [ | reflexivity].
  cbn. now destruct (remove_ok w i parent_path).
Qed.

Lemma process_item_bandless i u snapshot subhalo version status_code hdul
    entries :
  parent_file_only cfg = false ->
  parse_url u = inr (snapshot, subhalo, version) ->
  download w i u = Status status_code (Fits hdul) ->
  ~ error_status status_code ->
  write_fails w (WriteFile (path_join (parent_dir cfg)
                              (fname_parent snapshot subhalo version))
                           (Fits hdul)) = None ->
  no_filter_found hdul = true ->
  process_item w cfg i u entries
  = (bandless_trace w cfg i u snapshot subhalo version hdul, inr entries).
Proof.
  intros Hsplit Hparse Hget Hcode Hwrite Hnone.
  unfold process_item, bandless_trace.
  rewrite Hparse, (requests_get_passes w cfg i u _ _ Hget Hcode), Hsplit.
  cbn -[for_each filters path_join fname_parent cleanup warning parent_dir
        write].
  unfold write. rewrite Hwrite.
  cbn -[for_each filters path_join fname_parent cleanup warning parent_dir].
  rewrite (split_all_missing _ _ _ _ _ _ _ (no_filter_found_spec _ Hnone)).
  pose proof (cleanup_ok i
                (path_join (parent_dir cfg)
                   (fname_parent snapshot subhalo version))
                (fname_parent snapshot subhalo version)) as Hclean.
  destruct (cleanup w cfg i _ _) as [t [e | []]]; [discriminate | ].
  reflexivity.
Qed.

(** Removing the parent only removes and prints. *)
Lemma cleanup_quiet K i parent_path fname :
  (forall p, K (Remove p) = false) ->
  (forall m, K (Printed m) = false) ->
  bounded K 0 (cleanup w cfg i parent_path fname).
Proof.
  intros Hremove Hprint. unfold cleanup.
  destruct (remove_parent cfg); [ | apply bounded_ret].
  apply bounded_bind_0; [now apply bounded_emit_other | intros _].
  destruct (remove_ok w i parent_path); now apply bounded_emit_other.
Qed.

(** No round of either loop writes a catalog table. *)
Lemma split_filter_no_table snapshot subhalo version hdul k filt entries :
  bounded is_write_table 0
    (split_filter w cfg snapshot subhalo version hdul k filt entries).
Proof. unfold split_filter. quiet. Qed.

Lemma process_item_no_table i u entries :
  bounded is_write_table 0 (process_item w cfg i u entries).
Proof.
  unfold process_item, requests_get, fits_open. quiet.
  - apply split_filter_no_table.
  - now apply cleanup_quiet.
Qed.

(** A round fetches at most one URL, once. *)
Lemma split_filter_no_get snapshot subhalo version hdul k filt entries :
  bounded is_http_get 0
    (split_filter w cfg snapshot subhalo version hdul k filt entries).
Proof. unfold split_filter. quiet. Qed.

Lemma process_item_one_get i u entries :
  bounded is_http_get 1 (process_item w cfg i u entries).
Proof.
  unfold process_item.
  apply bounded_bind with (n := 0) (n' := 1); [quiet | | lia].
  intros [[snapshot subhalo] version].
  apply bounded_bind with (n := 0) (n' := 1); [quiet | intros _ | lia].
  apply bounded_bind with (n := 1) (n' := 0); [ | intros body | lia].
  - unfold requests_get.
    apply bounded_bind with (n := 1) (n' := 0);
      [apply bounded_emit | intros _; quiet | lia].
  - unfold fits_open. quiet.
    + apply split_filter_no_get.
    + now apply cleanup_quiet.
Qed.

(** Preparing the batch neither fetches nor writes a table. *)
Lemma resolve_batch_quiet K :
  (forall dir, K (MakeDirs dir) = false) ->
  bounded K 0 (resolve_batch w cfg).
Proof.
  intros HK. unfold resolve_batch, os_makedirs, open_url_list.
  repeat first
    [ apply bounded_emit_other; apply HK
    | apply bounded_ret | apply bounded_raise
    | apply bounded_bind_0; [ | intros ? ]
    | match goal with
      | |- bounded _ _ (match ?x with _ => _ end) => destruct x
      end ].
Qed.

Lemma bandless_trace_no_fits i u snapshot subhalo version hdul :
  count is_write_fits
    (bandless_trace w cfg i u snapshot subhalo version hdul)
  = 0%nat.
Proof.
  unfold bandless_trace. rewrite !count_app.
  pose proof (cleanup_quiet is_write_fits i
                (path_join (parent_dir cfg)
                   (fname_parent snapshot subhalo version))
                (fname_parent snapshot subhalo version)
                (fun _ => eq_refl) (fun _ => eq_refl)) as Hclean.
  unfold bounded in Hclean.
  change (count is_write_fits
            [Printed (Downloading (fname_parent snapshot subhalo version)
                        (parent_dir cfg));
             HttpGet u (API_KEY cfg);
             WriteFile (path_join (parent_dir cfg)
                          (fname_parent snapshot subhalo version))
                       (Fits hdul)]) with 0%nat.
  change (count is_write_fits
            (map (warning snapshot subhalo version) filters)) with 0%nat.
  change (count is_write_fits [Sleep]) with 0%nat.
  lia.
Qed.

(** A catalog that is a list stays a list through a round. *)
Lemma split_filter_keeps_list snapshot subhalo version hdul k filt s s' :
  (exists rows, s = Some rows) ->
  outcome (split_filter w cfg snapshot subhalo version hdul k filt s) = inr s' ->
  exists rows, s' = Some rows.
Proof.
  intros [rows ->]. unfold split_filter, write.
  destruct (find _ hdul) as [sci_hdu | ]; cbn.
  - destruct (write_fails w _) as [x | ]; cbn; [discriminate | ].
    destruct (PyStr.int snapshot) as [e | a]; cbn; [discriminate | ].
    destruct (PyStr.int subhalo) as [e | b]; cbn; [discriminate | ].
    intros [= <-]. eauto.
  - intros [= <-]. eauto.
Qed.

Lemma process_item_keeps_list i u s s' :
  (exists rows, s = Some rows) ->
  outcome (process_item w cfg i u s) = inr s' ->
  exists rows, s' = Some rows.
Proof.
  intros Hs. unfold process_item.
  rewrite outcome_bind. cbn [lift outcome snd].
  destruct (parse_url u) as [e | [[snapshot subhalo] version]];
    [discriminate | ].
  rewrite outcome_bind. cbn [emit outcome snd].
  rewrite outcome_bind.
  destruct (outcome (requests_get w cfg i u)) as [e | body];
    [discriminate | ].
  rewrite outcome_bind.
  destruct (outcome (write w _)) as [e | []]; [discriminate | ].
  destruct (negb (parent_file_only cfg)).
  - rewrite outcome_bind.
    destruct (outcome (fits_open body)) as [e | hdul]; [discriminate | ].
    rewrite outcome_bind.
    destruct (outcome (for_each _ 0 filters s)) as [e | s1] eqn:Hloop;
      [discriminate | ].
    rewrite outcome_bind, cleanup_ok, outcome_bind. cbn.
    intros [= <-].
    eapply (for_each_invariant _ (fun s => exists rows, s = Some rows));
      [ | exact Hs | exact Hloop].
    intros k filt x x'. apply split_filter_keeps_list.
  - cbn. now intros [= <-].
Qed.

(** An item answered with a client or server error status cannot be
    processed: its round ends with an exception, which is [HTTPError] as
    soon as the locator parses. *)
Lemma process_item_bad_status i u status_code body entries :
  download w i u = Status status_code body ->
  error_status status_code ->
  (exists e, outcome (process_item w cfg i u entries) = inl e)
  /\ forall snapshot subhalo version,
       parse_url u = inr (snapshot, subhalo, version) ->
       process_item w cfg i u entries
       = ([Printed (Downloading (fname_parent snapshot subhalo version)
                      (parent_dir cfg));
           HttpGet u (API_KEY cfg)],
          inl HTTPError).
Proof.
  intros Hget Hcode. unfold process_item.
  rewrite (requests_get_refused w cfg i u _ _ Hget Hcode).
  destruct (parse_url u) as [e | [[snapshot subhalo] version]]; split.
  - now exists e.
  - discriminate.
  - now exists HTTPError.
  - now intros ? ? ? [= <- <- <-].
Qed.
End Splitter.

(** C5: a locator with [72] as component 6, [0] as component 8 and
    [skirt_images_hsc_realistic_v2.fits] as last component parses to
    snapshot [72], subhalo [0] and version [v2]; the parent file is named
    [72_0_v2_parent.fits] and, when the container holds an extension
    named [SUBARU_HSC.G], the split file is named
    [72_0_G_v2_hsc_realistic.fits] and holds an extension of that name.
    Both names follow the templates snapshot, subhalo, (filter,) version
    joined by underscores before the fixed suffix, and they are the names
    the pipeline writes to. *)
Theorem scenario_snapshot_72_subhalo_0 (u : string) :
  nth_error (PyStr.split "/" u) 6 = Some "72" ->
  nth_error (PyStr.split "/" u) 8 = Some "0" ->
  final_segment u = "skirt_images_hsc_realistic_v2.fits" ->
  parse_url u = inr ("72", "0", "v2")
  /\ PyStr.int "72" = inr 72%Z
  /\ PyStr.int "0" = inr 0%Z
  /\ fname_parent "72" "0" "v2" = "72_0_v2_parent.fits"
  /\ out_name "72" "0" "G" "v2" = "72_0_G_v2_hsc_realistic.fits"
  /\ (forall snapshot subhalo filt version,
        fname_parent snapshot subhalo version
        = snapshot ++ "_" ++ subhalo ++ "_" ++ version ++ "_parent" ++ ".fits"
        /\ out_name snapshot subhalo filt version
           = snapshot ++ "_" ++ subhalo ++ "_" ++ filt ++ "_" ++ version
                      ++ "_" ++ "hsc_realistic.fits")
  /\ forall (w : world) (cfg : config) (i : nat) (status_code : Z)
            (hdul : list hdu) (entries : option (list row)),
       parent_file_only cfg = false ->
       download w i u = Status status_code (Fits hdul) ->
       ~ error_status status_code ->
       write_fails w (WriteFile (path_join (parent_dir cfg)
                                   "72_0_v2_parent.fits") (Fits hdul))
       = None ->
       has_band "G" hdul ->
       exists sci_hdu rest,
         In sci_hdu hdul
         /\ extension_named "SUBARU_HSC.G" sci_hdu
         /\ trace (process_item w cfg i u entries)
            = ([Printed (Downloading "72_0_v2_parent.fits" (parent_dir cfg));
                HttpGet u (API_KEY cfg);
                WriteFile (path_join (parent_dir cfg) "72_0_v2_parent.fits")
                          (Fits hdul);
                WriteFits (path_join (split_output_dir cfg)
                                     "72_0_G_v2_hsc_realistic.fits")
                          (PrimaryHDU (data sci_hdu) (header sci_hdu)) true]
                 ++ rest)%list.
Proof.
  intros H6 H8 Hlast.
  assert (Hparse : parse_url u = inr ("72", "0", "v2")).
  { rewrite (parse_url_ok u _ _ H6 H8), Hlast. reflexivity. }
  repeat split; try reflexivity; try exact Hparse.
  intros w cfg i status_code hdul entries Hsplit Hget Hcode Hwrite Hband.
  destruct (find_band "G" hdul Hband) as (sci_hdu & Hfind & Hin & Hnamed).
  exists sci_hdu.
  assert (Htrace : exists rest,
             trace (process_item w cfg i u entries)
             = ([Printed (Downloading "72_0_v2_parent.fits" (parent_dir cfg));
                 HttpGet u (API_KEY cfg);
                 WriteFile (path_join (parent_dir cfg) "72_0_v2_parent.fits")
                           (Fits hdul);
                 WriteFits (path_join (split_output_dir cfg)
                                      "72_0_G_v2_hsc_realistic.fits")
                           (PrimaryHDU (data sci_hdu) (header sci_hdu)) true]
                  ++ rest)%list);
    [ | destruct Htrace as [rest Htrace]; now exists rest].
  unfold process_item.
  rewrite Hparse, (requests_get_passes w cfg i u _ _ Hget Hcode), Hsplit.
  unfold filters.
  cbn -[path_join parent_dir for_each split_filter write cleanup].
  unfold write at 1. rewrite Hwrite.
  cbn -[path_join parent_dir for_each split_filter write cleanup].
  cbn [for_each]. unfold split_filter at 1. rewrite Hfind.
  unfold write at 1.
  destruct (write_fails w (WriteFits _ _ _)) as [x | ].
  - cbn -[path_join parent_dir]. eexists; reflexivity.
  - destruct entries as [rows | ];
      cbn -[path_join parent_dir split_filter cleanup];
      match goal with
      | |- context [bind (split_filter ?a ?c ?s ?h ?v ?l ?k ?f ?x) ?g] =>
          destruct (bind (split_filter a c s h v l k f x) g) as [t1 [e1 | s1]]
      end;
      cbn -[path_join parent_dir cleanup];
      try (destruct (cleanup _ _ _ _ _) as [t2 [e2 | []]];
           cbn -[path_join parent_dir]);
      eexists; reflexivity.
Qed.

Lemma scenario_snapshot_72_subhalo_0_witness :
  let u := "https://www.tng-project.org/api/TNG50-1/snapshots/72/subhalos/0/skirt/skirt_images_hsc_realistic_v2.fits" in
  parse_url u = inr ("72", "0", "v2")
  /\ exists rest,
       trace (process_item (Scenario.server (Scenario.always Scenario.only_G))
                (Scenario.with_catalog 0) 0 u None)
       = ([Printed (Downloading "72_0_v2_parent.fits" "split_images");
           HttpGet u (Some "key");
           WriteFile "split_images/72_0_v2_parent.fits" Scenario.only_G;
           WriteFits "split_images/72_0_G_v2_hsc_realistic.fits"
                     Scenario.hdu_G true]
            ++ rest)%list.
Proof.
  intros u.
  destruct (scenario_snapshot_72_subhalo_0 u eq_refl eq_refl eq_refl)
    as (Hparse & _ & _ & _ & _ & _ & Hround).
  split; [exact Hparse | ].
  destruct (Hround (Scenario.server (Scenario.always Scenario.only_G))
              (Scenario.with_catalog 0) 0%nat 200%Z [Scenario.hdu_G] None
              eq_refl eq_refl)
    as (sci_hdu & rest & Hin & _ & Htrace).
  - unfold error_status. lia.
  - reflexivity.
  - exists Scenario.hdu_G. split; [now left | ].
    exists [("XTENSION", CardStr "IMAGE")], []. split; [reflexivity | ].
    intros c [<- | []]. discriminate.
  - destruct Hin as [<- | []]. exists rest. exact Htrace.
Defined.

(** The names in which the version appears, split around it. *)
Lemma fname_parent_version (snapshot subhalo version : string) :
  fname_parent snapshot subhalo version
  = (snapshot ++ "_" ++ subhalo ++ "_") ++ version ++ "_parent.fits".
Proof. unfold fname_parent. now rewrite !append_assoc. Qed.

Lemma out_name_version (snapshot subhalo filt version : string) :
  out_name snapshot subhalo filt version
  = (snapshot ++ "_" ++ subhalo ++ "_" ++ filt ++ "_")
      ++ version ++ "_hsc_realistic.fits".
Proof. unfold out_name. now rewrite !append_assoc. Qed.

(** C4, as stated, fails: a locator of fewer than nine components has no
    component 6 or 8, and [parse_url] raises [IndexError] on it whether or
    not its last component carries a version. *)
Lemma parse_url_raises_on_short_locator :
  ~ has_version_tag (final_segment "https://example.org/files/skirt_images.fits")
  /\ parse_url "https://example.org/files/skirt_images.fits" = inl IndexError.
Proof.
  split.
  - apply search_version_none. reflexivity.
  - reflexivity.
Qed.

(** C4, amended: for every locator of at least nine components whose last
    component contains no substring of the shape [v<digits>], [parse_url]
    does not raise; it returns components 6 and 8 with the version ["v?"],
    the parent and split file names contain ["v?"] as it is, and the round
    of the pipeline for that locator announces the parent name so built. *)
Theorem parse_url_sentinel (u : string) :
  (9 <= List.length (PyStr.split "/" u))%nat ->
  ~ has_version_tag (final_segment u) ->
  exists snapshot subhalo,
    nth_error (PyStr.split "/" u) 6 = Some snapshot
    /\ nth_error (PyStr.split "/" u) 8 = Some subhalo
    /\ parse_url u = inr (snapshot, subhalo, "v?")
    /\ fname_parent snapshot subhalo "v?"
       = snapshot ++ "_" ++ subhalo ++ "_v?_parent.fits"
    /\ PyStr.contains "v?" (fname_parent snapshot subhalo "v?") = true
    /\ (forall filt,
          out_name snapshot subhalo filt "v?"
          = snapshot ++ "_" ++ subhalo ++ "_" ++ filt
                     ++ "_v?_hsc_realistic.fits"
          /\ PyStr.contains "v?" (out_name snapshot subhalo filt "v?") = true)
    /\ forall (w : world) (cfg : config) (i : nat)
              (entries : option (list row)),
         exists rest,
           trace (process_item w cfg i u entries)
           = Printed (Downloading (fname_parent snapshot subhalo "v?")
                        (parent_dir cfg)) :: rest.
Proof.
  intros Hlen Hno.
  destruct (nth_error (PyStr.split "/" u) 6) as [snapshot | ] eqn:H6;
    [ | apply nth_error_None in H6; lia].
  destruct (nth_error (PyStr.split "/" u) 8) as [subhalo | ] eqn:H8;
    [ | apply nth_error_None in H8; lia].
  exists snapshot, subhalo.
  assert (Hparse : parse_url u = inr (snapshot, subhalo, "v?")).
  { rewrite (parse_url_ok u _ _ H6 H8).
    apply search_version_none in Hno. now rewrite Hno. }
  repeat split; try reflexivity; try exact Hparse.
  - rewrite fname_parent_version. apply contains_app.
  - rewrite out_name_version. apply contains_app.
  - intros w cfg i entries. unfold process_item. rewrite Hparse.
    rewrite trace_bind. cbn [lift trace outcome fst snd app].
    rewrite trace_bind. cbn [emit trace fst app].
    eexists; reflexivity.
Qed.

Lemma parse_url_sentinel_witness :
  exists snapshot subhalo,
    parse_url "https://www.tng-project.org/api/TNG50-1/snapshots/72/subhalos/5/skirt/skirt_images_hsc_realistic.fits"
    = inr (snapshot, subhalo, "v?").
Proof.
  destruct (parse_url_sentinel "https://www.tng-project.org/api/TNG50-1/snapshots/72/subhalos/5/skirt/skirt_images_hsc_realistic.fits")
    as (snapshot & subhalo & _ & _ & Hparse & _).
  - cbn. lia.
  - apply search_version_none. reflexivity.
  - exists snapshot, subhalo. exact Hparse.
Defined.

(** ** The batch *)

(** What preparing the batch leaves in the trace when it succeeds. *)
Lemma resolve_batch_trace w cfg t0 batch :
  resolve_batch w cfg = (t0, inr batch) ->
  t0 = MakeDirs (parent_dir cfg)
       :: (if parent_file_only cfg then []
           else [MakeDirs (split_output_dir cfg)]).
Proof.
  unfold resolve_batch, os_makedirs, open_url_list.
  destruct (makedirs_ok w (parent_dir cfg)); [ | discriminate].
  destruct (parent_file_only cfg); cbn -[parent_dir].
  - destruct (read_lines w (URL_LIST cfg)); cbn -[parent_dir];
      [now intros [= <- _] | discriminate].
  - destruct (makedirs_ok w (split_output_dir cfg)); cbn -[parent_dir];
      [ | discriminate].
    destruct (read_lines w (URL_LIST cfg)); cbn -[parent_dir];
      [now intros [= <- _] | discriminate].
Qed.

(** C6: when the batch window selects nothing, the run prints the warning
    and returns normally, and its whole trace is the directories made
    while preparing (the parent directory and, unless only parents are
    wanted, the split directory) followed by that warning: nothing is
    fetched, no split image and no catalog is written, whatever
    [catalog_path] is. *)
Theorem empty_batch_is_a_clean_exit (w : world) (cfg : config)
    (t0 : list event) :
  resolve_batch w cfg = (t0, inr []) ->
  let r := download_and_split_hsc_images w cfg in
  r = ((MakeDirs (parent_dir cfg)
        :: (if parent_file_only cfg then []
            else [MakeDirs (split_output_dir cfg)]))
       ++ [Printed NoUrls], inr tt)%list
  /\ count is_http_get (trace r) = 0%nat
  /\ count is_write_fits (trace r) = 0%nat
  /\ count is_write_table (trace r) = 0%nat.
Proof.
  intros Hempty r.
  assert (Hr : r = ((MakeDirs (parent_dir cfg)
                     :: (if parent_file_only cfg then []
                         else [MakeDirs (split_output_dir cfg)]))
                    ++ [Printed NoUrls], inr tt)%list).
  { subst r. unfold download_and_split_hsc_images.
    rewrite <- (resolve_batch_trace w cfg t0 [] Hempty), Hempty.
    reflexivity. }
  split; [exact Hr | ]. rewrite Hr.
  destruct (parent_file_only cfg); repeat split; reflexivity.
Qed.

Lemma empty_batch_is_a_clean_exit_witness :
  download_and_split_hsc_images
    (Scenario.server (Scenario.always Scenario.only_G))
    (Scenario.with_catalog 2)
  = ([MakeDirs "split_images"; MakeDirs "split_images"; Printed NoUrls],
     inr tt).
Proof.
  apply (empty_batch_is_a_clean_exit
           (Scenario.server (Scenario.always Scenario.only_G))
           (Scenario.with_catalog 2)
           [MakeDirs "split_images"; MakeDirs "split_images"]).
  reflexivity.
Defined.

Lemma for_each_visits {A St} (body : nat -> A -> St -> M St) (a : A)
    (l : list A) :
  forall i s s',
    outcome (for_each body i l s) = inr s' ->
    In a l ->
    exists j x,
      forall e, In e (trace (body j a x)) ->
                In e (trace (for_each body i l s)).
Proof.
  induction l as [ | b r IH]; intros i s s' Hout Hin; [destruct Hin | ].
  cbn [for_each] in Hout |- *. rewrite outcome_bind in Hout.
  destruct (outcome (body i b s)) as [e | s1] eqn:Hb; [discriminate | ].
  destruct Hin as [-> | Hin].
  - exists i, s. intros e He. rewrite trace_bind. apply in_or_app. now left.
  - destruct (IH (S i) s1 s' Hout Hin) as (j & x & Hsub).
    exists j, x. intros e He. rewrite trace_bind, Hb.
    apply in_or_app. right. now apply Hsub.
Qed.

(** A round whose container is downloaded and stored, up to the loop
    over the filters. *)
Lemma process_item_stored (w : world) (cfg : config) (i : nat)
    (u snapshot subhalo version : string) (status_code : Z)
    (hdul : list hdu) (entries : option (list row)) :
  parent_file_only cfg = false ->
  parse_url u = inr (snapshot, subhalo, version) ->
  download w i u = Status status_code (Fits hdul) ->
  ~ error_status status_code ->
  write_fails w (WriteFile (path_join (parent_dir cfg)
                              (fname_parent snapshot subhalo version))
                           (Fits hdul)) = None ->
  process_item w cfg i u entries
  = bind ([Printed (Downloading (fname_parent snapshot subhalo version)
                      (parent_dir cfg));
           HttpGet u (API_KEY cfg);
           WriteFile (path_join (parent_dir cfg)
                        (fname_parent snapshot subhalo version))
                     (Fits hdul)], inr tt)
      (fun _ =>
         catalog_entries <-
           for_each (split_filter w cfg snapshot subhalo version hdul) 0
                    filters entries ;;
         cleanup w cfg i
           (path_join (parent_dir cfg)
              (fname_parent snapshot subhalo version))
           (fname_parent snapshot subhalo version) ;;
         emit Sleep ;;
         ret catalog_entries).
Proof.
  intros Hsplit Hparse Hget Hcode Hwrite. unfold process_item.
  rewrite Hparse, (requests_get_passes w cfg i u _ _ Hget Hcode), Hsplit.
  cbn -[for_each filters path_join fname_parent cleanup parent_dir
        split_filter write].
  unfold write. rewrite Hwrite.
  cbn -[for_each filters path_join fname_parent cleanup parent_dir
        split_filter].
  now destruct (bind _ _).
Qed.

(** C8: a band for which the container holds no extension named
    [SUBARU_HSC.<band>] costs one warning and nothing else: the entries
    are left as they were and the loop goes on with the next band.  For an
    item that parses, is downloaded and stored, every one of the five
    bands G, R, I, Z, Y that the container lacks is warned about in a
    round that ends normally; and when it lacks all five, the round is
    the download, the five warnings in that order, the removal of the
    parent if asked for and the pause: it ends normally with the catalog
    entries it started from, writes no split image, and the batch goes on
    with the next item. *)
Theorem missing_filters_are_skipped (w : world) (cfg : config) (i : nat)
    (u snapshot subhalo version : string) (status_code : Z)
    (hdul : list hdu) (entries : option (list row)) :
  parent_file_only cfg = false ->
  parse_url u = inr (snapshot, subhalo, version) ->
  download w i u = Status status_code (Fits hdul) ->
  ~ error_status status_code ->
  write_fails w (WriteFile (path_join (parent_dir cfg)
                              (fname_parent snapshot subhalo version))
                           (Fits hdul)) = None ->
  let fname := fname_parent snapshot subhalo version in
  let parent_path := path_join (parent_dir cfg) fname in
  let missing band := Printed (NoExtension ("SUBARU_HSC." ++ band) fname) in
  (forall band later k x,
      ~ has_band band hdul ->
      for_each (split_filter w cfg snapshot subhalo version hdul) k
               (band :: later) x
      = bind ([missing band], inr x)
             (for_each (split_filter w cfg snapshot subhalo version hdul)
                       (S k) later))
  /\ (forall band entries',
        In band five_bands ->
        ~ has_band band hdul ->
        outcome (process_item w cfg i u entries) = inr entries' ->
        In (missing band) (trace (process_item w cfg i u entries)))
  /\ ((forall band, In band five_bands -> ~ has_band band hdul) ->
      let t :=
        ([Printed (Downloading fname (parent_dir cfg));
          HttpGet u (API_KEY cfg);
          WriteFile parent_path (Fits hdul);
          missing "G"; missing "R"; missing "I"; missing "Z"; missing "Y"]
           ++ (if remove_parent cfg then
                 [Remove parent_path;
                  Printed (if remove_ok w i parent_path then Removed fname
                           else CouldNotRemove fname)]
               else [])
           ++ [Sleep])%list in
      process_item w cfg i u entries = (t, inr entries)
      /\ forall later,
           for_each (process_item w cfg) i (u :: later) entries
           = bind (t, inr entries) (for_each (process_item w cfg) (S i) later)).
Proof.
  intros Hsplit Hparse Hget Hcode Hwrite fname parent_path missing.
  split; [ | split].
  - intros band later k x Hlacks. cbn [for_each].
    now rewrite (split_filter_missing w cfg _ _ _ _ _ _ _
                   (find_no_band band hdul Hlacks)).
  - intros band entries' Hband Hlacks Hout.
    rewrite (process_item_stored w cfg i u snapshot subhalo version
               status_code hdul entries Hsplit Hparse Hget Hcode Hwrite)
      in Hout |- *.
    rewrite bind_ok in Hout |- *. cbn [trace outcome fst snd] in Hout |- *.
    rewrite outcome_bind in Hout. rewrite trace_bind.
    destruct (outcome (for_each _ 0 filters entries)) as [e | s1] eqn:Hloop;
      [discriminate | ].
    destruct (for_each_visits
                (split_filter w cfg snapshot subhalo version hdul) band
                filters 0 entries s1 Hloop Hband) as (j & x & Hsub).
    rewrite (split_filter_missing w cfg _ _ _ _ _ _ _
               (find_no_band band hdul Hlacks)) in Hsub.
    apply in_or_app. right. apply in_or_app. left. apply Hsub. now left.
  - intros Hnone t.
    assert (Hfound : no_filter_found hdul = true).
    { unfold no_filter_found. apply forallb_forall. intros band Hband.
      now rewrite (find_no_band band hdul (Hnone band Hband)). }
    pose proof (process_item_bandless w cfg i u snapshot subhalo version
                  status_code hdul entries Hsplit Hparse Hget Hcode Hwrite
                  Hfound) as Hround.
    assert (Ht : bandless_trace w cfg i u snapshot subhalo version hdul = t).
    { subst t missing parent_path fname. unfold bandless_trace, cleanup.
      destruct (remove_parent cfg); [ | reflexivity].
      now destruct (remove_ok w i _). }
    rewrite Ht in Hround. split; [exact Hround | ].
    intros later. cbn [for_each]. now rewrite Hround.
Qed.

Lemma missing_filters_are_skipped_witness :
  process_item (Scenario.server (Scenario.always Scenario.no_band))
               (Scenario.with_catalog 0) 0 Scenario.url_v2 (Some [])
  = ([Printed (Downloading "72_0_v2_parent.fits" "split_images");
      HttpGet Scenario.url_v2 (Some "key");
      WriteFile "split_images/72_0_v2_parent.fits" Scenario.no_band;
      Printed (NoExtension "SUBARU_HSC.G" "72_0_v2_parent.fits");
      Printed (NoExtension "SUBARU_HSC.R" "72_0_v2_parent.fits");
      Printed (NoExtension "SUBARU_HSC.I" "72_0_v2_parent.fits");
      Printed (NoExtension "SUBARU_HSC.Z" "72_0_v2_parent.fits");
      Printed (NoExtension "SUBARU_HSC.Y" "72_0_v2_parent.fits");
      Remove "split_images/72_0_v2_parent.fits";
      Printed (Removed "72_0_v2_parent.fits");
      Sleep],
     inr (Some [])).
Proof.
  destruct (missing_filters_are_skipped
              (Scenario.server (Scenario.always Scenario.no_band))
              (Scenario.with_catalog 0) 0 Scenario.url_v2 "72" "0" "v2"
              200%Z [HDU [] [("SIMPLE", CardBool true)]] (Some [])
              eq_refl eq_refl eq_refl)
    as (_ & _ & Hall).
  - unfold error_status. lia.
  - reflexivity.
  - apply Hall.
    intros band _ (h & [<- | []] & before & after & Heq & _).
    cbn in Heq. destruct before as [ | c [ | d before]]; discriminate.
Defined.

Section Batch.
Variable w : world.
Variable cfg : config.

(** The run, once the batch is known. *)
Lemma run_after_resolve t0 batch :
  resolve_batch w cfg = (t0, inr batch) ->
  download_and_split_hsc_images w cfg
  = ((t0 ++ trace (run_batch w cfg batch))%list,
     outcome (run_batch w cfg batch)).
Proof.
  intros Hbatch. unfold download_and_split_hsc_images.
  now rewrite Hbatch, bind_ok.
Qed.

Lemma loop_no_table batch i entries :
  bounded is_write_table 0 (for_each (process_item w cfg) i batch entries).
Proof.
  apply bounded_for_each_0. intros k u s. apply process_item_no_table.
Qed.

(** A batch of items whose containers have none of the five filters is
    processed to its end, leaves the catalog entries as they were and
    writes no split image. *)
Lemma loop_bandless batch :
  forall k entries,
    (forall n u, nth_error batch n = Some u ->
       bandless_item w cfg (k + n) u) ->
    parent_file_only cfg = false ->
    outcome (for_each (process_item w cfg) k batch entries) = inr entries
    /\ count is_write_fits
         (trace (for_each (process_item w cfg) k batch entries)) = 0%nat.
Proof.
  induction batch as [ | u later IH]; intros k entries Hall Hsplit.
  - split; reflexivity.
  - destruct (Hall 0%nat u eq_refl)
      as (snapshot & subhalo & version & hdul & Hparse
          & (status_code & Hget & Hcode) & Hwrite & Hnone).
    rewrite Nat.add_0_r in Hget.
    pose proof (process_item_bandless w cfg k u snapshot subhalo version
                  status_code hdul entries Hsplit Hparse Hget Hcode Hwrite
                  Hnone) as Hround.
    pose proof (bandless_trace_no_fits w cfg k u snapshot subhalo version
                  hdul) as Hquiet.
    cbn [for_each]. rewrite Hround, bind_ok. cbn [trace outcome fst snd].
    destruct (IH (S k) entries) as [Hout Hfits]; [ | exact Hsplit | ].
    + intros n v Hn. replace (S k + n)%nat with (k + S n)%nat by lia.
      now apply Hall.
    + split; [exact Hout | ]. rewrite count_app. lia.
Qed.
End Batch.

(** C9: with a catalog requested and splitting not bypassed, a non-empty
    batch in which every item parses, is downloaded and stored, but no
    filter is found in any container, accumulates no entry, and the run
    still goes on to write the catalog table, with no rows: the write is
    not skipped.  When the table library carries that write out, the run
    reports zero entries and returns normally. *)
Theorem empty_catalog_is_still_written (w : world) (cfg : config)
    (path : string) (t0 : list event) (batch : list string) :
  catalog_path cfg = Some path ->
  path <> EmptyString ->
  parent_file_only cfg = false ->
  resolve_batch w cfg = (t0, inr batch) ->
  batch <> [] ->
  (forall n u, nth_error batch n = Some u -> bandless_item w cfg n u) ->
  let table := WriteTable path ["object_id"; "filename"; "filter"] [] true in
  exists t1,
    for_each (process_item w cfg) 0 batch (Some []) = (t1, inr (Some []))
    /\ count is_write_fits t1 = 0%nat
    /\ count is_write_table t1 = 0%nat
    /\ (exists rest,
          trace (download_and_split_hsc_images w cfg)
          = (t0 ++ t1 ++ table :: rest)%list)
    /\ (write_fails w table = None ->
        download_and_split_hsc_images w cfg
        = ((t0 ++ t1 ++ [table; Printed (WroteCatalog 0 path)])%list,
           inr tt)).
Proof.
  intros Hpath Hne Hsplit Hbatch Hitems Hnone table.
  destruct (loop_bandless w cfg batch 0 (Some []) Hnone Hsplit)
    as [Hout Hfits].
  pose proof (loop_no_table w cfg batch 0 (Some [])) as Htable.
  exists (trace (for_each (process_item w cfg) 0 batch (Some []))).
  assert (Hrun : download_and_split_hsc_images w cfg
                 = bind (t0, inr tt)
                     (fun _ =>
                        bind (trace (for_each (process_item w cfg) 0 batch
                                       (Some [])), inr tt)
                          (fun _ =>
                             write w table ;;
                             emit (Printed (WroteCatalog 0 path))))).
  { rewrite (run_after_resolve w cfg t0 batch Hbatch).
    unfold run_batch, no_entries.
    destruct batch as [ | u later]; [contradiction | ].
    assert (Htruthy : truthy_opt (catalog_path cfg) = true).
    { rewrite Hpath. apply truthy_opt_true. now exists path. }
    rewrite Htruthy.
    rewrite (M_eta (for_each (process_item w cfg) 0 (u :: later) (Some []))),
      Hout.
    rewrite !bind_ok. unfold write_catalog. rewrite Hpath, Hsplit.
    reflexivity. }
  split; [ | split; [ | split; [ | split]]].
  - rewrite <- Hout. apply M_eta.
  - exact Hfits.
  - unfold bounded in Htable. lia.
  - rewrite Hrun. unfold write.
    destruct (write_fails w table); cbn; eexists; reflexivity.
  - intros Hwrite. rewrite Hrun. unfold write. rewrite Hwrite. reflexivity.
Qed.

Lemma empty_catalog_is_still_written_witness :
  exists t,
    download_and_split_hsc_images
      (Scenario.server (Scenario.always Scenario.no_band))
      (Scenario.with_catalog 1)
    = ((t ++ [WriteTable "split_images/catalog.fits"
                         ["object_id"; "filename"; "filter"] [] true;
              Printed (WroteCatalog 0 "split_images/catalog.fits")])%list,
       inr tt).
Proof.
  destruct (empty_catalog_is_still_written
              (Scenario.server (Scenario.always Scenario.no_band))
              (Scenario.with_catalog 1) "split_images/catalog.fits"
              [MakeDirs "split_images"; MakeDirs "split_images"]
              [Scenario.url_unversioned])
    as (t1 & _ & _ & _ & _ & Hrun).
  - reflexivity.
  - discriminate.
  - reflexivity.
  - reflexivity.
  - discriminate.
  - intros [ | n] u Hn.
    + injection Hn as <-.
      exists "72", "5", "v?", [HDU [] [("SIMPLE", CardBool true)]].
      split; [reflexivity | ].
      split; [ | split; reflexivity].
      exists 200%Z. split; [reflexivity | ]. unfold error_status. lia.
    + destruct n; discriminate.
  - exists ([MakeDirs "split_images"; MakeDirs "split_images"] ++ t1)%list.
    rewrite (Hrun eq_refl). now rewrite <- app_assoc.
Defined.

(** C1, as stated, fails: the third column of the table is named
    [filter], not [band].  Here a catalog is requested, splitting is not
    bypassed, and the table written has the columns [object_id],
    [filename], [filter]. *)
Lemma catalog_third_column_is_not_band :
  catalog_path (Scenario.with_catalog 0) = Some "split_images/catalog.fits"
  /\ parent_file_only (Scenario.with_catalog 0) = false
  /\ ~ catalog_columns_are ["object_id"; "filename"; "band"]
         (Scenario.server (Scenario.always Scenario.only_G))
         (Scenario.with_catalog 0).
Proof.
  split; [reflexivity | split; [reflexivity | ]].
  intros Hband.
  destruct (Hband "split_images/catalog.fits"
              ["object_id"; "filename"; "filter"]
              [catalog_entry 72000000 "72_0_G_v2_hsc_realistic.fits" "G";
               catalog_entry 72000005 "72_5_G_v?_hsc_realistic.fits" "G"]
              true) as [Hnames _].
  - vm_compute. repeat first [left; reflexivity | right].
  - discriminate.
Qed.

(** Where a table can appear in the trace of a run: only as the last
    action of [write_catalog]. *)
Lemma tables_of_run (w : world) (cfg : config) (path : string) :
  catalog_path cfg = Some path ->
  parent_file_only cfg = false ->
  filter is_write_table (trace (download_and_split_hsc_images w cfg)) = []
  \/ exists rows,
       filter is_write_table (trace (download_and_split_hsc_images w cfg))
       = [WriteTable path catalog_names rows true].
Proof.
  intros Hpath Hsplit. unfold download_and_split_hsc_images.
  rewrite trace_bind, filter_app.
  rewrite (count_0 _ _ (resolve_batch_quiet w cfg is_write_table
                          (fun _ => eq_refl))).
  cbn [app].
  destruct (outcome (resolve_batch w cfg)) as [e | [ | u later]];
    [now left | now left | ].
  unfold run_batch. rewrite trace_bind, filter_app.
  rewrite (count_0 _ _ (loop_no_table w cfg (u :: later) 0 _)). cbn [app].
  destruct (outcome (for_each _ 0 (u :: later) _)) as [e | [rows | ]];
    [now left | | ].
  - right. exists rows. unfold write_catalog, write.
    rewrite Hpath, Hsplit. cbn [negb].
    now destruct (write_fails w _).
  - now left.
Qed.

(** C1, amended: when a catalog is requested (a [catalog_path] is given)
    and splitting is not bypassed, every table the run writes has exactly
    the three columns [object_id], [filename], [filter], in that order, is
    written at [catalog_path] and overwrites; there is at most one; and
    when the path is not the empty string and the run of a non-empty batch
    returns normally there is exactly one, written after everything else,
    holding the rows accumulated over the whole batch. *)
Theorem catalog_table_columns (w : world) (cfg : config) (path : string) :
  catalog_path cfg = Some path ->
  parent_file_only cfg = false ->
  let r := download_and_split_hsc_images w cfg in
  catalog_columns_are ["object_id"; "filename"; "filter"] w cfg
  /\ (forall p names rows o,
        In (WriteTable p names rows o) (trace r) -> p = path)
  /\ (count is_write_table (trace r) <= 1)%nat
  /\ forall t0 batch,
       path <> EmptyString ->
       resolve_batch w cfg = (t0, inr batch) ->
       batch <> [] ->
       outcome r = inr tt ->
       exists t1 rows,
         for_each (process_item w cfg) 0 batch (Some [])
         = (t1, inr (Some rows))
         /\ count is_write_table (t0 ++ t1) = 0%nat
         /\ trace r
            = (t0 ++ t1
                  ++ [WriteTable path ["object_id"; "filename"; "filter"]
                                 rows true;
                      Printed (WroteCatalog (List.length rows) path)])%list.
Proof.
  intros Hpath Hsplit r.
  pose proof (tables_of_run w cfg path Hpath Hsplit) as Htables.
  fold r in Htables.
  assert (Hshape : forall p names rows o,
             In (WriteTable p names rows o) (trace r) ->
             p = path /\ names = catalog_names /\ o = true).
  { intros p names rows o Hin.
    assert (Hkept : In (WriteTable p names rows o)
                       (filter is_write_table (trace r))).
    { apply filter_In. now split. }
    destruct Htables as [Hnone | [rows' Hone]].
    - rewrite Hnone in Hkept. contradiction.
    - rewrite Hone in Hkept. destruct Hkept as [Heq | []].
      now injection Heq as <- <- _ <-. }
  split; [ | split; [ | split]].
  - intros p names rows o Hin.
    destruct (Hshape p names rows o Hin) as (_ & Hnames & Ho). now split.
  - intros p names rows o Hin. now destruct (Hshape p names rows o Hin).
  - unfold count. destruct Htables as [-> | [rows ->]]; cbn; lia.
  - intros t0 batch Hne Hbatch Hitems Hok.
    subst r. rewrite (run_after_resolve w cfg t0 batch Hbatch) in Hok |- *.
    cbn [trace outcome fst snd] in Hok |- *.
    unfold run_batch, no_entries in Hok |- *.
    destruct batch as [ | u later]; [contradiction | ].
    assert (Htruthy : truthy_opt (catalog_path cfg) = true).
    { rewrite Hpath. apply truthy_opt_true. now exists path. }
    rewrite Htruthy in Hok |- *.
    rewrite outcome_bind in Hok. rewrite trace_bind.
    destruct (outcome (for_each (process_item w cfg) 0 (u :: later) (Some [])))
      as [e | entries] eqn:Hloop; [discriminate | ].
    destruct (for_each_invariant (process_item w cfg)
                (fun s => exists rows, s = Some rows)
                (fun k a s s' => process_item_keeps_list w cfg k a s s')
                (u :: later) 0%nat (Some []) entries)
      as [rows ->]; [now exists [] | exact Hloop | ].
    exists (trace (for_each (process_item w cfg) 0 (u :: later) (Some []))),
      rows.
    repeat split.
    + rewrite <- Hloop. apply M_eta.
    + rewrite count_app.
      pose proof (resolve_batch_quiet w cfg is_write_table
                    (fun _ => eq_refl)) as Hprep.
      pose proof (loop_no_table w cfg (u :: later) 0 (Some [])) as Hrun.
      unfold bounded in Hprep, Hrun. rewrite Hbatch in Hprep.
      cbn [trace fst] in Hprep. lia.
    + unfold write_catalog, write in Hok |- *.
      rewrite Hpath, Hsplit in Hok |- *. cbn [negb] in Hok |- *.
      destruct (write_fails w _); [discriminate | reflexivity].
Qed.

Lemma catalog_table_columns_witness :
  catalog_columns_are ["object_id"; "filename"; "filter"]
    (Scenario.server (Scenario.always Scenario.only_G))
    (Scenario.with_catalog 0).
Proof.
  apply (catalog_table_columns
           (Scenario.server (Scenario.always Scenario.only_G))
           (Scenario.with_catalog 0) "split_images/catalog.fits").
  - reflexivity.
  - reflexivity.
Defined.

(** C7, as stated, fails: only the client and server error statuses
    400 to 599 make [raise_for_status] raise.  Here both downloads are
    answered with status 304, which is not a success (not a 2xx), with an
    empty body; only the parents are wanted.  Each body is stored, the
    second item is processed after the first, and the run returns
    normally. *)
Lemma non_success_status_is_not_fatal :
  ~ success_status 304
  /\ download_and_split_hsc_images
       (Scenario.server (fun _ _ => Status 304 NotFits))
       {| split_output_dir := "split_images";
          URL_LIST := "urls.txt";
          BATCH_START := None;
          BATCH_SIZE := None;
          API_KEY := Some "key";
          remove_parent := false;
          catalog_path := None;
          parent_file_only := true;
          parent_output_dir := None |}
     = ([MakeDirs "split_images";
         Printed (Downloading "72_0_v2_parent.fits" "split_images");
         HttpGet Scenario.url_v2 (Some "key");
         WriteFile "split_images/72_0_v2_parent.fits" NotFits;
         Printed (Downloading "72_5_v?_parent.fits" "split_images");
         HttpGet Scenario.url_unversioned (Some "key");
         WriteFile "split_images/72_5_v?_parent.fits" NotFits],
        inr tt).
Proof.
  split; [unfold success_status; lia | reflexivity].
Qed.

(** C7: when the download of the item at position [n] of the batch is
    answered with a client or server error status (400 to 599), the run
    is the run of the batch cut after that item, ended by an exception:
    no later item is touched.  No catalog table is written, and at most
    [n + 1] requests are made.  If the items before it were processed to
    their end and the locator parses, the exception is [HTTPError], and
    the trace stops at the single request for that item: no retry, no
    later item, no catalog, whatever the earlier items accumulated. *)
Theorem bad_status_aborts_the_batch (w : world) (cfg : config)
    (t0 : list event) (batch : list string) (n : nat) (u : string)
    (status_code : Z) (body : content) :
  resolve_batch w cfg = (t0, inr batch) ->
  nth_error batch n = Some u ->
  download w n u = Status status_code body ->
  error_status status_code ->
  let r := download_and_split_hsc_images w cfg in
  (exists t e,
      for_each (process_item w cfg) 0 (firstn (S n) batch) (no_entries cfg)
      = (t, inl e)
      /\ r = ((t0 ++ t)%list, inl e))
  /\ count is_write_table (trace r) = 0%nat
  /\ (count is_http_get (trace r) <= n + 1)%nat
  /\ forall t1 entries snapshot subhalo version,
       for_each (process_item w cfg) 0 (firstn n batch) (no_entries cfg)
       = (t1, inr entries) ->
       parse_url u = inr (snapshot, subhalo, version) ->
       r = ((t0 ++ t1
                ++ [Printed (Downloading
                               (fname_parent snapshot subhalo version)
                               (parent_dir cfg));
                    HttpGet u (API_KEY cfg)])%list,
            inl HTTPError).
Proof.
  intros Hbatch Hnth Hget Hcode r.
  set (loop := for_each (process_item w cfg) 0 batch (no_entries cfg)).
  assert (Hfail : forall s', exists e,
             outcome (process_item w cfg (0 + n) u s') = inl e).
  { intros s'.
    apply (process_item_bad_status w cfg n u status_code body s' Hget
             Hcode). }
  destruct (for_each_stops (process_item w cfg) is_http_get 1 u
              (process_item_one_get w cfg) batch n 0 (no_entries cfg)
              Hnth Hfail) as [[e He] Hgets].
  fold loop in He, Hgets.
  assert (Hrun : r = ((t0 ++ trace loop)%list, inl e)).
  { subst r. rewrite (run_after_resolve w cfg t0 batch Hbatch).
    unfold run_batch. destruct batch as [ | v later];
      [destruct n; discriminate | ].
    fold loop. rewrite (M_eta loop), He. reflexivity. }
  pose proof (resolve_batch_quiet w cfg is_http_get (fun _ => eq_refl))
    as Hprep_get.
  pose proof (resolve_batch_quiet w cfg is_write_table (fun _ => eq_refl))
    as Hprep_table.
  pose proof (loop_no_table w cfg batch 0 (no_entries cfg)) as Hloop_table.
  fold loop in Hloop_table.
  unfold bounded in Hgets, Hprep_get, Hprep_table, Hloop_table.
  rewrite Hbatch in Hprep_get, Hprep_table.
  cbn [trace fst] in Hprep_get, Hprep_table.
  split; [ | split; [ | split]].
  - exists (trace loop), e. split; [ | exact Hrun].
    rewrite <- (for_each_cut (process_item w cfg) u batch n 0 _ Hnth Hfail).
    fold loop. now rewrite (M_eta loop), He.
  - rewrite Hrun. cbn [trace fst]. rewrite count_app. lia.
  - rewrite Hrun. cbn [trace fst]. rewrite count_app. lia.
  - intros t1 entries snapshot subhalo version Hbefore Hparse.
    assert (Hlen : (n < List.length batch)%nat)
      by (apply nth_error_Some; congruence).
    assert (Hcut : batch = (firstn n batch ++ u :: skipn (S n) batch)%list).
    { rewrite <- (firstn_skipn n batch) at 1. f_equal.
      clear -Hnth. revert batch Hnth.
      induction n as [ | n IH]; intros [ | a l] Hnth; try discriminate.
      - now injection Hnth as ->.
      - cbn in Hnth. now apply IH. }
    assert (Hloop : loop
                    = ((t1 ++ [Printed (Downloading
                                          (fname_parent snapshot subhalo
                                             version)
                                          (parent_dir cfg));
                               HttpGet u (API_KEY cfg)])%list,
                       inl HTTPError)).
    { subst loop. rewrite Hcut, for_each_app.
      rewrite Hbefore, bind_ok. cbn [for_each].
      rewrite length_firstn, Nat.min_l by lia. cbn [Nat.add].
      destruct (process_item_bad_status w cfg n u status_code body entries
                  Hget Hcode) as [_ Hstop].
      rewrite (Hstop snapshot subhalo version Hparse). reflexivity. }
    rewrite Hloop in He. cbn in He. injection He as <-.
    rewrite Hrun, Hloop. reflexivity.
Qed.

Lemma bad_status_aborts_the_batch_witness :
  exists t,
    download_and_split_hsc_images
      (Scenario.server (Scenario.first_only Scenario.only_G))
      (Scenario.with_catalog 0)
    = ((t ++ [Printed (Downloading "72_5_v?_parent.fits" "split_images");
              HttpGet Scenario.url_unversioned (Some "key")])%list,
       inl HTTPError).
Proof.
  destruct (bad_status_aborts_the_batch
              (Scenario.server (Scenario.first_only Scenario.only_G))
              (Scenario.with_catalog 0)
              [MakeDirs "split_images"; MakeDirs "split_images"]
              [Scenario.url_v2; Scenario.url_unversioned]
              1 Scenario.url_unversioned 404%Z NotFits)
    as (_ & _ & _ & Hstop).
  - reflexivity.
  - reflexivity.
  - reflexivity.
  - unfold error_status. lia.
  - eexists. rewrite (Hstop _ _ "72" "5" "v?" eq_refl eq_refl).
    now rewrite app_assoc.
Defined.

(* ------------------------------------------------------------------ *)
(** * Further properties *)

(** ** Consecutive batches *)

Example readlines_examples :
  let lf := newline in
  let cr := String (ascii_of_nat 13) EmptyString in
  map readlines ["a" ++ lf ++ "b" ++ cr ++ lf ++ "c" ++ cr ++ "d"; "";
                 "x"; lf ++ lf; "a" ++ cr; cr ++ cr ++ lf]
  = [["a" ++ lf; "b" ++ lf; "c" ++ lf; "d"]; []; ["x"]; [lf; lf];
     ["a" ++ lf]; [lf; lf]].
Proof. reflexivity. Qed.




(** X2: a negative start counts from the end of the list, as a Python
    slice bound does.  With [1 <= k <= total]: start [-k] and no size
    selects the last [k] URLs; with a size [n < k] it selects the first
    [n] of those; with a size [k <= n <= total] the window's end wraps to
    a position at or before its start and the batch is empty. *)
Theorem negative_start_counts_from_the_end (urls : list string) (k n : Z) :
  (1 <= k <= PyList.len urls)%Z ->
  let tail := skipn (List.length urls - Z.to_nat k) urls in
  select_batch urls (Some (- k)%Z) None = tail
  /\ ((0 <= n < k)%Z ->
      select_batch urls (Some (- k)%Z) (Some n) = firstn (Z.to_nat n) tail)
  /\ ((k <= n <= PyList.len urls)%Z ->
      select_batch urls (Some (- k)%Z) (Some n) = []).
Proof.
  intros Hk tail. subst tail. unfold PyList.len in Hk.
  unfold select_batch, PyList.slice_from, PyList.slice, PyList.clamp,
    PyList.len.
  destruct (Z.ltb_spec (- k) 0); [ | lia].
  split; [ | split].
  - f_equal. lia.
  - intros Hn. destruct (Z.ltb_spec (- k + n) 0); [ | lia].
    f_equal; [lia | f_equal; lia].
  - intros Hn. destruct (Z.ltb_spec (- k + n) 0); [lia | ].
    replace (Z.to_nat _) with 0%nat by lia. reflexivity.
Qed.

Lemma negative_start_counts_from_the_end_witness :
  select_batch ["a"; "b"; "c"; "d"] (Some (-2)%Z) None = ["c"; "d"]
  /\ select_batch ["a"; "b"; "c"; "d"] (Some (-2)%Z) (Some 2%Z) = [].
Proof.
  destruct (negative_start_counts_from_the_end ["a"; "b"; "c"; "d"] 2 2)
    as (Hlast & _ & Hwrap).
  - cbn. lia.
  - split; [exact Hlast | apply Hwrap; cbn; lia].
Defined.

(** ** The URL list *)

Section Stripping.
Variable drop : ascii -> bool.

Lemma lstrip_tight (s : string) : tight_front drop (PyStr.lstrip_by drop s).
Proof.
  induction s as [ | c r IH]; cbn; [exact I | ].
  destruct (drop c) eqn:Hc; [exact IH | exact Hc].
Qed.

Lemma lstrip_of_tight (s : string) :
  tight_front drop s -> PyStr.lstrip_by drop s = s.
Proof. destruct s as [ | c r]; cbn; [reflexivity | now intros ->]. Qed.

Lemma rstrip_tight (s : string) :
  tight_front drop s -> tight_front drop (PyStr.rstrip_by drop s).
Proof.
  destruct s as [ | c r]; cbn; [exact id | ].
  intros Hc. now rewrite Hc.
Qed.

Lemma rstrip_rstrip (s : string) :
  PyStr.rstrip_by drop (PyStr.rstrip_by drop s) = PyStr.rstrip_by drop s.
Proof.
  induction s as [ | c r IH]; cbn; [reflexivity | ].
  destruct (drop c && negb (PyStr.truthy (PyStr.rstrip_by drop r))) eqn:Hcut;
    cbn; [reflexivity | ].
  now rewrite IH, Hcut.
Qed.

Lemma strip_tight (s : string) : tight_front drop (PyStr.strip_by drop s).
Proof. unfold PyStr.strip_by. apply rstrip_tight, lstrip_tight. Qed.

Lemma strip_strip (s : string) :
  PyStr.strip_by drop (PyStr.strip_by drop s) = PyStr.strip_by drop s.
Proof.
  unfold PyStr.strip_by at 1.
  rewrite (lstrip_of_tight _ (strip_tight s)).
  unfold PyStr.strip_by. apply rstrip_rstrip.
Qed.

(** What is already stripped is stripped at each end. *)
Lemma stripped_ends (s : string) :
  PyStr.strip_by drop s = s ->
  tight_front drop s /\ PyStr.rstrip_by drop s = s.
Proof.
  intros Hs. split.
  - rewrite <- Hs. apply strip_tight.
  - rewrite <- Hs at 1. unfold PyStr.strip_by. rewrite rstrip_rstrip.
    exact Hs.
Qed.

(** Characters to drop that are appended to [s] are stripped again. *)
Lemma rstrip_app_dropped (s t : string) :
  PyStr.rstrip_by drop t = EmptyString ->
  PyStr.rstrip_by drop (s ++ t) = PyStr.rstrip_by drop s.
Proof.
  intros Ht. induction s as [ | c r IH]; cbn; [exact Ht | ].
  now rewrite IH.
Qed.

Lemma strip_app_dropped (s t : string) :
  s <> EmptyString ->
  PyStr.strip_by drop s = s ->
  PyStr.rstrip_by drop t = EmptyString ->
  PyStr.strip_by drop (s ++ t) = s.
Proof.
  intros Hne Hs Ht. destruct (stripped_ends s Hs) as [Hfront Hback].
  unfold PyStr.strip_by. rewrite lstrip_of_tight.
  - now rewrite rstrip_app_dropped.
  - destruct s; [contradiction | exact Hfront].
Qed.
End Stripping.

(** X3: the URLs loaded from the list file are its lines stripped of
    surrounding white space, with the blank lines left out: every loaded
    URL is non-empty and has no white space at either end, and loading
    what was loaded changes nothing. *)
Theorem loaded_urls_are_stripped (f : list string) :
  (forall u, In u (load_urls f) ->
     u <> EmptyString
     /\ PyStr.strip u = u
     /\ exists line, In line f /\ u = PyStr.strip line)
  /\ load_urls (load_urls f) = load_urls f
  /\ (List.length (load_urls f) <= List.length f)%nat.
Proof.
  assert (Hmem : forall u, In u (load_urls f) ->
             u <> EmptyString
             /\ PyStr.strip u = u
             /\ exists line, In line f /\ u = PyStr.strip line).
  { intros u Hu. unfold load_urls in Hu.
    apply in_map_iff in Hu as (line & <- & Hline).
    apply filter_In in Hline as [Hline Htruthy].
    split; [ | split].
    - intros Hempty. now rewrite Hempty in Htruthy.
    - apply strip_strip.
    - now exists line. }
  split; [exact Hmem | split].
  - set (l := load_urls f) in *. clearbody l. unfold load_urls.
    induction l as [ | u l IH]; [reflexivity | ].
    destruct (Hmem u (or_introl eq_refl)) as (Hne & Hstrip & _).
    cbn [filter]. rewrite Hstrip.
    destruct u as [ | c r]; [contradiction | ].
    cbn [PyStr.truthy map]. rewrite Hstrip. f_equal.
    apply IH. intros v Hv. apply Hmem. now right.
  - unfold load_urls. rewrite length_map. apply filter_length_le.
Qed.

Lemma readlines_line (u rest : string) :
  has_line_break u = false ->
  readlines (u ++ newline ++ rest) = (u ++ newline) :: readlines rest.
Proof.
  unfold has_line_break. induction u as [ | c r IH]; intros Hu.
  - reflexivity.
  - cbn [has_char] in Hu. apply orb_false_elim in Hu as [Hlf Hcr].
    apply orb_false_elim in Hlf as [Hlf Hlf'].
    apply orb_false_elim in Hcr as [Hcr Hcr'].
    cbn [append readlines]. rewrite Hlf, Hcr.
    rewrite IH by (now rewrite Hlf', Hcr'). reflexivity.
Qed.

Lemma written_text_lines (urls : list string) :
  (forall u, In u urls -> has_line_break u = false) ->
  readlines (written_text (map (fun u => u ++ newline) urls))
  = map (fun u => u ++ newline) urls.
Proof.
  induction urls as [ | u urls IH]; intros Hurls; [reflexivity | ].
  cbn [map written_text fold_right]. rewrite append_assoc.
  rewrite readlines_line by (apply Hurls; now left).
  f_equal. apply IH. intros v Hv. apply Hurls. now right.
Qed.

(** X4: what [fetch] writes is what [split] reads.  For URLs that are
    non-empty, have no white space at either end and no line break
    inside, the file written by lines 60-62 (each URL and a line feed),
    read back line by line and loaded by line 148, gives the same URLs
    in the same order. *)
Theorem written_list_loads_back (urls : list string) :
  (forall u, In u urls ->
     u <> EmptyString /\ PyStr.strip u = u /\ has_line_break u = false) ->
  load_urls (readlines (written_text (map (fun u => u ++ newline) urls)))
  = urls.
Proof.
  intros Hurls. rewrite written_text_lines by (intros u Hu; apply Hurls, Hu).
  unfold load_urls. induction urls as [ | u urls IH]; [reflexivity | ].
  destruct (Hurls u (or_introl eq_refl)) as (Hne & Hstrip & _).
  assert (Hline : PyStr.strip (u ++ newline) = u).
  { apply strip_app_dropped; [exact Hne | exact Hstrip | reflexivity]. }
  cbn [map filter]. rewrite Hline.
  destruct u as [ | c r]; [contradiction | ].
  cbn [PyStr.truthy map]. rewrite Hline. f_equal.
  apply IH. intros v Hv. apply Hurls. now right.
Qed.

Lemma written_list_loads_back_witness :
  load_urls (readlines (written_text
                          (map (fun u => u ++ newline)
                               [Scenario.url_v2; Scenario.url_unversioned])))
  = [Scenario.url_v2; Scenario.url_unversioned].
Proof.
  apply (written_list_loads_back [Scenario.url_v2; Scenario.url_unversioned]).
  intros u [<- | [<- | []]]; repeat split; discriminate.
Defined.

(** ** Counting events along a computation *)

Lemma count_bind K {A B} (m : M A) (f : A -> M B) :
  count K (trace (bind m f))
  = (count K (trace m)
     + match outcome m with
       | inr a => count K (trace (f a))
       | inl _ => 0
       end)%nat.
Proof.
  rewrite trace_bind, count_app. now destruct (outcome m).
Qed.

Lemma fetched_app (t t' : list event) :
  fetched (t ++ t') = (fetched t ++ fetched t')%list.
Proof. apply flat_map_app. Qed.

Lemma fetched_none (t : list event) :
  count is_http_get t = 0%nat -> fetched t = [].
Proof.
  unfold count. induction t as [ | e t IH]; [reflexivity | ].
  destruct e; cbn; try exact IH. discriminate.
Qed.

Section LoopCounts.
Context {A St : Type}.
Variable body : nat -> A -> St -> M St.
Variable K : event -> bool.

(** When every round that ends normally emits [c] events of a kind, a
    loop that ends normally has emitted [c] of them for each item. *)
Lemma for_each_count (c : nat) :
  (forall i a s s', outcome (body i a s) = inr s' ->
     count K (trace (body i a s)) = c) ->
  forall l i s s',
    outcome (for_each body i l s) = inr s' ->
    count K (trace (for_each body i l s)) = (c * List.length l)%nat.
Proof.
  intros Hround. induction l as [ | a r IH]; intros i s s' Hloop.
  - cbn. lia.
  - cbn [for_each] in Hloop |- *. rewrite outcome_bind in Hloop.
    rewrite count_bind.
    destruct (outcome (body i a s)) as [e | s1] eqn:Hfirst; [discriminate | ].
    rewrite (Hround i a s s1 Hfirst), (IH (S i) s1 s' Hloop).
    cbn [List.length]. lia.
Qed.
End LoopCounts.

Section Requests.
Context {St : Type}.
Variable body : nat -> string -> St -> M St.

(** When a round requests its own URL or nothing, and its own URL if it
    ends normally, the loop has requested a front part of the list, in
    order, and the whole list if it ended normally. *)
Lemma for_each_fetched :
  (forall i u s, fetched (trace (body i u s)) = [u]
                 \/ (fetched (trace (body i u s)) = []
                     /\ exists e, outcome (body i u s) = inl e)) ->
  forall l i s,
    (exists rest, l = (fetched (trace (for_each body i l s)) ++ rest)%list)
    /\ (forall s', outcome (for_each body i l s) = inr s' ->
          fetched (trace (for_each body i l s)) = l).
Proof.
  intros Hround. induction l as [ | u r IH]; intros i s.
  - split; [now exists [] | reflexivity].
  - cbn [for_each]. rewrite trace_bind, outcome_bind, fetched_app.
    destruct (Hround i u s) as [Hown | [Hnone [e He]]].
    + rewrite Hown. destruct (outcome (body i u s)) as [e | s1].
      * split; [now exists r | discriminate].
      * destruct (IH (S i) s1) as [[rest Hrest] Hall]. split.
        -- exists rest. cbn. now rewrite <- Hrest.
        -- intros s' Hs'. cbn. now rewrite (Hall s' Hs').
    + rewrite Hnone, He. split; [now exists (u :: r) | discriminate].
Qed.
End Requests.

(** ** What a round of the main loop emits *)

Section Rounds.
Variable w : world.
Variable cfg : config.

Lemma process_item_unfold i u entries :
  process_item w cfg i u entries
  = match parse_url u with
    | inl e => ([], inl e)
    | inr (snapshot, subhalo, version) =>
        bind ([Printed (Downloading (fname_parent snapshot subhalo version)
                          (parent_dir cfg))], inr tt)
          (fun _ =>
             bind (requests_get w cfg i u)
               (after_download w cfg i snapshot subhalo version entries))
    end.
Proof.
  unfold process_item.
  destruct (parse_url u) as [e | [[snapshot subhalo] version]];
    [reflexivity | ].
  unfold lift. rewrite bind_ok. cbn beta iota.
  unfold after_download. now destruct (bind _ _).
Qed.
End Rounds.

(** Discharges [bounded K 0 m] for a kind [K] known from hypotheses not to
    hold of the events that [m] emits. *)
Ltac quiet_by_hyps :=
  repeat first
    [ apply bounded_ret
    | apply bounded_raise
    | apply bounded_lift
    | apply bounded_emit_other; solve [auto]
    | apply bounded_write; solve [auto]
    | apply bounded_for_each_0; intros ? ? ?
    | apply bounded_bind_0; [ | intros ? ]
    | match goal with
      | |- bounded _ _ (match ?x with _ => _ end) => destruct x
      end ].

Section RoundFacts.
Variable w : world.
Variable cfg : config.

Lemma requests_get_trace i u :
  trace (requests_get w cfg i u) = [HttpGet u (API_KEY cfg)].
Proof.
  unfold requests_get. destruct (download w i u) as [ | status_code body];
    [reflexivity | ].
  now destruct (raises_for_status status_code).
Qed.

Lemma split_filter_quiet K snapshot subhalo version hdul k filt entries :
  (forall p h o, K (WriteFits p h o) = false) ->
  (forall m, K (Printed m) = false) ->
  bounded K 0 (split_filter w cfg snapshot subhalo version hdul k filt entries).
Proof. intros Hfits Hprint. unfold split_filter. quiet_by_hyps. Qed.

Lemma after_download_quiet K i snapshot subhalo version entries body :
  (forall p b, K (WriteFile p b) = false) ->
  (forall p h o, K (WriteFits p h o) = false) ->
  (forall m, K (Printed m) = false) ->
  (forall p, K (Remove p) = false) ->
  K Sleep = false ->
  bounded K 0 (after_download w cfg i snapshot subhalo version entries body).
Proof.
  intros Hfile Hfits Hprint Hremove Hsleep.
  unfold after_download, fits_open. quiet_by_hyps.
  - now apply split_filter_quiet.
  - now apply cleanup_quiet.
Qed.

(** With only the parents wanted, nothing follows the download but the
    storing of the parent file. *)
Lemma after_download_parent_only K i snapshot subhalo version entries body :
  parent_file_only cfg = true ->
  (forall p b, K (WriteFile p b) = false) ->
  bounded K 0 (after_download w cfg i snapshot subhalo version entries body).
Proof.
  intros Honly Hfile. unfold after_download. rewrite Honly. cbn [negb].
  quiet_by_hyps.
Qed.

(** A round requests its own URL, once, unless the locator does not
    parse. *)
Lemma process_item_fetched i u entries :
  fetched (trace (process_item w cfg i u entries))
  = match parse_url u with
    | inl _ => []
    | inr _ => [u]
    end.
Proof.
  rewrite process_item_unfold.
  destruct (parse_url u) as [e | [[snapshot subhalo] version]];
    [reflexivity | ].
  rewrite bind_ok. cbn [trace fst app]. rewrite trace_bind.
  rewrite requests_get_trace. cbn [app fetched flat_map].
  rewrite fetched_none; [reflexivity | ].
  destruct (outcome (requests_get w cfg i u)) as [e | body]; [reflexivity | ].
  pose proof (after_download_quiet is_http_get i snapshot subhalo version
                entries body (fun _ _ => eq_refl) (fun _ _ _ => eq_refl)
                (fun _ => eq_refl) (fun _ => eq_refl) eq_refl) as Hquiet.
  unfold bounded in Hquiet. lia.
Qed.

Lemma process_item_fetched_cases i u entries :
  fetched (trace (process_item w cfg i u entries)) = [u]
  \/ (fetched (trace (process_item w cfg i u entries)) = []
      /\ exists e, outcome (process_item w cfg i u entries) = inl e).
Proof.
  rewrite process_item_fetched. rewrite process_item_unfold.
  destruct (parse_url u) as [e | [[snapshot subhalo] version]].
  - right. split; [reflexivity | now exists e].
  - now left.
Qed.

(** Every request of a round carries the configured key. *)
Lemma process_item_keys i u entries :
  Forall (fun e => forall url k, e = HttpGet url k -> k = API_KEY cfg)
         (trace (process_item w cfg i u entries)).
Proof.
  rewrite process_item_unfold.
  destruct (parse_url u) as [e | [[snapshot subhalo] version]];
    [constructor | ].
  rewrite bind_ok. cbn [trace fst app]. rewrite trace_bind.
  rewrite requests_get_trace. cbn [app].
  constructor; [discriminate | ].
  constructor; [now intros url k [= _ <-] | ].
  destruct (outcome (requests_get w cfg i u)) as [e | body]; [constructor | ].
  pose proof (after_download_quiet is_http_get i snapshot subhalo version
                entries body (fun _ _ => eq_refl) (fun _ _ _ => eq_refl)
                (fun _ => eq_refl) (fun _ => eq_refl) eq_refl) as Hquiet.
  apply count_0 in Hquiet.
  apply Forall_forall. intros ev Hev url k ->.
  assert (Hin : In (HttpGet url k)
                   (filter is_http_get
                      (trace (after_download w cfg i snapshot subhalo version
                                entries body))))
    by (apply filter_In; now split).
  rewrite Hquiet in Hin. contradiction.
Qed.
End RoundFacts.

Lemma Forall_for_each {A St} (body : nat -> A -> St -> M St)
    (P : event -> Prop) :
  (forall i a s, Forall P (trace (body i a s))) ->
  forall l i s, Forall P (trace (for_each body i l s)).
Proof.
  intros Hbody. induction l as [ | a r IH]; intros i s; cbn [for_each].
  - constructor.
  - rewrite trace_bind. apply Forall_app. split; [apply Hbody | ].
    destruct (outcome (body i a s)); [constructor | apply IH].
Qed.

Lemma Forall_quiet (P : event -> Prop) (K : event -> bool) (t : list event) :
  (forall e, K e = false -> P e) -> count K t = 0%nat -> Forall P t.
Proof.
  intros HK. unfold count. induction t as [ | e t IH]; [constructor | ].
  cbn. destruct (K e) eqn:He; [discriminate | ].
  intros Ht. constructor; [now apply HK | now apply IH].
Qed.

(** ** Requests *)

(** X5: the run requests URLs of the batch only, in the order of the
    batch, each at most once and none before the one before it: the URLs
    requested are a front part of the batch, and the whole batch when the
    run returns normally.  Every request carries the configured key. *)
Theorem requests_follow_the_batch (w : world) (cfg : config)
    (t0 : list event) (batch : list string) :
  resolve_batch w cfg = (t0, inr batch) ->
  let r := download_and_split_hsc_images w cfg in
  (exists rest, batch = (fetched (trace r) ++ rest)%list)
  /\ (outcome r = inr tt -> fetched (trace r) = batch)
  /\ Forall (fun e => forall url k, e = HttpGet url k -> k = API_KEY cfg)
            (trace r).
Proof.
  intros Hbatch r.
  pose proof (resolve_batch_quiet w cfg is_http_get (fun _ => eq_refl))
    as Hprep.
  unfold bounded in Hprep. rewrite Hbatch in Hprep. cbn [trace fst] in Hprep.
  assert (Hprep0 : count is_http_get t0 = 0%nat) by lia.
  subst r. rewrite (run_after_resolve w cfg t0 batch Hbatch).
  cbn [trace outcome fst snd]. rewrite fetched_app, (fetched_none t0 Hprep0).
  cbn [app]. unfold run_batch.
  destruct batch as [ | u later].
  - repeat split.
    + now exists [].
    + apply Forall_app. split.
      * apply (Forall_quiet _ is_http_get); [ | exact Hprep0].
        intros [ ] He; try discriminate; intros url k' Heq; discriminate.
      * repeat constructor. discriminate.
  - destruct (for_each_fetched (process_item w cfg)
                (process_item_fetched_cases w cfg)
                (u :: later) 0 (no_entries cfg)) as [Hfront Hall].
    rewrite trace_bind, outcome_bind, fetched_app.
    assert (Htail : forall entries,
               fetched (trace (write_catalog w cfg entries)) = []).
    { intros entries. unfold write_catalog, write.
      destruct entries as [rows | ]; [ | reflexivity].
      destruct (catalog_path cfg) as [path | ]; [ | reflexivity].
      destruct (negb (parent_file_only cfg)); [ | reflexivity].
      now destruct (write_fails w _). }
    split; [ | split].
    + destruct Hfront as [rest Hrest]. exists rest.
      destruct (outcome (for_each _ 0 (u :: later) _)) as [e | entries];
        [ | rewrite Htail]; now rewrite app_nil_r.
    + destruct (outcome (for_each _ 0 (u :: later) _)) as [e | entries]
        eqn:Hloop; [discriminate | ].
      intros _. rewrite Htail, app_nil_r. now apply (Hall entries).
    + apply Forall_app. split.
      * apply (Forall_quiet _ is_http_get); [ | exact Hprep0].
        intros [ ] He; try discriminate; intros url k' Heq; discriminate.
      * apply Forall_app. split.
        -- apply Forall_for_each. intros i a s. apply process_item_keys.
        -- destruct (outcome (for_each _ 0 (u :: later) _))
             as [e | entries]; [constructor | ].
           apply (Forall_quiet _ is_http_get).
           ++ intros [ ] He; try discriminate; intros url k' Heq;
                discriminate.
           ++ specialize (Htail entries).
              revert Htail. generalize (trace (write_catalog w cfg entries)).
              intros t. unfold count.
              induction t as [ | ev t IH]; [reflexivity | ].
              destruct ev; cbn; try exact IH. discriminate.
Qed.

Lemma requests_follow_the_batch_witness :
  fetched (trace (download_and_split_hsc_images
                    (Scenario.server (Scenario.always Scenario.only_G))
                    (Scenario.with_catalog 0)))
  = [Scenario.url_v2; Scenario.url_unversioned].
Proof.
  destruct (requests_follow_the_batch
              (Scenario.server (Scenario.always Scenario.only_G))
              (Scenario.with_catalog 0)
              [MakeDirs "split_images"; MakeDirs "split_images"]
              [Scenario.url_v2; Scenario.url_unversioned] eq_refl)
    as (_ & Hall & _).
  apply Hall. reflexivity.
Defined.

Lemma fetched_length (t : list event) :
  List.length (fetched t) = count is_http_get t.
Proof.
  unfold count. induction t as [ | e t IH]; [reflexivity | ].
  destruct e; cbn; try exact IH. now f_equal.
Qed.

Lemma count_write K w e :
  count K (trace (write w e)) = if K e then 1%nat else 0%nat.
Proof.
  unfold write, count. destruct (write_fails w e); cbn; now destruct (K e).
Qed.

(** One step along a computation that is known to end normally: the count
    of the goal and the outcome of [Hout] move past the first action. *)
Ltac past_bind Hout :=
  rewrite count_bind; rewrite outcome_bind in Hout;
  match type of Hout with
  | match outcome ?m with _ => _ end = _ =>
      let E := fresh "Hstep" in
      destruct (outcome m) eqn:E; [discriminate Hout | ]
  end.

Section Pauses.
Variable w : world.
Variable cfg : config.

Lemma process_item_one_pause i u entries entries' :
  parent_file_only cfg = false ->
  outcome (process_item w cfg i u entries) = inr entries' ->
  count is_sleep (trace (process_item w cfg i u entries)) = 1%nat.
Proof.
  intros Hsplit Hout. rewrite process_item_unfold in Hout |- *.
  destruct (parse_url u) as [e | [[snapshot subhalo] version]];
    [discriminate | ].
  rewrite bind_ok in Hout |- *. cbn [trace outcome fst snd] in Hout |- *.
  rewrite count_app. past_bind Hout.
  rewrite requests_get_trace. unfold after_download in Hout |- *.
  past_bind Hout. rewrite count_write. rewrite Hsplit in Hout |- *.
  cbn [negb] in Hout |- *.
  past_bind Hout. past_bind Hout. past_bind Hout.
  pose proof (bounded_for_each_0 is_sleep _
                (fun k filt s =>
                   split_filter_quiet w cfg is_sleep snapshot subhalo version
                     l k filt s (fun _ _ _ => eq_refl) (fun _ => eq_refl))
                filters 0 entries) as Hloop.
  pose proof (cleanup_quiet w cfg is_sleep i
                (path_join (parent_dir cfg)
                   (fname_parent snapshot subhalo version))
                (fname_parent snapshot subhalo version)
                (fun _ => eq_refl) (fun _ => eq_refl)) as Hclean.
  unfold bounded in Hloop, Hclean.
  destruct c; cbn in *; lia.
Qed.

Lemma process_item_one_request i u entries entries' :
  outcome (process_item w cfg i u entries) = inr entries' ->
  count is_http_get (trace (process_item w cfg i u entries)) = 1%nat.
Proof.
  intros Hout.
  rewrite <- (fetched_length (trace (process_item w cfg i u entries))).
  rewrite process_item_fetched.
  rewrite process_item_unfold in Hout.
  now destruct (parse_url u) as [e | [[snapshot subhalo] version]].
Qed.

Lemma write_catalog_quiet K entries :
  (forall p n r o, K (WriteTable p n r o) = false) ->
  (forall m, K (Printed m) = false) ->
  bounded K 0 (write_catalog w cfg entries).
Proof. intros Htable Hprint. unfold write_catalog. quiet_by_hyps. Qed.
End Pauses.

(** X6: when splitting is enabled and the run returns normally, it has
    paused exactly once per item of the batch (line 222 is reached after
    every item, the last one included) and has made exactly one request
    per item. *)
Theorem one_pause_per_item (w : world) (cfg : config) (t0 : list event)
    (batch : list string) :
  parent_file_only cfg = false ->
  resolve_batch w cfg = (t0, inr batch) ->
  let r := download_and_split_hsc_images w cfg in
  outcome r = inr tt ->
  count is_sleep (trace r) = List.length batch
  /\ count is_http_get (trace r) = List.length batch.
Proof.
  intros Hsplit Hbatch r Hout.
  subst r. rewrite (run_after_resolve w cfg t0 batch Hbatch) in Hout |- *.
  cbn [trace outcome fst snd] in Hout |- *. rewrite !count_app.
  pose proof (resolve_batch_quiet w cfg is_sleep (fun _ => eq_refl))
    as Hprep.
  pose proof (resolve_batch_quiet w cfg is_http_get (fun _ => eq_refl))
    as Hprep'.
  unfold bounded in Hprep, Hprep'. rewrite Hbatch in Hprep, Hprep'.
  cbn [trace fst] in Hprep, Hprep'. unfold run_batch in Hout |- *.
  destruct batch as [ | u later]; [cbn; lia | ].
  rewrite outcome_bind in Hout. rewrite !count_bind.
  destruct (outcome (for_each (process_item w cfg) 0 (u :: later)
                       (no_entries cfg))) as [e | entries] eqn:Hloop;
    [discriminate | ].
  rewrite (for_each_count (process_item w cfg) is_sleep 1
             (fun i a s s' => process_item_one_pause w cfg i a s s' Hsplit)
             (u :: later) 0 (no_entries cfg) entries Hloop).
  rewrite (for_each_count (process_item w cfg) is_http_get 1
             (process_item_one_request w cfg)
             (u :: later) 0 (no_entries cfg) entries Hloop).
  pose proof (write_catalog_quiet w cfg is_sleep entries
                (fun _ _ _ _ => eq_refl) (fun _ => eq_refl)) as Hend.
  pose proof (write_catalog_quiet w cfg is_http_get entries
                (fun _ _ _ _ => eq_refl) (fun _ => eq_refl)) as Hend'.
  unfold bounded in Hend, Hend'. lia.
Qed.

Lemma one_pause_per_item_witness :
  count is_sleep
    (trace (download_and_split_hsc_images
              (Scenario.server (Scenario.always Scenario.only_G))
              (Scenario.with_catalog 0)))
  = 2%nat.
Proof.
  apply (one_pause_per_item
           (Scenario.server (Scenario.always Scenario.only_G))
           (Scenario.with_catalog 0)
           [MakeDirs "split_images"; MakeDirs "split_images"]
           [Scenario.url_v2; Scenario.url_unversioned]);
    reflexivity.
Defined.

(** ** Only the parents *)

Section ParentOnly.
Variable w : world.
Variable cfg : config.
Hypothesis Honly : parent_file_only cfg = true.

Lemma process_item_parent_only_quiet K i u entries :
  (forall m, K (Printed m) = false) ->
  (forall url k, K (HttpGet url k) = false) ->
  (forall p b, K (WriteFile p b) = false) ->
  bounded K 0 (process_item w cfg i u entries).
Proof.
  intros Hprint Hget Hfile. rewrite process_item_unfold.
  destruct (parse_url u) as [e | [[snapshot subhalo] version]].
  - unfold bounded. cbn. lia.
  - apply bounded_bind_0.
    + unfold bounded, count. cbn. rewrite Hprint. cbn. lia.
    + intros _. apply bounded_bind_0.
      * unfold bounded. rewrite requests_get_trace. unfold count. cbn.
        rewrite Hget. cbn. lia.
      * intros body. now apply after_download_parent_only.
Qed.

Lemma run_batch_parent_only_quiet K batch :
  (forall m, K (Printed m) = false) ->
  (forall url k, K (HttpGet url k) = false) ->
  (forall p b, K (WriteFile p b) = false) ->
  bounded K 0 (run_batch w cfg batch).
Proof.
  intros Hprint Hget Hfile. unfold run_batch.
  destruct batch as [ | u later]; [now apply bounded_emit_other | ].
  apply bounded_bind_0.
  - apply bounded_for_each_0. intros i a s.
    now apply process_item_parent_only_quiet.
  - intros entries. unfold write_catalog. rewrite Honly. cbn [negb].
    destruct entries as [rows | ]; [ | apply bounded_ret].
    destruct (catalog_path cfg); apply bounded_ret.
Qed.

Lemma resolve_batch_parent_only :
  filter is_makedirs (trace (resolve_batch w cfg))
  = [MakeDirs (parent_dir cfg)].
Proof.
  unfold resolve_batch, os_makedirs, open_url_list. rewrite Honly.
  destruct (makedirs_ok w (parent_dir cfg)); [ | reflexivity].
  now destruct (read_lines w (URL_LIST cfg)).
Qed.
End ParentOnly.

(** X7: with [parent_file_only] set, the run makes the parent directory
    and no other, writes no split image and no catalog, removes nothing
    and never pauses between requests; and a round stores whatever was
    downloaded without opening it, so that a body that is not a FITS
    container is stored like any other and the catalog entries are left
    as they are. *)
Theorem parent_only_mode (w : world) (cfg : config) :
  parent_file_only cfg = true ->
  let r := download_and_split_hsc_images w cfg in
  filter is_makedirs (trace r) = [MakeDirs (parent_dir cfg)]
  /\ count is_write_fits (trace r) = 0%nat
  /\ count is_write_table (trace r) = 0%nat
  /\ count is_remove (trace r) = 0%nat
  /\ count is_sleep (trace r) = 0%nat
  /\ forall i u snapshot subhalo version status_code body entries,
       parse_url u = inr (snapshot, subhalo, version) ->
       download w i u = Status status_code body ->
       ~ error_status status_code ->
       write_fails w (WriteFile (path_join (parent_dir cfg)
                                   (fname_parent snapshot subhalo version))
                                body) = None ->
       process_item w cfg i u entries
       = ([Printed (Downloading (fname_parent snapshot subhalo version)
                      (parent_dir cfg));
           HttpGet u (API_KEY cfg);
           WriteFile (path_join (parent_dir cfg)
                        (fname_parent snapshot subhalo version)) body],
          inr entries).
Proof.
  intros Honly r.
  assert (Hquiet : forall K,
             (forall dir, K (MakeDirs dir) = false) ->
             (forall m, K (Printed m) = false) ->
             (forall url k, K (HttpGet url k) = false) ->
             (forall p b, K (WriteFile p b) = false) ->
             count K (trace r) = 0%nat).
  { intros K Hdirs Hprint Hget Hfile.
    assert (Hrun : bounded K 0 r); [ | unfold bounded in Hrun; lia].
    subst r. unfold download_and_split_hsc_images. apply bounded_bind_0.
    - now apply resolve_batch_quiet.
    - intros batch. now apply run_batch_parent_only_quiet. }
  split; [ | repeat split; try (apply Hquiet; reflexivity)].
  - subst r. unfold download_and_split_hsc_images.
    rewrite trace_bind, filter_app, (resolve_batch_parent_only w cfg Honly).
    destruct (outcome (resolve_batch w cfg)) as [e | batch]; [reflexivity | ].
    rewrite (count_0 _ _ (run_batch_parent_only_quiet w cfg Honly is_makedirs
                            batch (fun _ => eq_refl) (fun _ _ => eq_refl)
                            (fun _ _ => eq_refl))).
    reflexivity.
  - intros i u snapshot subhalo version status_code body entries Hparse Hget
      Hcode Hwrite.
    assert (Hafter : after_download w cfg i snapshot subhalo version entries
                       body
                     = ([WriteFile (path_join (parent_dir cfg)
                                      (fname_parent snapshot subhalo version))
                                   body], inr entries)).
    { unfold after_download, write. now rewrite Honly, Hwrite. }
    rewrite process_item_unfold, Hparse.
    rewrite (requests_get_passes w cfg i u _ _ Hget Hcode).
    cbn [emit ret bind app]. now rewrite Hafter.
Qed.

Lemma parent_only_mode_witness :
  count is_sleep
    (trace (download_and_split_hsc_images
              (Scenario.server (Scenario.always NotFits))
              {| split_output_dir := "split_images";
                 URL_LIST := "urls.txt";
                 BATCH_START := None;
                 BATCH_SIZE := None;
                 API_KEY := Some "key";
                 remove_parent := true;
                 catalog_path := Some "catalog.fits";
                 parent_file_only := true;
                 parent_output_dir := None |}))
  = 0%nat.
Proof.
  apply (parent_only_mode (Scenario.server (Scenario.always NotFits))).
  reflexivity.
Defined.

(** ** The catalog against the split images *)

Section Extends.
Variable P : row -> event -> Prop.

Lemma extends_quiet s t : count is_write_fits t = 0%nat -> extends P s t s.
Proof.
  intros Ht. destruct s as [rows | ]; cbn; [ | reflexivity].
  exists []. rewrite app_nil_r, (count_0 is_write_fits t) by lia.
  split; [reflexivity | constructor].
Qed.

Lemma extends_trans s t s' t' s'' :
  extends P s t s' -> extends P s' t' s'' -> extends P s (t ++ t') s''.
Proof.
  destruct s as [rows | ]; cbn.
  - intros (added & -> & Hall). cbn.
    intros (added' & -> & Hall').
    exists (added ++ added')%list. rewrite app_assoc, filter_app.
    split; [reflexivity | now apply Forall2_app].
  - intros ->. exact id.
Qed.

Lemma extends_weaken (Q : row -> event -> Prop) s t s' :
  (forall r e, P r e -> Q r e) -> extends P s t s' -> extends Q s t s'.
Proof.
  intros HPQ. destruct s as [rows | ]; cbn; [ | exact id].
  intros (added & -> & Hall). exists added. split; [reflexivity | ].
  eapply Forall2_impl; [exact HPQ | exact Hall].
Qed.
End Extends.

Lemma for_each_extends {A} (body : nat -> A -> option (list row)
                                   -> M (option (list row)))
    (P : A -> row -> event -> Prop) (Q : row -> event -> Prop) :
  forall l,
    (forall a r e, In a l -> P a r e -> Q r e) ->
    (forall i a s s', In a l -> outcome (body i a s) = inr s' ->
       extends (P a) s (trace (body i a s)) s') ->
    forall i s s',
      outcome (for_each body i l s) = inr s' ->
      extends Q s (trace (for_each body i l s)) s'.
Proof.
  induction l as [ | a l IH]; intros HPQ Hround i s s' Hloop.
  - cbn in Hloop. injection Hloop as <-. now apply extends_quiet.
  - cbn [for_each] in Hloop |- *.
    rewrite outcome_bind in Hloop. rewrite trace_bind.
    destruct (outcome (body i a s)) as [e | s1] eqn:Hfirst; [discriminate | ].
    apply extends_trans with (s' := s1).
    + apply extends_weaken with (P := P a).
      * intros r ev. apply HPQ. now left.
      * apply Hround; [now left | exact Hfirst].
    + apply IH; [ | | exact Hloop].
      * intros b r ev Hb. apply HPQ. now right.
      * intros k b x x' Hb. apply Hround. now right.
Qed.

Section Rows.
Variable w : world.
Variable cfg : config.

Lemma split_filter_extends snapshot subhalo version hdul k filt s s' :
  In filt filters ->
  outcome (split_filter w cfg snapshot subhalo version hdul k filt s) = inr s' ->
  extends (row_of_item cfg snapshot subhalo version) s
    (trace (split_filter w cfg snapshot subhalo version hdul k filt s)) s'.
Proof.
  intros Hfilt. unfold split_filter, write.
  destruct (find _ hdul) as [sci_hdu | ] eqn:Hfind.
  - apply find_some in Hfind as [_ Hnamed].
    apply has_extname_named in Hnamed; [ | discriminate].
    destruct (write_fails w _) as [x | ]; [discriminate | ].
    destruct s as [rows | ]; cbn.
    + destruct (PyStr.int snapshot) as [e | a] eqn:Ha; cbn; [discriminate | ].
      destruct (PyStr.int subhalo) as [e | b] eqn:Hb; cbn; [discriminate | ].
      intros [= <-].
      exists [catalog_entry (obj_id a b)
                (out_name snapshot subhalo filt version) filt].
      split; [reflexivity | ]. constructor; [ | constructor].
      exists a, b, filt, sci_hdu. repeat split; assumption.
    + now intros [= <-].
  - cbn. intros [= <-]. now apply extends_quiet.
Qed.

Lemma after_download_extends i snapshot subhalo version s body s' :
  outcome (after_download w cfg i snapshot subhalo version s body) = inr s' ->
  extends (row_of_item cfg snapshot subhalo version) s
    (trace (after_download w cfg i snapshot subhalo version s body)) s'.
Proof.
  unfold after_download. intros Hout.
  rewrite outcome_bind in Hout. rewrite trace_bind.
  destruct (outcome (write w _)) as [e | []] eqn:Hstore; [discriminate | ].
  apply extends_trans with (s' := s).
  { apply extends_quiet. now rewrite count_write. }
  destruct (negb (parent_file_only cfg)).
  - rewrite outcome_bind in Hout. rewrite trace_bind.
    destruct (outcome (fits_open body)) as [e | hdul] eqn:Hopen;
      [discriminate | ].
    apply extends_trans with (s' := s).
    { apply extends_quiet. now destruct body. }
    rewrite outcome_bind in Hout. rewrite trace_bind.
    destruct (outcome (for_each _ 0 filters s)) as [e | s1] eqn:Hloop;
      [discriminate | ].
    apply extends_trans with (s' := s1).
    + apply (for_each_extends _
               (fun _ => row_of_item cfg snapshot subhalo version))
        with (l := filters); [auto | | exact Hloop].
      intros k filt x x' Hfilt. now apply split_filter_extends.
    + rewrite outcome_bind, cleanup_ok in Hout. cbn in Hout.
      injection Hout as <-. apply extends_quiet.
      rewrite count_bind, cleanup_ok. cbn.
      pose proof (cleanup_quiet w cfg is_write_fits i
                    (path_join (parent_dir cfg)
                       (fname_parent snapshot subhalo version))
                    (fname_parent snapshot subhalo version)
                    (fun _ => eq_refl) (fun _ => eq_refl)) as Hclean.
      unfold bounded in Hclean. lia.
  - cbn in Hout. injection Hout as <-. now apply extends_quiet.
Qed.

Lemma process_item_extends i u s s' :
  outcome (process_item w cfg i u s) = inr s' ->
  extends (row_of_url cfg u) s (trace (process_item w cfg i u s)) s'.
Proof.
  rewrite process_item_unfold.
  destruct (parse_url u) as [e | [[snapshot subhalo] version]] eqn:Hparse;
    [discriminate | ].
  rewrite bind_ok. cbn [trace outcome fst snd].
  rewrite outcome_bind, trace_bind, requests_get_trace. intros Hout.
  destruct (outcome (requests_get w cfg i u)) as [e | body];
    [discriminate | ].
  apply extends_trans with (s' := s); [now apply extends_quiet | ].
  apply extends_trans with (s' := s); [now apply extends_quiet | ].
  apply extends_weaken with (P := row_of_item cfg snapshot subhalo version).
  - intros r ev Hr. now exists snapshot, subhalo, version.
  - now apply after_download_extends.
Qed.
End Rows.

(** X8: when a catalog is requested, splitting is enabled and the run of
    a non-empty batch returns normally, the table written last has
    exactly one row per split image written during the run, in the order
    of the writes, and each row records its own image: its keys are
    [object_id], [filename], [filter] in that order; its file name is the
    name under which that image was written in the split directory; its
    filter is the band for which the extension copied into that image is
    named, one of the five; and its identifier is made of the two
    integers read from a locator of the batch, the one whose parts make
    up the file name. *)
Theorem catalog_rows_match_split_images (w : world) (cfg : config)
    (path : string) (t0 : list event) (batch : list string) :
  catalog_path cfg = Some path ->
  path <> EmptyString ->
  parent_file_only cfg = false ->
  resolve_batch w cfg = (t0, inr batch) ->
  batch <> [] ->
  let r := download_and_split_hsc_images w cfg in
  outcome r = inr tt ->
  exists t rows,
    trace r = (t ++ [WriteTable path catalog_names rows true;
                     Printed (WroteCatalog (List.length rows) path)])%list
    /\ List.length rows = count is_write_fits (trace r)
    /\ Forall2 (row_of_batch cfg batch) rows
               (filter is_write_fits (trace r)).
Proof.
  intros Hpath Hne Hsplit Hbatch Hitems r Hout. subst r.
  rewrite (run_after_resolve w cfg t0 batch Hbatch) in Hout |- *.
  cbn [trace outcome fst snd] in Hout |- *.
  unfold run_batch, no_entries in Hout |- *.
  destruct batch as [ | u later]; [contradiction | ].
  assert (Htruthy : truthy_opt (catalog_path cfg) = true).
  { rewrite Hpath. apply truthy_opt_true. now exists path. }
  rewrite Htruthy in Hout |- *.
  rewrite outcome_bind in Hout. rewrite trace_bind.
  destruct (outcome (for_each (process_item w cfg) 0 (u :: later) (Some [])))
    as [e | entries] eqn:Hloop; [discriminate | ].
  pose proof (for_each_extends (process_item w cfg) (row_of_url cfg)
                (row_of_batch cfg (u :: later)) (u :: later)
                (fun a r ev Ha Hr => ex_intro _ a (conj Ha Hr))
                (fun i a s s' _ => process_item_extends w cfg i a s s')
                0%nat (Some []) entries Hloop) as Hrows.
  cbn [extends app] in Hrows. destruct Hrows as (rows & -> & Hall).
  unfold write_catalog, write in Hout |- *.
  rewrite Hpath, Hsplit in Hout |- *. cbn [negb] in Hout |- *.
  destruct (write_fails w _); [discriminate | ].
  pose proof (resolve_batch_quiet w cfg is_write_fits (fun _ => eq_refl))
    as Hprep.
  unfold bounded in Hprep. rewrite Hbatch in Hprep. cbn [trace fst] in Hprep.
  apply count_0 in Hprep.
  clear Hloop Hout.
  set (t1 := trace (for_each (process_item w cfg) 0 (u :: later) (Some [])))
    in *.
  clearbody t1. exists (t0 ++ t1)%list, rows.
  split; [ | split].
  - cbn. now rewrite <- app_assoc.
  - unfold count. rewrite !filter_app, Hprep. cbn. rewrite app_nil_r.
    now apply Forall2_length in Hall.
  - rewrite !filter_app, Hprep. cbn. rewrite app_nil_r. exact Hall.
Qed.

Lemma catalog_rows_match_split_images_witness :
  exists t rows,
    trace (download_and_split_hsc_images
             (Scenario.server (Scenario.always Scenario.only_G))
             (Scenario.with_catalog 0))
    = (t ++ [WriteTable "split_images/catalog.fits" catalog_names rows true;
             Printed (WroteCatalog (List.length rows)
                        "split_images/catalog.fits")])%list
    /\ List.length rows = 2%nat.
Proof.
  destruct (catalog_rows_match_split_images
              (Scenario.server (Scenario.always Scenario.only_G))
              (Scenario.with_catalog 0) "split_images/catalog.fits"
              [MakeDirs "split_images"; MakeDirs "split_images"]
              [Scenario.url_v2; Scenario.url_unversioned])
    as (t & rows & Htrace & Hlen & _);
    try reflexivity; try discriminate.
  exists t, rows. split; [exact Htrace | ]. rewrite Hlen. reflexivity.
Defined.

(** ** Identifiers that are not integers *)

Lemma int_raises_value_error (s : string) (e : exn) :
  PyStr.int s = inl e -> e = ValueError.
Proof.
  unfold PyStr.int.
  destruct (match PyStr.strip_by PyStr.int_space s with
            | EmptyString => _
            | String _ _ => _
            end); [discriminate | now intros [= <-]].
Qed.

Section BadIdentifiers.
Variable w : world.
Variable cfg : config.
Hypothesis Hwrites : forall p h o, write_fails w (WriteFits p h o) = None.

(** Without a catalog the loop over the filters cannot fail. *)
Lemma split_loop_without_catalog snapshot subhalo version hdul l k :
  outcome (for_each (split_filter w cfg snapshot subhalo version hdul) k l
             None)
  = inr None.
Proof.
  revert k. induction l as [ | filt l IH]; intros k; [reflexivity | ].
  cbn [for_each]. rewrite outcome_bind.
  replace (outcome (split_filter w cfg snapshot subhalo version hdul k filt
                      None)) with (@inr exn _ (@None (list row))).
  - apply IH.
  - unfold split_filter, write.
    destruct (find _ hdul); [ | reflexivity]. now rewrite Hwrites.
Qed.

(** With a catalog, the loop fails at the first filter found, once its
    split image is written. *)
Lemma split_loop_bad_identifier snapshot subhalo version hdul rows l k :
  (exists e, PyStr.int snapshot = inl e)
  \/ (exists e, PyStr.int subhalo = inl e) ->
  existsb (fun filt =>
             match find (has_extname (target_ext filt)) hdul with
             | Some _ => true
             | None => false
             end) l = true ->
  outcome (for_each (split_filter w cfg snapshot subhalo version hdul) k l
             (Some rows))
  = inl ValueError
  /\ count is_write_fits
       (trace (for_each (split_filter w cfg snapshot subhalo version hdul) k l
                 (Some rows)))
     = 1%nat.
Proof.
  intros Hbad. revert k. induction l as [ | filt l IH]; intros k Hfound;
    [discriminate | ].
  cbn [existsb] in Hfound. cbn [for_each].
  rewrite outcome_bind, count_bind.
  destruct (find (has_extname (target_ext filt)) hdul) as [sci_hdu | ]
    eqn:Hfind.
  - assert (Hround :
        outcome (split_filter w cfg snapshot subhalo version hdul k filt
                   (Some rows)) = inl ValueError
        /\ count is_write_fits
             (trace (split_filter w cfg snapshot subhalo version hdul k filt
                       (Some rows))) = 1%nat).
    { unfold split_filter, write. rewrite Hfind, Hwrites.
      destruct Hbad as [[e He] | [e He]].
      - rewrite He, (int_raises_value_error _ _ He). now split.
      - destruct (PyStr.int snapshot) as [e' | a] eqn:Ha.
        + rewrite (int_raises_value_error _ _ Ha). now split.
        + rewrite He, (int_raises_value_error _ _ He). now split. }
    destruct Hround as [-> ->]. now split.
  - rewrite (split_filter_missing w cfg _ _ _ _ _ _ _ Hfind).
    cbn [outcome trace fst snd]. apply (IH (S k) Hfound).
Qed.
End BadIdentifiers.

(** X9: the snapshot and subhalo components of a locator are read as
    integers only to build a catalog row.  For an item that parses, is
    downloaded and stored, whose container has at least one of the five
    filters, and whose snapshot or subhalo component is not an integer
    literal: with a catalog kept, the round raises [ValueError] at the
    first filter found, after that one split image has been written and
    before the parent is removed or the pause is made; with no catalog
    kept, the same round ends normally. *)
Theorem non_integer_identifier (w : world) (cfg : config) (i : nat)
    (u snapshot subhalo version : string) (status_code : Z)
    (hdul : list hdu) :
  parent_file_only cfg = false ->
  parse_url u = inr (snapshot, subhalo, version) ->
  download w i u = Status status_code (Fits hdul) ->
  ~ error_status status_code ->
  write_fails w (WriteFile (path_join (parent_dir cfg)
                              (fname_parent snapshot subhalo version))
                           (Fits hdul)) = None ->
  (forall p h o, write_fails w (WriteFits p h o) = None) ->
  no_filter_found hdul = false ->
  (exists e, PyStr.int snapshot = inl e)
  \/ (exists e, PyStr.int subhalo = inl e) ->
  (forall rows,
      outcome (process_item w cfg i u (Some rows)) = inl ValueError
      /\ count is_write_fits (trace (process_item w cfg i u (Some rows)))
         = 1%nat
      /\ count is_remove (trace (process_item w cfg i u (Some rows))) = 0%nat
      /\ count is_sleep (trace (process_item w cfg i u (Some rows))) = 0%nat)
  /\ outcome (process_item w cfg i u None) = inr None.
Proof.
  intros Hsplit Hparse Hget Hcode Hstore Hwrites Hsome Hbad.
  assert (Hfound : existsb (fun filt =>
                              match find (has_extname (target_ext filt)) hdul
                              with
                              | Some _ => true
                              | None => false
                              end) filters = true).
  { unfold no_filter_found, filters in Hsome |- *.
    cbn [forallb existsb] in Hsome |- *.
    repeat match goal with
           | |- context [find ?f hdul] => destruct (find f hdul)
           end; cbn in Hsome |- *; congruence. }
  assert (Hshape : forall entries,
             process_item w cfg i u entries
             = bind ([Printed (Downloading
                                 (fname_parent snapshot subhalo version)
                                 (parent_dir cfg));
                      HttpGet u (API_KEY cfg);
                      WriteFile (path_join (parent_dir cfg)
                                   (fname_parent snapshot subhalo version))
                                (Fits hdul)], inr tt)
                 (fun _ =>
                    catalog_entries <-
                      for_each (split_filter w cfg snapshot subhalo version
                                  hdul) 0 filters entries ;;
                    cleanup w cfg i
                      (path_join (parent_dir cfg)
                         (fname_parent snapshot subhalo version))
                      (fname_parent snapshot subhalo version) ;;
                    emit Sleep ;;
                    ret catalog_entries)).
  { intros entries. rewrite process_item_unfold, Hparse.
    rewrite (requests_get_passes w cfg i u _ _ Hget Hcode).
    cbn [emit ret bind app].
    unfold after_download, write. rewrite Hstore, Hsplit.
    cbn [emit ret bind app negb fits_open].
    now destruct (bind _ _). }
  split.
  - intros rows.
    destruct (split_loop_bad_identifier w cfg Hwrites snapshot subhalo version
                hdul rows filters 0 Hbad Hfound) as [Hfail Hone].
    rewrite Hshape, bind_ok. cbn [trace outcome fst snd].
    rewrite outcome_bind, trace_bind, Hfail, app_nil_r.
    rewrite !count_app, Hone.
    pose proof (bounded_for_each_0 is_remove _
                  (fun k filt s =>
                     split_filter_quiet w cfg is_remove snapshot subhalo
                       version hdul k filt s (fun _ _ _ => eq_refl)
                       (fun _ => eq_refl))
                  filters 0 (Some rows)) as Hremove.
    pose proof (bounded_for_each_0 is_sleep _
                  (fun k filt s =>
                     split_filter_quiet w cfg is_sleep snapshot subhalo
                       version hdul k filt s (fun _ _ _ => eq_refl)
                       (fun _ => eq_refl))
                  filters 0 (Some rows)) as Hsleep.
    unfold bounded in Hremove, Hsleep.
    repeat split;
      unfold count at 1; cbn [filter is_remove is_sleep List.length]; lia.
  - rewrite Hshape, bind_ok. cbn [outcome snd].
    rewrite outcome_bind, split_loop_without_catalog by exact Hwrites.
    now rewrite outcome_bind, cleanup_ok.
Qed.

Lemma non_integer_identifier_witness :
  outcome (process_item
             (Scenario.server (Scenario.always Scenario.only_G))
             (Scenario.with_catalog 0) 0
             "https://www.tng-project.org/api/TNG50-1/snapshots/latest/subhalos/0/skirt/skirt_images_hsc_realistic_v2.fits"
             (Some []))
  = inl ValueError.
Proof.
  apply (non_integer_identifier
           (Scenario.server (Scenario.always Scenario.only_G))
           (Scenario.with_catalog 0) 0
           "https://www.tng-project.org/api/TNG50-1/snapshots/latest/subhalos/0/skirt/skirt_images_hsc_realistic_v2.fits"
           "latest" "0" "v2" 200%Z [Scenario.hdu_G]);
    try reflexivity.
  - unfold error_status. lia.
  - left. exists ValueError. reflexivity.
Defined.

(** ** Removing the parent *)

Section Alike.
Context {A B : Type}.

Lemma alike_refl (m : M A) : alike m m.
Proof. now split. Qed.

Lemma alike_bind (m m' : M A) (f f' : A -> M B) :
  alike m m' -> (forall a, alike (f a) (f' a)) -> alike (bind m f) (bind m' f').
Proof.
  intros [Hout Htrace] Hf. split.
  - rewrite !outcome_bind, <- Hout.
    destruct (outcome m) as [e | a]; [reflexivity | apply Hf].
  - rewrite !trace_bind, !map_app, Htrace, <- Hout.
    destruct (outcome m) as [e | a]; [reflexivity | ].
    f_equal. apply Hf.
Qed.
End Alike.

Lemma alike_for_each {A St} (body body' : nat -> A -> St -> M St) :
  (forall i a s, alike (body i a s) (body' i a s)) ->
  forall l i s, alike (for_each body i l s) (for_each body' i l s).
Proof.
  intros Hbody. induction l as [ | a l IH]; intros i s; cbn [for_each].
  - apply alike_refl.
  - apply alike_bind; [apply Hbody | intros s'; apply IH].
Qed.

Section Removal.
Variable w : world.
Variable cfg : config.
Variable answers : nat -> string -> bool.

Lemma cleanup_alike i parent_path fname :
  alike (cleanup w cfg i parent_path fname)
        (cleanup (with_remove_ok w answers) cfg i parent_path fname).
Proof.
  unfold cleanup. destruct (remove_parent cfg); [ | apply alike_refl].
  cbn [remove_ok with_remove_ok].
  destruct (remove_ok w i parent_path), (answers i parent_path); now split.
Qed.

Lemma process_item_alike i u entries :
  alike (process_item w cfg i u entries)
        (process_item (with_remove_ok w answers) cfg i u entries).
Proof.
  unfold process_item.
  apply alike_bind; [apply alike_refl | intros [[snapshot subhalo] version]].
  apply alike_bind; [apply alike_refl | intros _].
  apply alike_bind; [apply alike_refl | intros body].
  apply alike_bind; [apply alike_refl | intros _].
  destruct (negb (parent_file_only cfg)); [ | apply alike_refl].
  apply alike_bind; [apply alike_refl | intros hdul].
  apply alike_bind; [apply alike_refl | intros s].
  apply alike_bind; [apply cleanup_alike | intros _].
  apply alike_refl.
Qed.
End Removal.

(** X10: whether [os.remove] succeeds changes nothing but the report
    printed.  Two runs in worlds that differ only in the answers to
    removals end with the same result or the same exception, and their
    traces are the same once "removed" and "could not remove" are read as
    one: the same requests, the same files and split images written, the
    same catalog. *)
Theorem removal_failure_only_changes_the_report (w : world) (cfg : config)
    (answers : nat -> string -> bool) :
  alike (download_and_split_hsc_images w cfg)
        (download_and_split_hsc_images (with_remove_ok w answers) cfg).
Proof.
  unfold download_and_split_hsc_images.
  apply alike_bind; [apply alike_refl | intros batch].
  unfold run_batch. destruct batch as [ | u later]; [apply alike_refl | ].
  apply alike_bind; [ | intros entries; apply alike_refl].
  apply alike_for_each. intros i a s. apply process_item_alike.
Qed.

(** Removals that follow the writing of their file. *)
Lemma removes_own_more (t : list event) :
  forall written written',
    (forall p, In p written -> In p written') ->
    removes_own_files written t = true ->
    removes_own_files written' t = true.
Proof.
  induction t as [ | e t IH]; intros written written' Hsub; [reflexivity | ].
  destruct e; cbn; try (apply IH; exact Hsub).
  - apply IH. intros p [<- | Hp]; [now left | right; now apply Hsub].
  - intros Hok. apply andb_prop in Hok as [Hmem Hrest].
    apply andb_true_intro. split; [ | now apply (IH written)].
    apply existsb_exists in Hmem as (p & Hp & Heq).
    apply existsb_exists. exists p. split; [now apply Hsub | exact Heq].
Qed.

Lemma removes_own_app (t t' : list event) :
  forall written,
    removes_own_files written t = true ->
    removes_own_files [] t' = true ->
    removes_own_files written (t ++ t') = true.
Proof.
  induction t as [ | e t IH]; intros written Ht Ht'.
  - cbn. apply (removes_own_more t' []); [intros p [] | exact Ht'].
  - destruct e; cbn in Ht |- *; try (apply IH; assumption).
    apply andb_prop in Ht as [Hmem Hrest].
    apply andb_true_intro. split; [exact Hmem | now apply IH].
Qed.

Lemma removes_own_quiet (t : list event) written :
  count is_remove t = 0%nat -> removes_own_files written t = true.
Proof.
  unfold count. revert written.
  induction t as [ | e t IH]; intros written; [reflexivity | ].
  destruct e; cbn; try (apply IH). discriminate.
Qed.

Lemma removes_own_for_each {A St} (body : nat -> A -> St -> M St) :
  (forall i a s, removes_own_files [] (trace (body i a s)) = true) ->
  forall l i s, removes_own_files [] (trace (for_each body i l s)) = true.
Proof.
  intros Hbody. induction l as [ | a l IH]; intros i s; [reflexivity | ].
  cbn [for_each]. rewrite trace_bind.
  apply removes_own_app; [apply Hbody | ].
  destruct (outcome (body i a s)); [reflexivity | apply IH].
Qed.

Lemma removes_own_skip (t t' : list event) written :
  count is_remove t = 0%nat ->
  count is_write_file t = 0%nat ->
  removes_own_files written (t ++ t') = removes_own_files written t'.
Proof.
  unfold count. induction t as [ | e t IH]; intros Hr Hw; [reflexivity | ].
  destruct e; cbn in Hr, Hw |- *; try (now apply IH); discriminate.
Qed.

Lemma write_trace (w : world) (e : event) : trace (write w e) = [e].
Proof. unfold write. now destruct (write_fails w e). Qed.

Lemma process_item_removes_own (w : world) (cfg : config) i u entries :
  removes_own_files [] (trace (process_item w cfg i u entries)) = true.
Proof.
  rewrite process_item_unfold.
  destruct (parse_url u) as [e | [[snapshot subhalo] version]];
    [reflexivity | ].
  rewrite bind_ok. cbn [trace fst app removes_own_files].
  rewrite trace_bind, requests_get_trace. cbn [app removes_own_files].
  destruct (outcome (requests_get w cfg i u)) as [e | body]; [reflexivity | ].
  unfold after_download.
  set (fname := fname_parent snapshot subhalo version).
  set (parent_path := path_join (parent_dir cfg) fname).
  rewrite trace_bind, write_trace. cbn [app removes_own_files].
  destruct (outcome (write w _)) as [e | []]; [reflexivity | ].
  destruct (negb (parent_file_only cfg)); [ | reflexivity].
  rewrite trace_bind. destruct body as [hdul | ]; [ | reflexivity].
  cbn [fits_open ret trace outcome fst snd app]. rewrite trace_bind.
  rewrite removes_own_skip.
  - destruct (outcome (for_each _ 0 filters entries)) as [e | s];
      [reflexivity | ].
    unfold cleanup. destruct (remove_parent cfg); [ | reflexivity].
    destruct (remove_ok w i parent_path); cbn;
      now rewrite String.eqb_refl.
  - pose proof (bounded_for_each_0 is_remove _
                  (fun k filt s =>
                     split_filter_quiet w cfg is_remove snapshot subhalo
                       version hdul k filt s (fun _ _ _ => eq_refl)
                       (fun _ => eq_refl))
                  filters 0 entries) as Hq.
    unfold bounded in Hq. lia.
  - pose proof (bounded_for_each_0 is_write_file _
                  (fun k filt s =>
                     split_filter_quiet w cfg is_write_file snapshot subhalo
                       version hdul k filt s (fun _ _ _ => eq_refl)
                       (fun _ => eq_refl))
                  filters 0 entries) as Hq.
    unfold bounded in Hq. lia.
Qed.

(** X11: the run removes only files it has itself written: every
    [os.remove] is of a path to which a parent file was written earlier
    in the same run, and with [remove_parent] unset nothing is removed. *)
Theorem removes_only_what_it_wrote (w : world) (cfg : config) :
  let r := download_and_split_hsc_images w cfg in
  removes_own_files [] (trace r) = true
  /\ (forall t path t',
        trace r = (t ++ Remove path :: t')%list ->
        exists body, In (WriteFile path body) t)
  /\ (remove_parent cfg = false -> count is_remove (trace r) = 0%nat).
Proof.
  intros r.
  assert (Hown : removes_own_files [] (trace r) = true).
  { subst r. unfold download_and_split_hsc_images. rewrite trace_bind.
    apply removes_own_app.
    - apply removes_own_quiet.
      pose proof (resolve_batch_quiet w cfg is_remove (fun _ => eq_refl))
        as Hq. unfold bounded in Hq. lia.
    - destruct (outcome (resolve_batch w cfg)) as [e | batch];
        [reflexivity | ].
      unfold run_batch. destruct batch as [ | u later]; [reflexivity | ].
      rewrite trace_bind. apply removes_own_app.
      + apply removes_own_for_each. intros i a s.
        apply process_item_removes_own.
      + destruct (outcome (for_each _ 0 (u :: later) _)) as [e | entries];
          [reflexivity | ].
        apply removes_own_quiet.
        pose proof (write_catalog_quiet w cfg is_remove entries
                      (fun _ _ _ _ => eq_refl) (fun _ => eq_refl)) as Hq.
        unfold bounded in Hq. lia. }
  split; [exact Hown | split].
  - intros t path t' Htrace. rewrite Htrace in Hown. clear Htrace.
    assert (Hgen : forall s written,
               removes_own_files written (s ++ Remove path :: t') = true ->
               In path written \/ exists body, In (WriteFile path body) s).
    { induction s as [ | e s IH]; intros written Hok.
      - cbn in Hok. apply andb_prop in Hok as [Hmem _].
        apply existsb_exists in Hmem as (p & Hp & Heq).
        apply String.eqb_eq in Heq as <-. now left.
      - destruct e as [dir | m | url k | p b | p h o | p | | p n rs o | p ls];
          cbn in Hok;
          try (destruct (IH written Hok) as [Hin | [body Hin]];
               [now left | right; exists body; now right]).
        + destruct (IH (p :: written) Hok) as [[<- | Hin] | [b' Hin]].
          * right. exists b. now left.
          * now left.
          * right. exists b'. now right.
        + apply andb_prop in Hok as [_ Hok].
          destruct (IH written Hok) as [Hin | [body Hin]];
            [now left | right; exists body; now right]. }
    destruct (Hgen t [] Hown) as [[] | Hin]. exact Hin.
  - intros Hkeep.
    assert (Hrun : bounded is_remove 0 r); [ | unfold bounded in Hrun; lia].
    subst r. unfold download_and_split_hsc_images. apply bounded_bind_0.
    + now apply resolve_batch_quiet.
    + intros batch. unfold run_batch.
      destruct batch as [ | u later]; [now apply bounded_emit_other | ].
      apply bounded_bind_0.
      * apply bounded_for_each_0. intros i a s.
        unfold process_item, requests_get, fits_open, cleanup.
        rewrite Hkeep. quiet. now apply split_filter_quiet.
      * intros entries. now apply write_catalog_quiet.
Qed.

(** ** Fetching the list *)

Lemma prefix_true (n h : string) :
  String.prefix n h = true -> exists post, h = n ++ post.
Proof.
  revert h. induction n as [ | c n IH]; intros h Hpre.
  - now exists h.
  - destruct h as [ | c' h]; cbn in Hpre; [discriminate | ].
    destruct (ascii_dec c c') as [<- | ]; [ | discriminate].
    destruct (IH h Hpre) as [post ->]. now exists post.
Qed.

(** [needle in hay] holds exactly of the strings that have [needle] as a
    substring. *)
Lemma contains_substring (n h : string) :
  PyStr.contains n h = true <-> exists pre post, h = pre ++ n ++ post.
Proof.
  split.
  - induction h as [ | c h IH]; cbn [PyStr.contains]; intros Hin;
      apply orb_prop in Hin as [Hpre | Hlater]; try discriminate.
    + destruct (prefix_true _ _ Hpre) as [post ->]. now exists EmptyString, post.
    + destruct (prefix_true _ _ Hpre) as [post ->]. now exists EmptyString, post.
    + destruct (IH Hlater) as (pre & post & ->).
      now exists (String c pre), post.
  - intros (pre & post & ->). apply contains_app.
Qed.

Section Fetching.
Variable w : world.
Variable key : option string.

Lemma get_endpoint_answers url v :
  answers w url v ->
  get_endpoint w key (JStr url) = ([HttpGet url key], inr v).
Proof.
  intros (status_code & Hreply & Hcode). unfold get_endpoint.
  now rewrite Hreply, (raises_for_status_other _ Hcode).
Qed.

Lemma get_endpoint_unanswered url :
  unanswered w url ->
  exists e, get_endpoint w key (JStr url) = ([HttpGet url key], inl e).
Proof.
  unfold get_endpoint.
  intros [-> | (status_code & body & -> & Hbad)]; [now eexists | ].
  destruct (raises_for_status status_code) eqn:Hcode; [now eexists | ].
  destruct Hbad as [Herror | ->]; [ | now eexists].
  apply raises_for_status_error in Herror. congruence.
Qed.

(** Line 55 on a list of strings. *)
Lemma keep_strings (x : string) (l : list string) :
  PyJson.keep x (map JStr l) = inr (map JStr (filter (PyStr.contains x) l)).
Proof.
  induction l as [ | u l IH]; [reflexivity | ].
  cbn [map PyJson.keep PyJson.contains Res.bind filter]. rewrite IH.
  cbn [Res.bind Res.ret]. now destruct (PyStr.contains x u).
Qed.

(** Line 58 as the round of a loop, over listings of strings. *)
Lemma collect_all (l : list string) (files : list (list string)) :
  Forall2 (lists w) l files ->
  forall k acc,
    for_each (collect w key) k (map JStr l) acc
    = (map (fun u => HttpGet u key) l,
       inr (acc ++ map JStr (List.concat files))%list).
Proof.
  induction 1 as [ | u fs l files (items & Hreply & Hfiles) _ IH];
    intros k acc.
  - cbn. now rewrite app_nil_r.
  - cbn [for_each map]. unfold collect at 1.
    rewrite (get_endpoint_answers u _ Hreply), bind_ok.
    cbn [PyJson.getitem]. rewrite Hfiles.
    cbn [lift bind ret app trace outcome fst snd PyJson.iterate].
    rewrite IH. cbn [List.concat map]. now rewrite map_app, app_assoc.
Qed.

Lemma text_lines_strings (l : list string) :
  text_lines (map JStr l) = (map (fun u => u ++ newline) l, inr tt).
Proof.
  induction l as [ | u l IH]; [reflexivity | ].
  cbn [map text_lines]. now rewrite IH.
Qed.

(** Lines 60-62 on a list of strings: one write of all the lines. *)
Lemma write_lines_strings (output_path : string) (l : list string) :
  write_lines w output_path (map JStr l)
  = write w (WriteLines output_path (map (fun u => u ++ newline) l)).
Proof.
  unfold write_lines. rewrite text_lines_strings.
  destruct (write w _) as [t [e | []]]; cbn; now rewrite ?app_nil_r.
Qed.

Lemma get_endpoint_quiet url :
  bounded is_write_lines 0 (get_endpoint w key url).
Proof. unfold get_endpoint. quiet. Qed.

Lemma collect_quiet k url acc :
  bounded is_write_lines 0 (collect w key k url acc).
Proof.
  unfold collect. apply bounded_bind_0; [apply get_endpoint_quiet | ].
  intros reply. quiet.
Qed.

Lemma get_endpoint_keys url :
  Forall (fun e => forall u k', e = HttpGet u k' -> k' = key)
         (trace (get_endpoint w key url)).
Proof.
  unfold get_endpoint.
  destruct url as [ | b | z | f | u | l | items]; try constructor.
  destruct (endpoint w u) as [ | status_code [v | ]];
    try destruct (raises_for_status status_code); cbn;
    repeat constructor; now intros u' k' [= _ <-].
Qed.

Lemma collect_keys (l : list json) k acc :
  Forall (fun e => forall u k', e = HttpGet u k' -> k' = key)
    (trace (for_each (collect w key) k l acc)).
Proof.
  apply (Forall_for_each _ _). intros i u s. unfold collect.
  rewrite trace_bind. apply Forall_app. split; [apply get_endpoint_keys | ].
  destruct (outcome (get_endpoint w key u)) as [e | reply]; [constructor | ].
  destruct (PyJson.getitem reply "files") as [e | files]; [constructor | ].
  cbn. destruct (PyJson.iterate files); constructor.
Qed.

Lemma write_lines_trace output_path all_urls :
  trace (write_lines w output_path all_urls)
  = [WriteLines output_path (fst (text_lines all_urls))].
Proof.
  unfold write_lines. destruct (text_lines all_urls) as [lines loop_end].
  rewrite trace_bind, write_trace.
  destruct (outcome (write w _)); [reflexivity | ].
  now destruct loop_end.
Qed.
End Fetching.

(** X12: when the index answers with a list of strings and every
    snapshot listing kept answers with its files, [fetch] requests the
    index, then the snapshot URLs of the index that contain
    SNAPSHOT_FILTER as a substring, in the order of the index and with
    the key, and then writes to [output_path], in one write, the files of
    those listings in that order, one per line. *)
Theorem fetch_writes_the_listed_files (w : world) (key : option string)
    (BASE_API_URL ENDING SNAPSHOT_FILTER output_path : string)
    (snapshot_urls : list string) (files : list (list string)) :
  answers w (BASE_API_URL ++ ENDING) (JList (map JStr snapshot_urls)) ->
  let filtered := filter (PyStr.contains SNAPSHOT_FILTER) snapshot_urls in
  Forall2 (lists w) filtered files ->
  make_list_of_urls w key BASE_API_URL ENDING SNAPSHOT_FILTER output_path
  = bind (HttpGet (BASE_API_URL ++ ENDING) key
            :: map (fun u => HttpGet u key) filtered, inr tt)
      (fun _ =>
         write w (WriteLines output_path
                    (map (fun u => u ++ newline) (List.concat files))))
  /\ (forall u, In u filtered <->
        In u snapshot_urls
        /\ exists pre post, u = pre ++ SNAPSHOT_FILTER ++ post).
Proof.
  intros Hindex filtered Hok. split.
  - unfold make_list_of_urls.
    rewrite (get_endpoint_answers w key _ _ Hindex), bind_ok.
    cbn [PyJson.iterate Res.bind]. rewrite keep_strings. fold filtered.
    unfold lift. rewrite !bind_ok.
    rewrite (collect_all w key filtered files Hok 0 []), !bind_ok.
    cbn [trace outcome fst snd app]. now rewrite write_lines_strings.
  - intros u. subst filtered. rewrite filter_In, contains_substring.
    reflexivity.
Qed.

Lemma fetch_writes_the_listed_files_witness :
  let w := {| environ_TNG_API_KEY := None;
              makedirs_ok := fun _ => true;
              read_lines := fun _ => None;
              download := fun _ _ => Unreachable;
              remove_ok := fun _ _ => true;
              write_fails := fun _ => None;
              endpoint := fun url =>
                if String.eqb url "https://x/api/"
                then ApiStatus 200
                       (Some (JList [JStr "s_v2_91"; JStr "s_v2_72"]))
                else ApiStatus 200
                       (Some (JDict [("count", JInt 1);
                                     ("files",
                                      JList [JStr (url ++ "/a.fits")])])) |} in
  make_list_of_urls w (Some "key") "https://x" "/api/" "_91" "urls.txt"
  = ([HttpGet "https://x/api/" (Some "key"); HttpGet "s_v2_91" (Some "key");
      WriteLines "urls.txt" ["s_v2_91/a.fits" ++ newline]], inr tt).
Proof.
  intros w.
  destruct (fetch_writes_the_listed_files w (Some "key") "https://x" "/api/"
              "_91" "urls.txt" ["s_v2_91"; "s_v2_72"] [["s_v2_91/a.fits"]])
    as [Hrun _].
  - exists 200%Z. split; [reflexivity | unfold error_status; lia].
  - constructor; [ | constructor].
    exists [("count", JInt 1); ("files", JList [JStr "s_v2_91/a.fits"])].
    split; [ | reflexivity].
    exists 200%Z. split; [reflexivity | unfold error_status; lia].
  - rewrite Hrun. reflexivity.
Defined.

(** X13: [fetch] opens its output file only after every request has been
    answered.  If the index does not answer, or answers with a list of
    strings of which one that the filter keeps does not answer (no
    response, a client or server error status, or a body that is not
    JSON), the call ends with an exception and the output file is not
    touched, so that an earlier list at that path is left as it was. *)
Theorem fetch_failure_writes_nothing (w : world) (key : option string)
    (BASE_API_URL ENDING SNAPSHOT_FILTER output_path : string) :
  unanswered w (BASE_API_URL ++ ENDING)
  \/ (exists snapshot_urls u,
        answers w (BASE_API_URL ++ ENDING) (JList (map JStr snapshot_urls))
        /\ In u (filter (PyStr.contains SNAPSHOT_FILTER) snapshot_urls)
        /\ unanswered w u) ->
  let r := make_list_of_urls w key BASE_API_URL ENDING SNAPSHOT_FILTER
             output_path in
  (exists e, outcome r = inl e)
  /\ count is_write_lines (trace r) = 0%nat.
Proof.
  intros Hfail r. subst r. unfold make_list_of_urls.
  destruct Hfail as [Hroot | (snapshot_urls & u & Hindex & Hu & Hbad)].
  - destruct (get_endpoint_unanswered w key _ Hroot) as [e He]. rewrite He.
    split; [now exists e | reflexivity].
  - rewrite (get_endpoint_answers w key _ _ Hindex), bind_ok.
    cbn [PyJson.iterate Res.bind]. rewrite keep_strings.
    cbn [lift bind trace outcome fst snd app].
    apply (in_map JStr) in Hu. apply In_nth_error in Hu as [n Hn].
    destruct (for_each_stops (collect w key) is_write_lines 0 (JStr u)
                (collect_quiet w key) _ n 0%nat [] Hn) as [[e He] Hquiet].
    + intros s'. unfold collect.
      destruct (get_endpoint_unanswered w key u Hbad) as [e He].
      exists e. now rewrite He.
    + unfold bounded in Hquiet.
      rewrite (M_eta (for_each _ _ _ _)), He. cbn [bind trace outcome fst snd].
      split; [now exists e | ].
      unfold count in *. cbn [filter is_write_lines List.length]. lia.
Qed.

Lemma fetch_failure_writes_nothing_witness :
  let w := {| environ_TNG_API_KEY := None;
              makedirs_ok := fun _ => true;
              read_lines := fun _ => None;
              download := fun _ _ => Unreachable;
              remove_ok := fun _ _ => true;
              write_fails := fun _ => None;
              endpoint := fun url =>
                if String.eqb url "https://x/api/"
                then ApiStatus 200
                       (Some (JList [JStr "s_v2_72"; JStr "s_v2_91"]))
                else ApiStatus 503 None |} in
  let r := make_list_of_urls w (Some "key") "https://x" "/api/" "_91"
             "urls.txt" in
  (exists e, outcome r = inl e) /\ count is_write_lines (trace r) = 0%nat.
Proof.
  intros w.
  apply (fetch_failure_writes_nothing w (Some "key") "https://x" "/api/"
           "_91" "urls.txt").
  right. exists ["s_v2_72"; "s_v2_91"], "s_v2_91". split; [ | split].
  - exists 200%Z. split; [reflexivity | unfold error_status; lia].
  - vm_compute. now left.
  - right. exists 503%Z, None. split; [reflexivity | ].
    left. unfold error_status. lia.
Defined.

(** ** The key on every request *)

Lemma carries_others (key : option string) (t : list event) :
  count is_http_get t = 0%nat -> Forall (carries key) t.
Proof.
  apply Forall_quiet. intros [ ] He; try discriminate;
    intros url k Heq; discriminate.
Qed.

Lemma run_carries_key (w : world) (cfg : config) :
  Forall (carries (API_KEY cfg)) (trace (download_and_split_hsc_images w cfg)).
Proof.
  unfold download_and_split_hsc_images. rewrite trace_bind.
  apply Forall_app. split.
  - apply carries_others.
    pose proof (resolve_batch_quiet w cfg is_http_get (fun _ => eq_refl))
      as Hq. unfold bounded in Hq. lia.
  - destruct (outcome (resolve_batch w cfg)) as [e | batch]; [constructor | ].
    unfold run_batch. destruct batch as [ | u later].
    + repeat constructor. discriminate.
    + rewrite trace_bind. apply Forall_app. split.
      * apply Forall_for_each. intros i a s. apply process_item_keys.
      * destruct (outcome (for_each _ 0 (u :: later) _)) as [e | entries];
          [constructor | ].
        apply carries_others.
        pose proof (write_catalog_quiet w cfg is_http_get entries
                      (fun _ _ _ _ => eq_refl) (fun _ => eq_refl)) as Hq.
        unfold bounded in Hq. lia.
Qed.

Lemma fetch_carries_key (w : world) (key : option string)
    (BASE_API_URL ENDING SNAPSHOT_FILTER output_path : string) :
  Forall (carries key)
    (trace (make_list_of_urls w key BASE_API_URL ENDING SNAPSHOT_FILTER
              output_path)).
Proof.
  unfold make_list_of_urls. rewrite trace_bind. apply Forall_app. split.
  - apply get_endpoint_keys.
  - destruct (outcome (get_endpoint w key _)) as [e | snapshot_urls];
      [constructor | ].
    rewrite trace_bind. apply Forall_app. split; [constructor | ].
    destruct (Res.bind _ _) as [e | filtered]; [constructor | ].
    cbn [lift outcome snd].
    rewrite trace_bind. apply Forall_app. split; [apply collect_keys | ].
    destruct (outcome (for_each _ 0 _ _)) as [e | all_urls]; [constructor | ].
    rewrite write_lines_trace. repeat constructor. discriminate.
Qed.

(** X14: every request that [main] makes, for either subcommand, carries
    one and the same key: the [--api-key] option when it is a non-empty
    string, the value of TNG_API_KEY otherwise; and that key is never
    [None] or empty, since without one [main] stops before any request. *)
Theorem main_sends_the_resolved_key (w : world) (a : args) :
  let key := py_or (explicit_key a) (environ_TNG_API_KEY w) in
  Forall (carries key) (trace (main w a))
  /\ (count is_http_get (trace (main w a)) <> 0%nat ->
      exists k, key = Some k /\ k <> EmptyString)
  /\ (forall k, explicit_key a = Some k -> k <> EmptyString -> key = Some k).
Proof.
  intros key.
  assert (Hresolve : forall name,
             _resolve_api_key (environ_TNG_API_KEY w) (explicit_key a) name
             = if truthy_opt key then inr key
               else inl (SystemExit (requires_an_api_key name))).
  { intros name. unfold _resolve_api_key. fold key.
    now destruct (truthy_opt key). }
  split; [ | split].
  - unfold main. destruct a as [k b e f o | options]; cbn [explicit_key] in *;
      rewrite Hresolve; destruct (truthy_opt key); try constructor;
      unfold lift; rewrite bind_ok; cbn [app].
    + apply fetch_carries_key.
    + apply (run_carries_key w (with_api_key key options)).
  - intros Hsome. apply truthy_opt_true.
    destruct (truthy_opt key) eqn:Hkey; [reflexivity | ].
    exfalso. apply Hsome. unfold main.
    destruct a as [k b e f o | options]; cbn [explicit_key] in *;
      now rewrite Hresolve.
  - intros k Hk Hne. subst key. unfold py_or. rewrite Hk.
    destruct k; [contradiction | reflexivity].
Qed.

(** ** Names and paths *)

Lemma has_char_app (c : ascii) (a b : string) :
  has_char c (a ++ b) = has_char c a || has_char c b.
Proof.
  induction a as [ | x a IH]; cbn; [reflexivity | ].
  now rewrite IH, orb_assoc.
Qed.

Lemma split_parts_have_no_separator (sep : ascii) (s : string) :
  forall p, In p (PyStr.split sep s) -> has_char sep p = false.
Proof.
  induction s as [ | c r IH]; cbn [PyStr.split]; intros p Hp.
  - destruct Hp as [<- | []]. reflexivity.
  - destruct (Ascii.eqb c sep) eqn:Hc.
    + destruct Hp as [<- | Hp]; [reflexivity | now apply IH].
    + destruct (PyStr.split sep r) as [ | q qs]; cbn in Hp.
      * destruct Hp as [<- | []]. cbn. now rewrite Hc.
      * destruct Hp as [<- | Hp].
        -- cbn. rewrite Hc. apply IH. now left.
        -- apply IH. now right.
Qed.

Lemma getitem_In {A} (l : list A) (i : Z) (a : A) :
  PyList.getitem l i = inr a -> In a l.
Proof.
  unfold PyList.getitem.
  destruct ((_ <? 0)%Z || _); [discriminate | ].
  destruct (nth_error l _) as [b | ] eqn:Hnth; [ | discriminate].
  intros [= <-]. eapply nth_error_In, Hnth.
Qed.

Lemma digits_have_no_slash (ds : string) :
  all_digits ds = true -> has_char "/" ds = false.
Proof.
  induction ds as [ | c ds IH]; cbn; [reflexivity | ].
  intros Hall. apply andb_prop in Hall as [Hc Hds]. rewrite (IH Hds).
  destruct (Ascii.eqb c "/") eqn:Hslash; [ | reflexivity].
  apply Ascii.eqb_eq in Hslash as ->. discriminate.
Qed.

Lemma take_digits_rest (s : string) :
  exists post,
    s = take_digits s ++ post /\ tight_front PyStr.isdigit post.
Proof.
  induction s as [ | c r (post & Hpost & Htight)]; cbn.
  - now exists EmptyString.
  - destruct (PyStr.isdigit c) eqn:Hc.
    + exists post. cbn. now rewrite <- Hpost.
    + exists (String c r). now split.
Qed.

Lemma take_digits_app (s t : string) :
  PyStr.truthy (take_digits s) = true ->
  PyStr.truthy (take_digits (s ++ t)) = true.
Proof.
  destruct s as [ | c r]; cbn; [discriminate | ].
  now destruct (PyStr.isdigit c).
Qed.

(** What [re.search] returns: a [v<digits>] of the string, the leftmost
    one, with all the digits that follow its [v]. *)
Lemma search_version_some (fn v : string) :
  search_version fn = Some v ->
  version_tag v
  /\ exists pre post,
       fn = pre ++ v ++ post
       /\ ~ has_version_tag pre
       /\ tight_front PyStr.isdigit post.
Proof.
  revert v. induction fn as [ | c r IH]; intros v; [discriminate | ].
  cbn [search_version].
  destruct (Ascii.eqb c "v" && PyStr.truthy (take_digits r)) eqn:Hhead.
  - intros [= <-]. apply andb_prop in Hhead as [Hc Hrun].
    apply Ascii.eqb_eq in Hc as ->.
    destruct (take_digits_split r) as [Hall _].
    destruct (take_digits_rest r) as (post & Hpost & Htight).
    split.
    + exists (take_digits r). repeat split; [ | exact Hall].
      intros Hempty. now rewrite Hempty in Hrun.
    + exists EmptyString, post. repeat split; [ | | exact Htight].
      * cbn. now rewrite <- Hpost.
      * now apply search_version_none.
  - intros Hlater. destruct (IH v Hlater)
      as (Htag & pre & post & -> & Hleft & Htight).
    split; [exact Htag | ].
    exists (String c pre), post. repeat split; [ | exact Htight].
    apply search_version_none. cbn [search_version].
    apply search_version_none in Hleft. rewrite Hleft.
    destruct (Ascii.eqb c "v" && PyStr.truthy (take_digits pre)) eqn:Hpre;
      [ | reflexivity].
    apply andb_prop in Hpre as [Hc Hrun].
    rewrite Hc, (take_digits_app pre (v ++ post) Hrun) in Hhead.
    discriminate.
Qed.

Lemma parse_url_version (u snapshot subhalo version : string) :
  parse_url u = inr (snapshot, subhalo, version) ->
  version = match search_version (final_segment u) with
            | Some g => g
            | None => "v?"
            end.
Proof.
  unfold parse_url.
  destruct (PyList.getitem (PyStr.split "/" u) 6) as [e | s6];
    [discriminate | ].
  destruct (PyList.getitem (PyStr.split "/" u) 8) as [e | s8];
    [discriminate | ].
  cbn [Res.bind].
  rewrite (getitem_last _ EmptyString (split_nonempty _ _)).
  cbn [Res.bind Res.ret]. fold (final_segment u). now intros [= _ _ <-].
Qed.

(** X15: the version that [parse_url] returns is either the sentinel
    ["v?"], exactly when the last component has no [v<digits>], or the
    leftmost [v<digits>] of the last component with all the digits that
    follow its [v]. *)
Theorem parsed_version_shape (u snapshot subhalo version : string) :
  parse_url u = inr (snapshot, subhalo, version) ->
  (version = "v?" /\ ~ has_version_tag (final_segment u))
  \/ (version_tag version
      /\ exists pre post,
           final_segment u = pre ++ version ++ post
           /\ ~ has_version_tag pre
           /\ tight_front PyStr.isdigit post).
Proof.
  intros Hparse. apply parse_url_version in Hparse as ->.
  destruct (search_version (final_segment u)) as [v | ] eqn:Hsearch.
  - right. now apply search_version_some.
  - left. split; [reflexivity | ]. now apply search_version_none.
Qed.

Lemma parsed_version_shape_witness :
  version_tag "v2".
Proof.
  destruct (parsed_version_shape Scenario.url_v2 "72" "0" "v2" eq_refl)
    as [[Hsentinel _] | [Htag _]].
  - discriminate Hsentinel.
  - exact Htag.
Defined.

Lemma parsed_parts_have_no_slash (u snapshot subhalo version : string) :
  parse_url u = inr (snapshot, subhalo, version) ->
  has_char "/" snapshot = false
  /\ has_char "/" subhalo = false
  /\ has_char "/" version = false.
Proof.
  intros Hparse.
  assert (Hversion : has_char "/" version = false).
  { rewrite (parse_url_version u snapshot subhalo version Hparse).
    destruct (search_version (final_segment u)) as [v | ] eqn:Hsearch;
      [ | reflexivity].
    destruct (search_version_some _ _ Hsearch) as [(ds & -> & _ & Hall) _].
    cbn. now apply digits_have_no_slash. }
  revert Hparse. unfold parse_url.
  destruct (PyList.getitem (PyStr.split "/" u) 6) as [e | s6] eqn:H6;
    [discriminate | ].
  destruct (PyList.getitem (PyStr.split "/" u) 8) as [e | s8] eqn:H8;
    [discriminate | ].
  cbn [Res.bind].
  destruct (PyList.getitem (PyStr.split "/" u) (-1)) as [e | fn];
    [discriminate | ].
  cbn. intros [= <- <- _].
  repeat split; try exact Hversion;
    eapply split_parts_have_no_separator, getitem_In; eassumption.
Qed.

Lemma path_join_relative (d name : string) :
  has_char "/" name = false -> path_join d name = dir_prefix d ++ name.
Proof.
  intros Hname. unfold path_join, dir_prefix.
  assert (Hrel : String.prefix "/" name = false).
  { destruct name as [ | c r]; [reflexivity | ].
    cbn [has_char] in Hname. apply orb_false_elim in Hname as [Hc _].
    cbn [String.prefix].
    destruct (ascii_dec "/" c) as [<- | ]; [discriminate | reflexivity]. }
  rewrite Hrel.
  destruct (negb (PyStr.truthy d) || ends_with_slash d); [reflexivity | ].
  now rewrite append_assoc.
Qed.

Lemma filters_have_no_slash (filt : string) :
  In filt filters -> has_char "/" filt = false.
Proof.
  intros [<- | [<- | [<- | [<- | [<- | []]]]]]; reflexivity.
Qed.

Lemma fname_parent_no_slash (u snapshot subhalo version : string) :
  parse_url u = inr (snapshot, subhalo, version) ->
  has_char "/" (fname_parent snapshot subhalo version) = false.
Proof.
  intros Hparse.
  destruct (parsed_parts_have_no_slash u snapshot subhalo version Hparse)
    as (Hs & Hh & Hv).
  unfold fname_parent. rewrite !has_char_app, Hs, Hh, Hv. reflexivity.
Qed.

Lemma out_name_no_slash (u snapshot subhalo version filt : string) :
  parse_url u = inr (snapshot, subhalo, version) ->
  In filt filters ->
  has_char "/" (out_name snapshot subhalo filt version) = false.
Proof.
  intros Hparse Hfilt.
  destruct (parsed_parts_have_no_slash u snapshot subhalo version Hparse)
    as (Hs & Hh & Hv).
  unfold out_name.
  rewrite !has_char_app, Hs, Hh, Hv, (filters_have_no_slash filt Hfilt).
  reflexivity.
Qed.



(** ** Split images *)

Lemma Forall_for_each_in {A St} (body : nat -> A -> St -> M St)
    (P : event -> Prop) (l : list A) :
  (forall i a s, In a l -> Forall P (trace (body i a s))) ->
  forall i s, Forall P (trace (for_each body i l s)).
Proof.
  induction l as [ | a r IH]; intros Hbody i s; cbn [for_each].
  - constructor.
  - rewrite trace_bind. apply Forall_app. split.
    + apply Hbody. now left.
    + destruct (outcome (body i a s)); [constructor | ].
      apply IH. intros j b s' Hb. apply Hbody. now right.
Qed.

Section SplitImages.
Variable w : world.
Variable cfg : config.

Lemma split_image_other (e : event) :
  is_write_fits e = false -> split_image_of w cfg e.
Proof.
  intros He path image overwrite ->. discriminate.
Qed.

Lemma split_image_quiet {A} (m : M A) :
  bounded is_write_fits 0 m -> Forall (split_image_of w cfg) (trace m).
Proof.
  unfold bounded. intros Hm.
  apply (Forall_quiet _ is_write_fits); [apply split_image_other | lia].
Qed.

Lemma requests_get_served i u body :
  outcome (requests_get w cfg i u) = inr body ->
  exists status_code,
    download w i u = Status status_code body /\ ~ error_status status_code.
Proof.
  unfold requests_get.
  destruct (download w i u) as [ | status_code served]; [discriminate | ].
  destruct (raises_for_status status_code) eqn:Hcode; cbn;
    [discriminate | ].
  intros [= ->]. exists status_code. split; [reflexivity | ].
  intros Herror. apply raises_for_status_error in Herror. congruence.
Qed.

Lemma split_filter_image i u snapshot subhalo version status_code hdul k filt
    entries :
  parse_url u = inr (snapshot, subhalo, version) ->
  download w i u = Status status_code (Fits hdul) ->
  ~ error_status status_code ->
  In filt filters ->
  Forall (split_image_of w cfg)
         (trace (split_filter w cfg snapshot subhalo version hdul k filt
                   entries)).
Proof.
  intros Hparse Hserved Hcode Hfilt. unfold split_filter.
  destruct (find (has_extname (target_ext filt)) hdul) as [sci_hdu | ]
    eqn:Hfind.
  - apply find_some in Hfind as [Hin Hname].
    rewrite trace_bind, write_trace. cbn [app].
    constructor.
    + intros path image overwrite [= <- <- <-]. split; [reflexivity | ].
      exists i, u, snapshot, subhalo, version, status_code, hdul, filt,
        sci_hdu.
      repeat split; try assumption.
      apply card_eq_str_true in Hname. exact Hname.
    + destruct (outcome (write w _)); [constructor | ].
      apply split_image_quiet.
      destruct entries as [rows | ]; quiet_by_hyps.
  - apply split_image_quiet. quiet_by_hyps.
Qed.

Lemma process_item_images i u entries :
  Forall (split_image_of w cfg) (trace (process_item w cfg i u entries)).
Proof.
  rewrite process_item_unfold.
  destruct (parse_url u) as [e | [[snapshot subhalo] version]] eqn:Hparse;
    [constructor | ].
  rewrite bind_ok. cbn [trace fst app]. rewrite trace_bind.
  rewrite requests_get_trace. cbn [app].
  constructor; [now apply split_image_other | ].
  constructor; [now apply split_image_other | ].
  destruct (outcome (requests_get w cfg i u)) as [e | body] eqn:Hget;
    [constructor | ].
  apply requests_get_served in Hget as (status_code & Hget & Hcode).
  unfold after_download. rewrite trace_bind, write_trace. cbn [app].
  constructor; [now apply split_image_other | ].
  destruct (outcome (write w _)); [constructor | ].
  destruct (negb (parent_file_only cfg)); [ | constructor].
  destruct body as [hdul | ]; [ | constructor].
  cbn [fits_open]. unfold ret at 1. rewrite bind_ok. cbn [trace fst app].
  rewrite trace_bind. apply Forall_app. split.
  - apply Forall_for_each_in. intros k filt s Hfilt.
    now apply (split_filter_image i u _ _ _ status_code).
  - destruct (outcome (for_each _ 0 filters entries)); [constructor | ].
    apply split_image_quiet. quiet_by_hyps.
    now apply cleanup_quiet.
Qed.
End SplitImages.

(** X17: every split image the run writes, or tries to write, is made
    from an extension of a container that the server returned to one of
    its requests: it is the primary HDU built from the data and header of
    an extension of that container whose [EXTNAME] is [SUBARU_HSC.]
    followed by one of the five filters, it goes to the split directory
    joined with the name built from the locator's parts, that filter and
    the version, and the write overwrites. *)
Theorem split_images_copy_served_extensions (w : world) (cfg : config) :
  Forall (split_image_of w cfg)
         (trace (download_and_split_hsc_images w cfg)).
Proof.
  unfold download_and_split_hsc_images. rewrite trace_bind.
  apply Forall_app. split.
  - apply split_image_quiet. now apply resolve_batch_quiet.
  - destruct (outcome (resolve_batch w cfg)) as [e | batch]; [constructor | ].
    unfold run_batch. destruct batch as [ | u later].
    + constructor; [now apply split_image_other | constructor].
    + rewrite trace_bind. apply Forall_app. split.
      * apply Forall_for_each. intros i a s. apply process_item_images.
      * destruct (outcome (for_each _ 0 (u :: later) _));
          [constructor | ].
        apply split_image_quiet. now apply write_catalog_quiet.
Qed.

(** ** Setting up *)

(** X18: when a directory cannot be made or the URL list cannot be
    opened, the run ends with [OSError] having done nothing but try to
    make directories: no request is sent, nothing is written and nothing
    is printed. *)
Theorem setup_failure_precedes_any_request (w : world) (cfg : config) :
  makedirs_ok w (parent_dir cfg) = false
  \/ (parent_file_only cfg = false
      /\ makedirs_ok w (split_output_dir cfg) = false)
  \/ read_lines w (URL_LIST cfg) = None ->
  let r := download_and_split_hsc_images w cfg in
  outcome r = inl OSError /\ forallb is_makedirs (trace r) = true.
Proof.
  intros Hfail r. subst r.
  unfold download_and_split_hsc_images, resolve_batch, os_makedirs,
    open_url_list.
  destruct (makedirs_ok w (parent_dir cfg)) eqn:Hparent;
    [ | now split].
  destruct (parent_file_only cfg) eqn:Honly; cbn [negb].
  - destruct (read_lines w (URL_LIST cfg)) as [f | ] eqn:Hread;
      [ | now split].
    destruct Hfail as [Hf | [[Hf _] | Hf]]; discriminate.
  - destruct (makedirs_ok w (split_output_dir cfg)) eqn:Hsplit;
      [ | now split].
    destruct (read_lines w (URL_LIST cfg)) as [f | ] eqn:Hread;
      [ | now split].
    destruct Hfail as [Hf | [[_ Hf] | Hf]]; discriminate.
Qed.

Lemma setup_failure_precedes_any_request_witness :
  let r := download_and_split_hsc_images
             (without_url_list
                (Scenario.server (Scenario.always Scenario.only_G)))
             (Scenario.with_catalog 0) in
  outcome r = inl OSError /\ forallb is_makedirs (trace r) = true.
Proof.
  apply (setup_failure_precedes_any_request
           (without_url_list
              (Scenario.server (Scenario.always Scenario.only_G)))
           (Scenario.with_catalog 0)).
  right. right. reflexivity.
Defined.

(** ** Names within an item *)

Lemma append_inv_head (a b c : string) : a ++ b = a ++ c -> b = c.
Proof.
  induction a as [ | x a IH]; cbn; [trivial | ].
  intros [= Heq]. now apply IH.
Qed.

Lemma length_append (a b : string) :
  String.length (a ++ b) = (String.length a + String.length b)%nat.
Proof. induction a as [ | x a IH]; cbn; [reflexivity | now rewrite IH]. Qed.

Lemma out_name_inj_filter (snapshot subhalo version f g : string) :
  In f filters -> In g filters ->
  out_name snapshot subhalo f version = out_name snapshot subhalo g version ->
  f = g.
Proof.
  intros Hf Hg Heq. unfold out_name in Heq.
  do 4 apply append_inv_head in Heq.
  destruct Hf as [<- | [<- | [<- | [<- | [<- | []]]]]];
    destruct Hg as [<- | [<- | [<- | [<- | [<- | []]]]]];
    try reflexivity; cbn in Heq; discriminate.
Qed.

Lemma out_name_not_parent (snapshot subhalo version f : string) :
  out_name snapshot subhalo f version <> fname_parent snapshot subhalo version.
Proof.
  unfold out_name, fname_parent. intros Heq.
  do 4 apply append_inv_head in Heq.
  apply (f_equal String.length) in Heq.
  rewrite !length_append in Heq. cbn in Heq. lia.
Qed.

(** X19: the files of one item do not overwrite each other.  For a
    locator that parses and any directory, the parent path and the five
    split paths in that directory are six different paths, so that with
    the parent directory left to default to the split directory no split
    image replaces the parent file or another filter's image. *)
Theorem item_files_are_distinct (u snapshot subhalo version d : string) :
  parse_url u = inr (snapshot, subhalo, version) ->
  NoDup (path_join d (fname_parent snapshot subhalo version)
         :: map (fun filt =>
                   path_join d (out_name snapshot subhalo filt version))
                filters).
Proof.
  intros Hparse.
  assert (Hsplit : forall f, In f filters ->
             path_join d (out_name snapshot subhalo f version)
             = dir_prefix d ++ out_name snapshot subhalo f version).
  { intros f Hf. apply path_join_relative.
    now apply (out_name_no_slash u). }
  rewrite (path_join_relative d _
             (fname_parent_no_slash u snapshot subhalo version Hparse)).
  assert (Hmap : map (fun filt =>
                        path_join d (out_name snapshot subhalo filt version))
                     filters
                 = map (fun filt =>
                          dir_prefix d
                          ++ out_name snapshot subhalo filt version)
                       filters).
  { apply map_ext_in. exact Hsplit. }
  rewrite Hmap. constructor.
  - intros Hin. apply in_map_iff in Hin as (f & Heq & _).
    apply append_inv_head in Heq.
    now apply (out_name_not_parent snapshot subhalo version f).
  - assert (Hnodup : NoDup filters).
    { unfold filters. repeat constructor; cbn; intuition discriminate. }
    revert Hnodup.
    assert (Hall : forall f, In f filters -> In f filters) by trivial.
    revert Hall. generalize filters at 1 3 4 as l.
    induction l as [ | f l IH]; intros Hall Hnodup; cbn [map];
      [constructor | ].
    inversion Hnodup as [ | ? ? Hnotin Hrest]; subst.
    constructor.
    + intros Hin. apply in_map_iff in Hin as (g & Heq & Hg).
      apply append_inv_head in Heq.
      apply out_name_inj_filter in Heq;
        [ | apply Hall; now right | apply Hall; now left].
      subst g. contradiction.
    + apply IH; [ | exact Hrest]. intros g Hg. apply Hall. now right.
Qed.

Lemma item_files_are_distinct_witness :
  NoDup (path_join "split_images" (fname_parent "72" "0" "v2")
         :: map (fun filt =>
                   path_join "split_images" (out_name "72" "0" filt "v2"))
                filters).
Proof.
  apply (item_files_are_distinct Scenario.url_v2). reflexivity.
Defined.

(** ** A listing with an entry that is not a string *)

Section Entries.
Variable w : world.
Variable key : option string.

Lemma collect_entries (l : list string) (entries : list (list json)) :
  Forall2 (holds w) l entries ->
  forall k acc,
    for_each (collect w key) k (map JStr l) acc
    = (map (fun u => HttpGet u key) l,
       inr (acc ++ List.concat entries)%list).
Proof.
  induction 1 as [ | u es l entries (items & Hreply & Hfiles) _ IH];
    intros k acc.
  - cbn. now rewrite app_nil_r.
  - cbn [for_each map]. unfold collect at 1.
    rewrite (get_endpoint_answers w key u _ Hreply), bind_ok.
    cbn [PyJson.getitem]. rewrite Hfiles.
    cbn [lift bind ret app trace outcome fst snd PyJson.iterate].
    rewrite IH. cbn [List.concat]. now rewrite app_assoc.
Qed.

Lemma text_lines_cut (good : list string) (bad : json) (rest : list json) :
  (forall s, bad <> JStr s) ->
  text_lines (map JStr good ++ bad :: rest)
  = (map (fun u => u ++ newline) good, inl TypeError).
Proof.
  intros Hbad. induction good as [ | u good IH]; cbn [map app text_lines].
  - destruct bad; try reflexivity. now destruct (Hbad s).
  - now rewrite IH.
Qed.
End Entries.

(** X20: an entry of a listing that is not a string cuts the output
    short.  When the index answers with a list of strings and every
    listing kept answers with a list under ["files"], all the requests
    are made and the output file is opened; the files are written one per
    line up to the first entry that is not a string, and there the call
    ends with [TypeError] (unless the write itself fails), leaving the
    output file with only the lines before that entry. *)
Theorem output_is_cut_at_a_non_string_entry (w : world) (key : option string)
    (BASE_API_URL ENDING SNAPSHOT_FILTER output_path : string)
    (snapshot_urls : list string) (entries : list (list json))
    (good : list string) (bad : json) (rest : list json) :
  answers w (BASE_API_URL ++ ENDING) (JList (map JStr snapshot_urls)) ->
  let filtered := filter (PyStr.contains SNAPSHOT_FILTER) snapshot_urls in
  Forall2 (holds w) filtered entries ->
  List.concat entries = (map JStr good ++ bad :: rest)%list ->
  (forall s, bad <> JStr s) ->
  make_list_of_urls w key BASE_API_URL ENDING SNAPSHOT_FILTER output_path
  = bind (HttpGet (BASE_API_URL ++ ENDING) key
            :: map (fun u => HttpGet u key) filtered, inr tt)
      (fun _ =>
         write w (WriteLines output_path
                    (map (fun u => u ++ newline) good)) ;;
         raise TypeError).
Proof.
  intros Hindex filtered Hok Hall Hbad.
  unfold make_list_of_urls.
  rewrite (get_endpoint_answers w key _ _ Hindex), bind_ok.
  cbn [PyJson.iterate Res.bind]. rewrite keep_strings. fold filtered.
  unfold lift. rewrite !bind_ok.
  rewrite (collect_entries w key filtered entries Hok 0 []), !bind_ok.
  cbn [trace outcome fst snd app]. unfold write_lines.
  now rewrite Hall, (text_lines_cut good bad rest Hbad).
Qed.

Lemma output_is_cut_at_a_non_string_entry_witness :
  let w := {| environ_TNG_API_KEY := None;
              makedirs_ok := fun _ => true;
              read_lines := fun _ => None;
              download := fun _ _ => Unreachable;
              remove_ok := fun _ _ => true;
              write_fails := fun _ => None;
              endpoint := fun url =>
                if String.eqb url "https://x/api/"
                then ApiStatus 200 (Some (JList [JStr "s_v2_91"]))
                else ApiStatus 200
                       (Some (JDict [("files",
                                      JList [JStr "a.fits"; JNull;
                                             JStr "b.fits"])])) |} in
  make_list_of_urls w (Some "key") "https://x" "/api/" "_91" "urls.txt"
  = ([HttpGet "https://x/api/" (Some "key"); HttpGet "s_v2_91" (Some "key");
      WriteLines "urls.txt" ["a.fits" ++ newline]], inl TypeError).
Proof.
  intros w.
  rewrite (output_is_cut_at_a_non_string_entry w (Some "key") "https://x"
             "/api/" "_91" "urls.txt" ["s_v2_91"]
             [[JStr "a.fits"; JNull; JStr "b.fits"]]
             ["a.fits"] JNull [JStr "b.fits"]).
  - reflexivity.
  - exists 200%Z. split; [reflexivity | unfold error_status; lia].
  - constructor; [ | constructor].
    exists [("files", JList [JStr "a.fits"; JNull; JStr "b.fits"])].
    split; [ | reflexivity].
    exists 200%Z. split; [reflexivity | unfold error_status; lia].
  - reflexivity.
  - discriminate.
Defined.
